(** * Study-helper backend: a shallow embedding of the credential, token and
    problem-store code (src/backend/{crud,main,schemas,models}.py) and the
    laws of its specification.

    Layout: Python values and exceptions; the library calls the code relies
    on ([json], [base64], [passlib], [jose], [pydantic]) modelled after their
    reference behaviour; the ORM rows of models.py; the functions of crud.py
    and the route handlers of main.py, first over the plain queries
    ([crud], [main]), then with the checks of the database driver in front
    of every query and commit ([sqlite3], [crud_db], [main_db]); then the
    theorems. *)

From Stdlib.Strings Require Import Ascii String Byte.
From Stdlib Require Import List NArith ZArith Bool Lia.
Import ListNotations.

Set Implicit Arguments.

(* ===================================================================== *)
(** ** Python strings *)
(* ===================================================================== *)

(** A Python [str] is a sequence of code points. *)
Definition char := N.
Definition str := list char.

(** An ASCII literal as a [str]. *)
Definition py (s : string) : str := map N_of_ascii (list_ascii_of_string s).

Fixpoint str_eqb (a b : str) : bool :=
  match a, b with
  | [], [] => true
  | x :: a', y :: b' => N.eqb x y && str_eqb a' b'
  | _, _ => false
  end.

(** [s[i:i+len(p)] == p], returning what follows the prefix. *)
Fixpoint starts_with (p s : str) : option str :=
  match p with
  | [] => Some s
  | x :: p' =>
      match s with
      | y :: s' => if N.eqb x y then starts_with p' s' else None
      | [] => None
      end
  end.

(** Truth value of a possibly-absent string: [None] and [''] are falsy. *)
Definition truthy_str (v : option str) : bool :=
  match v with
  | Some (_ :: _) => true
  | _ => false
  end.

(** Unicode scalar values: code points outside the surrogate range. *)
Definition is_scalar (c : char) : bool :=
  (N.ltb c 55296 || (N.ltb 57343 c && N.ltb c 1114112))%N.

(** Text as it arrives in a request (decoded from UTF-8): scalar values
    only. *)
Definition unicode_text (s : str) : Prop := Forall (fun c => is_scalar c = true) s.

Definition is_high_surrogate (c : char) : bool :=
  (N.leb 55296 c && N.leb c 56319)%N.

Definition is_low_surrogate (c : char) : bool :=
  (N.leb 56320 c && N.leb c 57343)%N.

Definition head_is_low (s : str) : bool :=
  match s with
  | d :: _ => is_low_surrogate d
  | [] => false
  end.

(** The strings the JSON codec preserves: code points of the Unicode
    range, with no high surrogate immediately followed by a low one (the
    decoder would join the two).  Every [unicode_text] is one; a string
    with lone surrogates, which [json.loads] can produce, is one too. *)
Fixpoint wf_strb (s : str) : bool :=
  match s with
  | [] => true
  | c :: rest =>
      N.ltb c 1114112
      && negb (is_high_surrogate c && head_is_low rest)
      && wf_strb rest
  end.

Definition wf_str (s : str) : Prop := wf_strb s = true.

(* ===================================================================== *)
(** ** Exceptions and results *)
(* ===================================================================== *)

(** The [detail] of the HTTP errors raised in main.py, by raise site. *)
Inductive detail :=
| CouldNotValidateCredentials   (* get_current_user *)
| UsernameAlreadyRegistered     (* register *)
| IncorrectUsernameOrPassword   (* login *)
| MissingContent                (* upload: neither raw nor file *)
| CannotReadFile                (* upload: file.file.read() failed *)
| KnowledgeTagsNotJSON          (* upload: knowledge_tags *)
| TagsNotJSON                   (* upload: tags *)
| ProblemNotFound               (* get / patch *)
| NoReadAccess                  (* get *)
| NoWriteAccess                 (* patch *)
| RequiresAdmin
| UserNotFound.

Inductive jwt_error := InvalidSignature | ExpiredSignatureError | JWTClaimsError.

Inductive exn :=
| HTTPException (status_code : Z) (d : detail)
| JSONDecodeError
| RecursionError
| ValidationError               (* pydantic *)
| UnknownHashError              (* passlib.exc *)
| KeyError                      (* a context without schemes *)
| HandlerError                  (* raised inside a passlib handler *)
| PasswordSizeError             (* passlib.exc: a secret over 4096 characters *)
| ValueError                    (* passlib: a hash of the scheme that does not parse *)
| OverflowError                 (* sqlite3: an integer that does not fit 64 bits *)
| UnicodeEncodeError            (* text with a surrogate, encoded as UTF-8 *)
| IOError                       (* reading an uploaded file *)
| IntegrityError                (* sqlalchemy.exc: unique constraint *)
| JWTError (e : jwt_error).     (* jose: JWTError and its subclasses *)

Inductive result (A : Type) :=
| Return (a : A)
| Raise (e : exn).
Arguments Return {A} a.
Arguments Raise {A} e.

Definition bind {A B} (r : result A) (k : A -> result B) : result B :=
  match r with
  | Return a => k a
  | Raise e => Raise e
  end.

Notation "x <- r ;; k" := (bind r (fun x => k))
  (at level 61, r at next level, right associativity).
Notation "' p <- r ;; k" := (bind r (fun x => let 'p := x in k))
  (at level 61, p pattern, r at next level, right associativity).

(** The status a handler's outcome stands for: FastAPI turns an
    [HTTPException] into its status code and any other uncaught exception
    into 500; a returned value is the 200 the handler answers with (the
    encoding of the response, which comes after the handler, is not part
    of this model). *)
Definition status_of {A} (r : result A) : Z :=
  match r with
  | Return _ => 200
  | Raise (HTTPException s _) => s
  | Raise _ => 500
  end.

(* ===================================================================== *)
(** ** json (CPython Lib/json: encoder.py, decoder.py, scanner.py)

    Modelled on the pure-Python reference code of the module; where the C
    accelerator CPython runs by default is stricter (hex digits of an
    escape, ASCII digits of a number) the model follows the accelerator. *)
(* ===================================================================== *)

Module json.
Local Open Scope N_scope.

(** What [json.loads] builds.  A number keeps its matched text (the [int]
    or [float] made from it is not needed here); a [dict] keeps its pairs
    in document order. *)
#[warnings="-register-all"]
Inductive pyobj :=
| PyNone
| PyBool (b : bool)
| PyNumber (lexeme : str)
| PyStr (s : str)
| PyList (items : list pyobj)
| PyDict (pairs : list (str * pyobj)).

Definition QUOTE : char := 34.
Definition BACKSLASH : char := 92.
Definition LETTER_u : char := 117.

(** *** Encoder *)

(** One digit of ['{0:04x}'.format(n)]. *)
Definition hex_digit (d : N) : char := if d <? 10 then 48 + d else 87 + d.

(** ['\\u{0:04x}'.format(n)] for [n < 0x10000]. *)
Definition u_escape (n : N) : str :=
  [BACKSLASH; LETTER_u;
   hex_digit (n / 4096); hex_digit ((n / 256) mod 16);
   hex_digit ((n / 16) mod 16); hex_digit (n mod 16)].

Definition ESCAPE_DCT (c : char) : option str :=
  if c =? 92 then Some [BACKSLASH; BACKSLASH]
  else if c =? 34 then Some [BACKSLASH; QUOTE]
  else if c =? 8 then Some [BACKSLASH; 98]
  else if c =? 12 then Some [BACKSLASH; 102]
  else if c =? 10 then Some [BACKSLASH; 110]
  else if c =? 13 then Some [BACKSLASH; 114]
  else if c =? 9 then Some [BACKSLASH; 116]
  else if c <? 32 then Some (u_escape c)
  else None.

(** ESCAPE_ASCII: a backslash, a double quote, or anything outside the
    printable ASCII range from space to tilde; these are replaced. *)
Definition ESCAPE_ASCII (c : char) : bool :=
  (c =? 92) || (c =? 34) || negb ((32 <=? c) && (c <=? 126)).

Definition replace (c : char) : str :=
  match ESCAPE_DCT c with
  | Some e => e
  | None =>
      if c <? 65536 then u_escape c
      else
        let n := c - 65536 in
        let s1 := N.lor 55296 (N.land (N.shiftr n 10) 1023) in
        let s2 := N.lor 56320 (N.land n 1023) in
        u_escape s1 ++ u_escape s2
  end.

Definition escape_char (c : char) : str :=
  if ESCAPE_ASCII c then replace c else [c].

Definition py_encode_basestring_ascii (s : str) : str :=
  QUOTE :: flat_map escape_char s ++ [QUOTE].

(** [', '.join(items)]. *)
Fixpoint join_items (items : list str) : str :=
  match items with
  | [] => []
  | [x] => x
  | x :: rest => x ++ py ", " ++ join_items rest
  end.

(** [json.dumps(l)] for a list of strings [l] (default separators,
    ensure_ascii). *)
Definition dumps (l : list str) : str :=
  py "[" ++ join_items (map py_encode_basestring_ascii l) ++ py "]".

(** *** Decoder *)

Definition is_ws (c : char) : bool :=
  (c =? 32) || (c =? 9) || (c =? 10) || (c =? 13).

(** WHITESPACE.match(s, end).end() *)
Fixpoint skip_ws (s : str) : str :=
  match s with
  | c :: s' => if is_ws c then skip_ws s' else s
  | [] => []
  end.

Definition hex_value (c : char) : option N :=
  if (48 <=? c) && (c <=? 57) then Some (c - 48)
  else if (97 <=? c) && (c <=? 102) then Some (c - 87)
  else if (65 <=? c) && (c <=? 70) then Some (c - 55)
  else None.

(** The four hex digits of a [\uXXXX] escape. *)
Definition decode_uXXXX (h1 h2 h3 h4 : char) : option N :=
  match hex_value h1, hex_value h2, hex_value h3, hex_value h4 with
  | Some a, Some b, Some c, Some d => Some (((a * 16 + b) * 16 + c) * 16 + d)
  | _, _, _, _ => None
  end.

Definition BACKSLASH_table (esc : char) : option char :=
  if esc =? 34 then Some 34
  else if esc =? 92 then Some 92
  else if esc =? 47 then Some 47
  else if esc =? 98 then Some 8
  else if esc =? 102 then Some 12
  else if esc =? 110 then Some 10
  else if esc =? 114 then Some 13
  else if esc =? 116 then Some 9
  else None.

Definition append_char (c : char) (r : option (str * str)) : option (str * str) :=
  match r with
  | Some (chunks, rest) => Some (c :: chunks, rest)
  | None => None
  end.

(** [scanstring(s, end, strict=True)], where the argument is [s[end:]]:
    the decoded string and what follows the closing quote; [None] is
    JSONDecodeError. *)
Fixpoint scanstring (s : str) : option (str * str) :=
  match s with
  | [] => None
  | c :: s1 =>
      if c =? QUOTE then Some ([], s1)
      else if c =? BACKSLASH then
        match s1 with
        | [] => None
        | esc :: s2 =>
            if esc =? LETTER_u then
              match s2 with
              | h1 :: h2 :: h3 :: h4 :: s3 =>
                  match decode_uXXXX h1 h2 h3 h4 with
                  | None => None
                  | Some uni =>
                      if (55296 <=? uni) && (uni <=? 56319) then
                        match s3 with
                        | b :: u :: s4 =>
                            if (b =? BACKSLASH) && (u =? LETTER_u) then
                              match s4 with
                              | g1 :: g2 :: g3 :: g4 :: s5 =>
                                  match decode_uXXXX g1 g2 g3 g4 with
                                  | None => None
                                  | Some uni2 =>
                                      if (56320 <=? uni2) && (uni2 <=? 57343) then
                                        append_char
                                          (65536 + N.lor (N.shiftl (uni - 55296) 10)
                                                         (uni2 - 56320))
                                          (scanstring s5)
                                      else append_char uni (scanstring s3)
                                  end
                              | _ => None
                              end
                            else append_char uni (scanstring s3)
                        | _ => append_char uni (scanstring s3)
                        end
                      else append_char uni (scanstring s3)
                  end
              | _ => None
              end
            else
              match BACKSLASH_table esc with
              | Some ch => append_char ch (scanstring s2)
              | None => None
              end
        end
      else if c <? 32 then None
      else append_char c (scanstring s1)
  end.

Definition is_digit (c : char) : bool := (48 <=? c) && (c <=? 57).

(** Zero or more digits: the digits matched and what follows. *)
Fixpoint digits (s : str) : str * str :=
  match s with
  | c :: s' =>
      if is_digit c then let (ds, r) := digits s' in (c :: ds, r) else ([], s)
  | [] => ([], [])
  end.

(** One or more digits. *)
Definition digits1 (s : str) : option (str * str) :=
  match digits s with
  | ([], _) => None
  | (ds, r) => Some (ds, r)
  end.

(** An optional group: the text matched (empty when the group does not
    match) and what follows. *)
Definition optional (m : str -> option (str * str)) (s : str) : str * str :=
  match m s with
  | Some r => r
  | None => ([], s)
  end.

Definition one_of (cs : list char) (s : str) : option (str * str) :=
  match s with
  | c :: s' => if existsb (N.eqb c) cs then Some ([c], s') else None
  | [] => None
  end.

(** First group of NUMBER_RE: an optional minus sign, then a single 0 or a
    nonzero digit followed by digits. *)
Definition match_integer (s : str) : option (str * str) :=
  let (sign, s1) := optional (one_of [45]) s in
  match s1 with
  | d :: s2 =>
      if d =? 48 then Some (sign ++ [d], s2)
      else if is_digit d then
        let (ds, r) := digits s2 in Some (sign ++ d :: ds, r)
      else None
  | [] => None
  end.

(** Second group of NUMBER_RE: a dot and at least one digit. *)
Definition match_frac (s : str) : option (str * str) :=
  match s with
  | c :: s1 =>
      if c =? 46 then
        match digits1 s1 with
        | Some (ds, r) => Some (c :: ds, r)
        | None => None
        end
      else None
  | [] => None
  end.

(** Third group of NUMBER_RE: e or E, an optional sign, at least one digit. *)
Definition match_exp (s : str) : option (str * str) :=
  match one_of [101; 69] s with
  | Some (e, s1) =>
      let (sign, s2) := optional (one_of [45; 43]) s1 in
      match digits1 s2 with
      | Some (ds, r) => Some (e ++ sign ++ ds, r)
      | None => None
      end
  | None => None
  end.

(** NUMBER_RE.match(string, idx): the matched text and what follows. *)
Definition match_number (s : str) : option (str * str) :=
  match match_integer s with
  | Some (integer, s1) =>
      let (frac, s2) := optional match_frac s1 in
      let (exp, s3) := optional match_exp s2 in
      Some (integer ++ frac ++ exp, s3)
  | None => None
  end.

(** Outcome of a scanning step: a value and the rest of the input, a
    JSONDecodeError (StopIteration is turned into one by every caller), or
    the recursion budget of the model exhausted. *)
Inductive scan (A : Type) :=
| Scanned (a : A) (rest : str)
| Invalid
| Exhausted.
Arguments Scanned {A} a rest.
Arguments Invalid {A}.
Arguments Exhausted {A}.

(** JSONArray up to its loop: [s] follows the opening bracket. *)
Definition JSONArray (loop : str -> list pyobj -> scan pyobj) (s : str) : scan pyobj :=
  match skip_ws s with
  | c :: s' => if c =? 93 then Scanned (PyList []) s' else loop (skip_ws s) []
  | [] => loop [] []
  end.

(** JSONObject up to its loop: [s] follows the opening brace; the loop
    starts after the quote that opens a key. *)
Definition JSONObject (loop : str -> list (str * pyobj) -> scan pyobj) (s : str) : scan pyobj :=
  match s with
  | c :: s' =>
      if c =? QUOTE then loop s' []
      else
        match skip_ws s with
        | c1 :: s1 =>
            if c1 =? 125 then Scanned (PyDict []) s1
            else if c1 =? QUOTE then loop s1 []
            else Invalid
        | [] => Invalid
        end
  | [] => Invalid
  end.

Definition constant (name : string) (v : pyobj) (s : str) : option (pyobj * str) :=
  match starts_with (py name) s with
  | Some r => Some (v, r)
  | None => None
  end.

(** The scanner's cases that do not recurse: null, true, false, a number,
    NaN, Infinity, -Infinity. *)
Definition scan_atom (s : str) : scan pyobj :=
  match constant "null" PyNone s with
  | Some (v, r) => Scanned v r
  | None =>
  match constant "true" (PyBool true) s with
  | Some (v, r) => Scanned v r
  | None =>
  match constant "false" (PyBool false) s with
  | Some (v, r) => Scanned v r
  | None =>
  match match_number s with
  | Some (lexeme, r) => Scanned (PyNumber lexeme) r
  | None =>
  match constant "NaN" (PyNumber (py "NaN")) s with
  | Some (v, r) => Scanned v r
  | None =>
  match constant "Infinity" (PyNumber (py "Infinity")) s with
  | Some (v, r) => Scanned v r
  | None =>
  match constant "-Infinity" (PyNumber (py "-Infinity")) s with
  | Some (v, r) => Scanned v r
  | None => Invalid
  end end end end end end end.

(** [_scan_once(string, idx)] with the loops of JSONArray and JSONObject;
    every call spends one unit of [fuel]. *)
Fixpoint scan_once (fuel : nat) (s : str) : scan pyobj :=
  match fuel with
  | O => Exhausted
  | S fuel' =>
      match s with
      | [] => Invalid
      | nextchar :: s1 =>
          if nextchar =? QUOTE then
            match scanstring s1 with
            | Some (x, r) => Scanned (PyStr x) r
            | None => Invalid
            end
          else if nextchar =? 123 then JSONObject (object_loop fuel') s1
          else if nextchar =? 91 then JSONArray (array_loop fuel') s1
          else scan_atom s
      end
  end

with array_loop (fuel : nat) (s : str) (values : list pyobj) : scan pyobj :=
  match fuel with
  | O => Exhausted
  | S fuel' =>
      match scan_once fuel' s with
      | Scanned value rest =>
          match skip_ws rest with
          | nextchar :: r =>
              if nextchar =? 93 then Scanned (PyList (values ++ [value])) r
              else if nextchar =? 44 then array_loop fuel' (skip_ws r) (values ++ [value])
              else Invalid
          | [] => Invalid
          end
      | Invalid => Invalid
      | Exhausted => Exhausted
      end
  end

with object_loop (fuel : nat) (s : str) (pairs : list (str * pyobj)) : scan pyobj :=
  match fuel with
  | O => Exhausted
  | S fuel' =>
      match scanstring s with
      | None => Invalid
      | Some (key, r0) =>
          match skip_ws r0 with
          | colon :: r1 =>
              if colon =? 58 then
                match scan_once fuel' (skip_ws r1) with
                | Scanned value rest =>
                    match skip_ws rest with
                    | nextchar :: r2 =>
                        if nextchar =? 125 then
                          Scanned (PyDict (pairs ++ [(key, value)])) r2
                        else if nextchar =? 44 then
                          match skip_ws r2 with
                          | q :: r3 =>
                              if q =? QUOTE then
                                object_loop fuel' r3 (pairs ++ [(key, value)])
                              else Invalid
                          | [] => Invalid
                          end
                        else Invalid
                    | [] => Invalid
                    end
                | Invalid => Invalid
                | Exhausted => Exhausted
                end
              else Invalid
          | [] => Invalid
          end
      end
  end.

(** [json.loads(s)]: JSONDecoder.decode.  The scanner gets two units of
    fuel per character and one more, which it cannot use up (see
    [scan_once_fuel]); running out would be reported as RecursionError. *)
Definition loads (s : str) : result pyobj :=
  match scan_once (S (2 * length s)) (skip_ws s) with
  | Scanned obj rest =>
      match skip_ws rest with
      | [] => Return obj
      | _ :: _ => Raise JSONDecodeError
      end
  | Invalid => Raise JSONDecodeError
  | Exhausted => Raise RecursionError
  end.

(** Whether the input starts with the escape of a low surrogate. *)
Definition starts_low_escape (s : str) : bool :=
  match s with
  | b :: u :: g1 :: g2 :: g3 :: g4 :: _ =>
      (b =? 92) && (u =? 117)
      && match decode_uXXXX g1 g2 g3 g4 with
         | Some uni2 => is_low_surrogate uni2
         | None => false
         end
  | _ => false
  end.

(** Decoded values whose strings, at the top and one level down, are ones
    the codec preserves. *)
Definition item_ok (v : pyobj) : Prop :=
  match v with
  | PyStr x => wf_str x
  | _ => True
  end.

Definition value_ok (v : pyobj) : Prop :=
  match v with
  | PyStr x => wf_str x
  | PyList items => Forall item_ok items
  | _ => True
  end.

(** A scanning outcome that, when it is a value, has consumed input. *)
Definition shorter (r : scan pyobj) (s : str) : Prop :=
  forall v rest, r = Scanned v rest -> (length rest < length s)%nat.

(** Where this model is CPython's decoder.  CPython gives up with
    RecursionError on arrays and objects nested beyond what the
    interpreter's recursion limit leaves (a thousand frames by default),
    and with ValueError on an integer literal of more than 4300 digits;
    the model has neither.  A text of at most a hundred characters can
    reach neither limit, and on such texts [loads] is what CPython
    computes. *)
Definition within_limits (s : str) : Prop := (length s <= 100)%nat.

End json.

(* ===================================================================== *)
(** ** base64.b64encode *)
(* ===================================================================== *)

Module base64.
Local Open Scope N_scope.

(** The standard alphabet: A-Z, a-z, 0-9, plus, slash. *)
Definition alphabet (i : N) : char :=
  if i <? 26 then 65 + i
  else if i <? 52 then 97 + (i - 26)
  else if i <? 62 then 48 + (i - 52)
  else if i =? 62 then 43
  else 47.

Definition sextet (n : N) (shift : N) : char :=
  alphabet (N.land (N.shiftr n shift) 63).

Definition PAD : char := 61.

(** [base64.b64encode(bs).decode('utf-8')] *)
Fixpoint b64encode (bs : list byte) : str :=
  match bs with
  | [] => []
  | [a] =>
      let n := N.shiftl (Byte.to_N a) 16 in
      [sextet n 18; sextet n 12; PAD; PAD]
  | [a; b] =>
      let n := N.lor (N.shiftl (Byte.to_N a) 16) (N.shiftl (Byte.to_N b) 8) in
      [sextet n 18; sextet n 12; sextet n 6; PAD]
  | a :: b :: c :: rest =>
      let n := N.lor (N.lor (N.shiftl (Byte.to_N a) 16) (N.shiftl (Byte.to_N b) 8))
                     (Byte.to_N c) in
      sextet n 18 :: sextet n 12 :: sextet n 6 :: sextet n 0 :: b64encode rest
  end.

End base64.

(* ===================================================================== *)
(** ** passlib.context.CryptContext *)
(* ===================================================================== *)

Module passlib.

(** A password-hash handler: which strings it recognises as its own
    hashes, how it hashes a secret under a salt, and how it checks a secret
    against one of its hashes.  Both can raise: on a secret the handler
    refuses, on a hash it recognises but cannot parse. *)
Record handler := {
  identify : str -> bool;
  genhash : str -> str -> result str;
  hverify : str -> str -> result bool
}.

(** A context is the list of its schemes, the default one first. *)
Definition CryptContext := list handler.

(** [CryptContext.verify(secret, hash)]: the first scheme that identifies
    the hash verifies it; a hash no scheme identifies raises
    UnknownHashError (passlib/context.py, _identify_record). *)
Definition verify (ctx : CryptContext) (secret hash : str) : result bool :=
  match find (fun h => identify h hash) ctx with
  | Some h => hverify h secret hash
  | None => Raise UnknownHashError
  end.

(** [CryptContext.hash(secret)] with the salt the default scheme draws. *)
Definition hash (ctx : CryptContext) (secret salt : str) : result str :=
  match ctx with
  | h :: _ => genhash h secret salt
  | [] => Raise KeyError
  end.

(** [passlib.utils.handlers.validate_secret]: a secret of more than
    MAX_PASSWORD_SIZE characters is refused, in hash and in verify. *)
Definition MAX_PASSWORD_SIZE : nat := 4096.

Definition validate_secret (secret : str) : result unit :=
  if (MAX_PASSWORD_SIZE <? length secret)%nat then Raise PasswordSizeError
  else Return tt.

(** [secret.encode("utf-8")], what the digest is computed from. *)
Definition encode_secret (secret : str) : result unit :=
  if forallb is_scalar secret then Return tt else Raise UnicodeEncodeError.

(** The identification prefix of passlib.hash.pbkdf2_sha256. *)
Definition pbkdf2_sha256_ident : str := py "$pbkdf2-sha256$".

Definition has_prefix (p s : str) : bool :=
  match starts_with p s with
  | Some _ => true
  | None => false
  end.

(** pbkdf2_sha256 (a GenericHandler) over a digest and a hash format that
    are left abstract: [checksum] is the digest of a secret under a salt;
    [to_string] writes salt and digest after the scheme's prefix;
    [from_string] reads them back from a string that carries the prefix,
    and is absent where the handler raises ValueError (a malformed hash).
    verify validates the secret, parses the hash, and compares digests. *)
Definition pbkdf2_sha256
    (checksum : str -> str -> str)
    (to_string : str -> str -> str)
    (from_string : str -> option (str * str)) : handler :=
  {| identify := has_prefix pbkdf2_sha256_ident;
     genhash := fun secret salt =>
       _ <- validate_secret secret ;;
       _ <- encode_secret secret ;;
       Return (pbkdf2_sha256_ident ++ to_string salt (checksum secret salt));
     hverify := fun secret hash =>
       _ <- validate_secret secret ;;
       match from_string hash with
       | None => Raise ValueError
       | Some (salt, chk) =>
           _ <- encode_secret secret ;;
           Return (str_eqb (checksum secret salt) chk)
       end |}.

(** [CryptContext(schemes=["pbkdf2_sha256"], deprecated="auto")], the
    context crud.py builds. *)
Definition pbkdf2_context
    (checksum : str -> str -> str)
    (to_string : str -> str -> str)
    (from_string : str -> option (str * str)) : CryptContext :=
  [pbkdf2_sha256 checksum to_string from_string].

End passlib.

(* ===================================================================== *)
(** ** jose.jwt *)
(* ===================================================================== *)

(** [datetime] values are microseconds since the epoch, [timedelta] values
    microseconds. *)
Definition datetime := Z.
Definition timedelta := Z.

(** [calendar.timegm(d.utctimetuple())]: whole seconds, the microsecond
    field dropped. *)
Definition timegm (d : datetime) : Z := (d / 1000000)%Z.

Definition minutes (n : Z) : timedelta := (n * 60 * 1000000)%Z.

Module jose.
Local Open Scope Z_scope.

(** The claims the code puts in a token: the dict {sub, exp}. *)
Record claims := { sub : option str; exp : option Z }.

(** A compact JWS in parsed form: its payload and its signature.  A string
    that does not split and decode into these is [Malformed]. *)
Inductive token :=
| JWS (payload : claims) (signature : str)
| Malformed (raw : str).

Section HS256.
(** HMAC-SHA256 of the signing input under a key. *)
Variable sign : str -> claims -> str.

(** [jwt.encode(to_encode, key, algorithm)]; [expire], a datetime, is
    stored as integer seconds. *)
Definition encode (subject : option str) (expire : datetime) (key : str) : token :=
  let payload := {| sub := subject; exp := Some (timegm expire) |} in
  JWS payload (sign key payload).

(** [_validate_exp(claims, leeway=0)] at time [utcnow]: the token is
    rejected when [exp < now], both in whole seconds; [exp = now] passes. *)
Definition validate_exp (c : claims) (utcnow : datetime) : result unit :=
  match exp c with
  | None => Return tt
  | Some e =>
      if e <? timegm utcnow then Raise (JWTError ExpiredSignatureError)
      else Return tt
  end.

(** [jwt.decode(token, key, algorithms)] at time [utcnow]: the signature
    first, then the claims. *)
Definition decode (t : token) (key : str) (utcnow : datetime) : result claims :=
  match t with
  | Malformed _ => Raise (JWTError InvalidSignature)
  | JWS payload signature =>
      if str_eqb signature (sign key payload) then
        _ <- validate_exp payload utcnow ;;
        Return payload
      else Raise (JWTError InvalidSignature)
  end.
End HS256.

End jose.

(* ===================================================================== *)
(** ** models.py: the rows and the session *)
(* ===================================================================== *)

Module models.

Module User.
Record t := mk {
  id : Z;
  uuid : str;
  username : str;
  hashed_password : str;
  nickname : option str;
  is_active : bool;
  is_admin : bool;
  created_at : datetime
}.

Definition set_is_active (u : t) (active : bool) : t :=
  mk (id u) (uuid u) (username u) (hashed_password u) (nickname u)
     active (is_admin u) (created_at u).
End User.

(** Columns the code always writes (source_type, is_bookmarked, the two
    timestamps) are not optional here. *)
Module Problem.
Record t := mk {
  id : Z;
  owner_id : option Z;
  source_type : str;
  raw : option str;
  file_content : option str;
  parsed : option str;
  subject : option str;
  course : option str;
  problem_type : option str;
  knowledge_tags : option str;
  difficulty : option Z;
  is_bookmarked : bool;
  tags : option str;
  notes : option str;
  created_at : datetime;
  updated_at : datetime
}.

Definition set_updated_at (p : t) (now : datetime) : t :=
  mk (id p) (owner_id p) (source_type p) (raw p) (file_content p) (parsed p)
     (subject p) (course p) (problem_type p) (knowledge_tags p) (difficulty p)
     (is_bookmarked p) (tags p) (notes p) (created_at p) now.
End Problem.

(** The database as a session sees it: the two tables the code touches,
    rows in insertion order. *)
Record Session := {
  users : list User.t;
  problems : list Problem.t
}.

(** The id an INTEGER PRIMARY KEY column gives a new row: one more than
    the largest id in the table, 1 in an empty table. *)
Definition next_id (ids : list Z) : Z := (1 + fold_right Z.max 0 ids)%Z.

Definition opt_eqb {A} (eqb : A -> A -> bool) (a b : option A) : bool :=
  match a, b with
  | Some x, Some y => eqb x y
  | None, None => true
  | _, _ => false
  end.

(** Whether two Problem rows hold the same values (no net change to
    flush). *)
Definition Problem_eqb (p q : Problem.t) : bool :=
  Z.eqb (Problem.id p) (Problem.id q)
  && opt_eqb Z.eqb (Problem.owner_id p) (Problem.owner_id q)
  && str_eqb (Problem.source_type p) (Problem.source_type q)
  && opt_eqb str_eqb (Problem.raw p) (Problem.raw q)
  && opt_eqb str_eqb (Problem.file_content p) (Problem.file_content q)
  && opt_eqb str_eqb (Problem.parsed p) (Problem.parsed q)
  && opt_eqb str_eqb (Problem.subject p) (Problem.subject q)
  && opt_eqb str_eqb (Problem.course p) (Problem.course q)
  && opt_eqb str_eqb (Problem.problem_type p) (Problem.problem_type q)
  && opt_eqb str_eqb (Problem.knowledge_tags p) (Problem.knowledge_tags q)
  && opt_eqb Z.eqb (Problem.difficulty p) (Problem.difficulty q)
  && Bool.eqb (Problem.is_bookmarked p) (Problem.is_bookmarked q)
  && opt_eqb str_eqb (Problem.tags p) (Problem.tags q)
  && opt_eqb str_eqb (Problem.notes p) (Problem.notes q)
  && Z.eqb (Problem.created_at p) (Problem.created_at q)
  && Z.eqb (Problem.updated_at p) (Problem.updated_at q).

(** A row of topic_mastery.  The score is a float the code only copies;
    its type is left open. *)
Module TopicMastery.
Record t (score : Type) := mk {
  id : Z;
  user_id : option Z;
  topic : option str;
  mastery : score
}.
End TopicMastery.

End models.

(* ===================================================================== *)
(** ** schemas.py: request and response models *)
(* ===================================================================== *)

Module schemas.
Import json.

(** Validation of a value against [Optional[List[str]]]: None, or a list
    all of whose items are strings. *)
Fixpoint all_str (items : list pyobj) : option (list str) :=
  match items with
  | [] => Some []
  | PyStr s :: rest =>
      match all_str rest with
      | Some l => Some (s :: l)
      | None => None
      end
  | _ :: _ => None
  end.

Definition validate_optional_list_str (v : pyobj) : result (option (list str)) :=
  match v with
  | PyNone => Return None
  | PyList items =>
      match all_str items with
      | Some l => Return (Some l)
      | None => Raise ValidationError
      end
  | _ => Raise ValidationError
  end.

Module UserCreate.
Record t := mk {
  username : str;
  password : str;
  nickname : option str
}.
End UserCreate.

Module ProblemCreate.
Record t := mk {
  source_type : str;
  raw : str;
  file_content : option str;
  subject : option str;
  course : option str;
  problem_type : option str;
  knowledge_tags : option (list str);
  difficulty : option Z;
  tags : option (list str);
  notes : option str
}.

(** [ProblemCreate(source_type=..., ..., knowledge_tags=v1, ..., tags=v2,
    ...)] as main.py calls it: the two tag arguments are whatever
    [json.loads] returned and are validated here; [raw] is a required
    string. *)
Definition init (source_type : str) (raw : option str)
    (file_content subject course problem_type : option str)
    (knowledge_tags : pyobj) (difficulty : option Z) (tags : pyobj) (notes : option str)
    : result t :=
  match raw with
  | None => Raise ValidationError
  | Some raw_text =>
      kt <- validate_optional_list_str knowledge_tags ;;
      tg <- validate_optional_list_str tags ;;
      Return (mk source_type raw_text file_content subject course problem_type
                 kt difficulty tg notes)
  end.
End ProblemCreate.

Module ProblemUpdate.
Record t := mk {
  subject : option str;
  course : option str;
  problem_type : option str;
  knowledge_tags : option (list str);
  difficulty : option Z;
  is_bookmarked : option bool;
  tags : option (list str);
  notes : option str
}.
End ProblemUpdate.

Module ProblemOut.
Record t := mk {
  id : Z;
  owner_id : option Z;
  source_type : str;
  file_content : option str;
  subject : option str;
  course : option str;
  problem_type : option str;
  knowledge_tags : option (list str);
  difficulty : option Z;
  is_bookmarked : bool;
  tags : option (list str);
  notes : option str;
  created_at : datetime;
  updated_at : datetime
}.

(** The [pre=True] validator: a stored string is decoded with
    [json.loads], a decoding error gives None; anything else passes
    through. *)
Definition parse_knowledge_tags (v : option str) : result pyobj :=
  match v with
  | Some s =>
      match loads s with
      | Return x => Return x
      | Raise JSONDecodeError => Return PyNone
      | Raise e => Raise e
      end
  | None => Return PyNone
  end.

Definition parse_tags (v : option str) : result pyobj :=
  match v with
  | Some s =>
      match loads s with
      | Return x => Return x
      | Raise JSONDecodeError => Return PyNone
      | Raise e => Raise e
      end
  | None => Return PyNone
  end.

(** [ProblemOut.from_orm(p)]: each field read from the row's attribute;
    the two tag fields go through their validator and then through the
    validation of their declared type. *)
Definition from_orm (p : models.Problem.t) : result t :=
  v1 <- parse_knowledge_tags (models.Problem.knowledge_tags p) ;;
  kt <- validate_optional_list_str v1 ;;
  v2 <- parse_tags (models.Problem.tags p) ;;
  tg <- validate_optional_list_str v2 ;;
  Return (mk (models.Problem.id p) (models.Problem.owner_id p)
             (models.Problem.source_type p) (models.Problem.file_content p)
             (models.Problem.subject p) (models.Problem.course p)
             (models.Problem.problem_type p) kt (models.Problem.difficulty p)
             (models.Problem.is_bookmarked p) tg (models.Problem.notes p)
             (models.Problem.created_at p) (models.Problem.updated_at p)).
End ProblemOut.

End schemas.

(* ===================================================================== *)
(** ** crud.py

    What each query finds and each commit writes, on parameters the
    database driver binds.  The driver's refusals (an integer outside 64
    bits, text with a surrogate) are not here: they are added in
    [crud_db], further down, which runs these functions behind the
    driver's checks. *)
(* ===================================================================== *)

Module crud.
Import models schemas.
Local Open Scope Z_scope.

(** Truth value of an [Optional[List[str]]]: None and [[]] are falsy. *)
Definition truthy_list (v : option (list str)) : bool :=
  match v with
  | Some (_ :: _) => true
  | _ => false
  end.

Section WithContext.
(** [pwd_context = CryptContext(schemes=["pbkdf2_sha256"], ...)] *)
Variable pwd_context : passlib.CryptContext.

Definition get_password_hash (password salt : str) : result str :=
  passlib.hash pwd_context password salt.

Definition verify_password (plain hashed : str) : result bool :=
  passlib.verify pwd_context plain hashed.

Definition get_user_by_username (db : Session) (username : str) : option User.t :=
  find (fun u => str_eqb (User.username u) username) (users db).

(** [uuid] is the value [uuid4()] draws, [salt] the salt the hash draws,
    [now] the clock at insertion.  The commit raises IntegrityError when
    a unique column (username, uuid) would repeat. *)
Definition create_user (db : Session) (user_in : UserCreate.t)
    (uuid salt : str) (now : datetime) : Session * result User.t :=
  match get_password_hash (UserCreate.password user_in) salt with
  | Raise e => (db, Raise e)
  | Return hashed =>
      let user := User.mk (next_id (map User.id (users db))) uuid
                    (UserCreate.username user_in) hashed
                    (UserCreate.nickname user_in) true false now in
      if existsb (fun u => str_eqb (User.username u) (User.username user)
                           || str_eqb (User.uuid u) uuid) (users db)
      then (db, Raise IntegrityError)
      else ({| users := users db ++ [user]; problems := problems db |}, Return user)
  end.

Definition authenticate_user (db : Session) (username password : str)
    : result (option User.t) :=
  match get_user_by_username db username with
  | None => Return None
  | Some user =>
      ok <- verify_password password (User.hashed_password user) ;;
      if negb ok then Return None else Return (Some user)
  end.
End WithContext.

Definition set_user_active (db : Session) (user_id : Z) (active : bool)
    : Session * option User.t :=
  match find (fun u => User.id u =? user_id) (users db) with
  | None => (db, None)
  | Some user =>
      ({| users := map (fun u => if User.id u =? user_id
                                 then User.set_is_active u active else u) (users db);
          problems := problems db |},
       Some (User.set_is_active user active))
  end.

Definition create_problem (db : Session) (owner_id : Z) (problem_in : ProblemCreate.t)
    (now : datetime) : Session * Problem.t :=
  let knowledge_tags_json :=
    if truthy_list (ProblemCreate.knowledge_tags problem_in)
    then option_map json.dumps (ProblemCreate.knowledge_tags problem_in) else None in
  let tags_json :=
    if truthy_list (ProblemCreate.tags problem_in)
    then option_map json.dumps (ProblemCreate.tags problem_in) else None in
  let p := Problem.mk (next_id (map Problem.id (problems db)))
             (Some owner_id)
             (ProblemCreate.source_type problem_in)
             (Some (ProblemCreate.raw problem_in))
             (ProblemCreate.file_content problem_in)
             None
             (ProblemCreate.subject problem_in)
             (ProblemCreate.course problem_in)
             (ProblemCreate.problem_type problem_in)
             knowledge_tags_json
             (ProblemCreate.difficulty problem_in)
             false
             tags_json
             (ProblemCreate.notes problem_in)
             now now in
  ({| users := users db; problems := problems db ++ [p] |}, p).

Definition get_problem (db : Session) (problem_id : Z) : option Problem.t :=
  find (fun p => Problem.id p =? problem_id) (problems db).

(** [x if x is not None else old] *)
Definition or_keep {A} (new : option A) (old : A) : A :=
  match new with
  | Some x => x
  | None => old
  end.

Definition or_keep_opt {A} (new : option A) (old : option A) : option A :=
  match new with
  | Some x => Some x
  | None => old
  end.

(** The assignments of update_problem, one per field that is provided. *)
Definition assign (p : Problem.t) (problem_in : ProblemUpdate.t) : Problem.t :=
  Problem.mk (Problem.id p) (Problem.owner_id p) (Problem.source_type p)
    (Problem.raw p) (Problem.file_content p) (Problem.parsed p)
    (or_keep_opt (ProblemUpdate.subject problem_in) (Problem.subject p))
    (or_keep_opt (ProblemUpdate.course problem_in) (Problem.course p))
    (or_keep_opt (ProblemUpdate.problem_type problem_in) (Problem.problem_type p))
    (or_keep_opt (option_map json.dumps (ProblemUpdate.knowledge_tags problem_in))
                 (Problem.knowledge_tags p))
    (or_keep_opt (ProblemUpdate.difficulty problem_in) (Problem.difficulty p))
    (or_keep (ProblemUpdate.is_bookmarked problem_in) (Problem.is_bookmarked p))
    (or_keep_opt (option_map json.dumps (ProblemUpdate.tags problem_in)) (Problem.tags p))
    (or_keep_opt (ProblemUpdate.notes problem_in) (Problem.notes p))
    (Problem.created_at p) (Problem.updated_at p).

(** What the commit writes for a row: nothing when no column changed;
    otherwise the changed columns and, through [onupdate], updated_at. *)
Definition flush (p : Problem.t) (problem_in : ProblemUpdate.t) (now : datetime)
    : Problem.t :=
  let p' := assign p problem_in in
  if Problem_eqb p p' then p else Problem.set_updated_at p' now.

Definition update_problem (db : Session) (problem_id : Z) (problem_in : ProblemUpdate.t)
    (now : datetime) : Session * option Problem.t :=
  match find (fun p => Problem.id p =? problem_id) (problems db) with
  | None => (db, None)
  | Some p =>
      ({| users := users db;
          problems := map (fun q => if Problem.id q =? problem_id
                                    then flush q problem_in now else q) (problems db) |},
       Some (flush p problem_in now))
  end.

(** [query.offset(n)]: a negative offset counts as none. *)
Definition offset_rows {A} (n : Z) (rows : list A) : list A :=
  skipn (Z.to_nat n) rows.

(** [query.limit(n)]: a negative limit is no limit. *)
Definition limit_rows {A} (n : Z) (rows : list A) : list A :=
  if n <? 0 then rows else firstn (Z.to_nat n) rows.

Definition list_users (db : Session) (skip limit : Z) : list User.t :=
  limit_rows limit (offset_rows skip (users db)).

(** The dict get_learning_profile returns. *)
Module Profile.
Record t (score : Type) := mk {
  user_id : Z;
  mastery : list (option str * score);
  trend : list (list (str * score))
}.
End Profile.

(** [d[k] = v] on a dict kept as its items in insertion order: an
    existing key keeps its place and takes the new value. *)
Fixpoint dict_set {V} (k : option str) (v : V) (d : list (option str * V))
    : list (option str * V) :=
  match d with
  | [] => [(k, v)]
  | (k', v') :: rest =>
      if opt_eqb str_eqb k' k then (k', v) :: rest else (k', v') :: dict_set k v rest
  end.

(** [d.get(k)] *)
Definition dict_get {V} (k : option str) (d : list (option str * V)) : option V :=
  option_map snd (find (fun kv => opt_eqb str_eqb (fst kv) k) d).

(** [topic_mastery] is the table of the session the query reads. *)
Definition get_learning_profile {score} (topic_mastery : list (TopicMastery.t score))
    (user_id : Z) : Profile.t score :=
  let rows :=
    filter (fun r => opt_eqb Z.eqb (TopicMastery.user_id r) (Some user_id))
           topic_mastery in
  let mastery :=
    fold_left (fun d r => dict_set (TopicMastery.topic r) (TopicMastery.mastery r) d)
              rows [] in
  Profile.mk user_id mastery [].

End crud.

(* ===================================================================== *)
(** ** main.py: token helpers and route handlers

    The handlers over [crud]; [main_db], further down, has the handlers
    that write or authenticate over [crud_db]. *)
(* ===================================================================== *)

Module main.
Import models schemas.
Local Open Scope Z_scope.

Definition ACCESS_TOKEN_EXPIRE_MINUTES : Z := 60 * 24 * 7.

(** An uploaded file: its name and what [file.file.read()] gives. *)
Record UploadFile := {
  filename : option str;
  read : result (list byte)
}.

(** Truth value of an [Optional[int]] / a timedelta: None and 0 are falsy. *)
Definition truthy_int (v : option Z) : bool :=
  match v with
  | Some n => negb (n =? 0)
  | None => false
  end.

(** Truth value of an optional upload: an UploadFile object is truthy. *)
Definition truthy_file (f : option UploadFile) : bool :=
  match f with
  | Some _ => true
  | None => false
  end.

(** [a != b] for an [Optional[int]] and an int. *)
Definition ne_int (a : option Z) (b : Z) : bool :=
  match a with
  | Some n => negb (n =? b)
  | None => true
  end.

(** The text [f"{x}"] puts for an optional string. *)
Definition format_opt (x : option str) : str :=
  match x with
  | Some s => s
  | None => py "None"
  end.

Definition credentials_exception : exn := HTTPException 401 CouldNotValidateCredentials.

Section App.
(** Process-wide configuration: the signing key, the HS256 primitive of
    jose, and the password context of crud.py. *)
Variable SECRET_KEY : str.
Variable sign : str -> jose.claims -> str.
Variable pwd_context : passlib.CryptContext.

Definition create_access_token (data : jose.claims) (expires_delta : option timedelta)
    (utcnow : datetime) : jose.token :=
  let expire :=
    if truthy_int expires_delta
    then utcnow + match expires_delta with Some d => d | None => 0 end
    else utcnow + minutes ACCESS_TOKEN_EXPIRE_MINUTES in
  jose.encode sign (jose.sub data) expire SECRET_KEY.

Definition get_current_user (token : jose.token) (db : Session) (utcnow : datetime)
    : result User.t :=
  match jose.decode sign token SECRET_KEY utcnow with
  | Raise (JWTError _) => Raise credentials_exception
  | Raise e => Raise e
  | Return payload =>
      match jose.sub payload with
      | None => Raise credentials_exception
      | Some username =>
          match crud.get_user_by_username db username with
          | None => Raise credentials_exception
          | Some user => Return user
          end
      end
  end.

Definition register (user_in : UserCreate.t) (db : Session)
    (uuid salt : str) (now : datetime) : Session * result User.t :=
  match crud.get_user_by_username db (UserCreate.username user_in) with
  | Some existing => (db, Raise (HTTPException 400 UsernameAlreadyRegistered))
  | None => crud.create_user pwd_context db user_in uuid salt now
  end.

Definition login (form_username form_password : str) (db : Session) (utcnow : datetime)
    : result jose.token :=
  user <- crud.authenticate_user pwd_context db form_username form_password ;;
  match user with
  | None => Raise (HTTPException 400 IncorrectUsernameOrPassword)
  | Some u =>
      Return (create_access_token
                {| jose.sub := Some (User.username u); jose.exp := None |} None utcnow)
  end.
End App.

(** The tag field of the upload form: absent or empty gives None, anything
    else is decoded, a JSONDecodeError becoming a 400 with detail [d]. *)
Definition parse_tag_field (field : option str) (d : detail) : result json.pyobj :=
  match field with
  | Some s =>
      if truthy_str field then
        match json.loads s with
        | Return v => Return v
        | Raise JSONDecodeError => Raise (HTTPException 400 d)
        | Raise e => Raise e
        end
      else Return json.PyNone
  | None => Return json.PyNone
  end.

(** The stored content and the encoded file of an upload. *)
Definition stored_content (raw : option str) (file : option UploadFile)
    : result (option str * option str) :=
  match file with
  | Some f =>
      match read f with
      | Return file_bytes =>
          Return (Some (py "FILE:" ++ format_opt (filename f)),
                  Some (base64.b64encode file_bytes))
      | Raise _ => Raise (HTTPException 400 CannotReadFile)
      end
  | None => Return (raw, None)
  end.

Definition upload_problem
    (raw : option str) (file : option UploadFile) (source_type : str)
    (subject course problem_type knowledge_tags : option str)
    (difficulty : option Z) (tags notes : option str)
    (db : Session) (current_user : User.t) (now : datetime)
    : Session * result ProblemOut.t :=
  if negb (truthy_str raw) && negb (truthy_file file) then
    (db, Raise (HTTPException 400 MissingContent))
  else
    let prepared :=
      '(raw_store, file_content_base64) <- stored_content raw file ;;
      knowledge_tags_list <- parse_tag_field knowledge_tags KnowledgeTagsNotJSON ;;
      tags_list <- parse_tag_field tags TagsNotJSON ;;
      ProblemCreate.init source_type raw_store file_content_base64 subject course
        problem_type knowledge_tags_list difficulty tags_list notes in
    match prepared with
    | Raise e => (db, Raise e)
    | Return problem_in =>
        let (db', p) := crud.create_problem db (User.id current_user) problem_in now in
        (db', ProblemOut.from_orm p)
    end.

Definition get_problem (problem_id : Z) (db : Session) (current_user : User.t)
    : result ProblemOut.t :=
  match crud.get_problem db problem_id with
  | None => Raise (HTTPException 404 ProblemNotFound)
  | Some p =>
      if truthy_int (Problem.owner_id p)
         && ne_int (Problem.owner_id p) (User.id current_user)
      then Raise (HTTPException 403 NoReadAccess)
      else ProblemOut.from_orm p
  end.

Definition update_problem (problem_id : Z) (problem_in : ProblemUpdate.t)
    (db : Session) (current_user : User.t) (now : datetime)
    : Session * result ProblemOut.t :=
  match crud.get_problem db problem_id with
  | None => (db, Raise (HTTPException 404 ProblemNotFound))
  | Some p =>
      if ne_int (Problem.owner_id p) (User.id current_user)
      then (db, Raise (HTTPException 403 NoWriteAccess))
      else
        match crud.update_problem db problem_id problem_in now with
        | (db', Some p') => (db', ProblemOut.from_orm p')
        | (db', None) => (db', Raise ValidationError)
        end
  end.

(** [[schemas.ProblemOut.from_orm(p) for p in problems]] *)
Fixpoint from_orm_all (ps : list Problem.t) : result (list ProblemOut.t) :=
  match ps with
  | [] => Return []
  | p :: rest =>
      out <- ProblemOut.from_orm p ;;
      outs <- from_orm_all rest ;;
      Return (out :: outs)
  end.

Definition list_problems (subject course : option str) (bookmarked_only : bool)
    (db : Session) (current_user : User.t) : result (list ProblemOut.t) :=
  let query :=
    filter (fun p => opt_eqb Z.eqb (Problem.owner_id p) (Some (User.id current_user)))
           (problems db) in
  let query :=
    if truthy_str subject
    then filter (fun p => opt_eqb str_eqb (Problem.subject p) subject) query
    else query in
  let query :=
    if truthy_str course
    then filter (fun p => opt_eqb str_eqb (Problem.course p) course) query
    else query in
  let query :=
    if bookmarked_only then filter (fun p => Problem.is_bookmarked p) query else query in
  from_orm_all query.

Definition admin_list_users (db : Session) (current_user : User.t)
    : result (list User.t) :=
  if negb (User.is_admin current_user) then Raise (HTTPException 403 RequiresAdmin)
  else Return (crud.list_users db 0 100).

Definition admin_ban_user (user_id : Z) (db : Session) (current_user : User.t)
    : Session * result User.t :=
  if negb (User.is_admin current_user) then
    (db, Raise (HTTPException 403 RequiresAdmin))
  else
    match crud.set_user_active db user_id false with
    | (db', Some user) => (db', Return user)
    | (db', None) => (db', Raise (HTTPException 404 UserNotFound))
    end.

End main.

(* ===================================================================== *)
(** ** sqlite3: what the driver refuses to bind *)
(* ===================================================================== *)

(** Every value a query carries is bound by the driver before the
    statement runs.  An integer must fit a signed 64-bit integer
    (OverflowError otherwise) and text must have a UTF-8 encoding, which
    text with a surrogate code point has not (UnicodeEncodeError).  A
    statement whose binding fails is not run. *)
Module sqlite3.
Local Open Scope Z_scope.

Definition in_int64 (n : Z) : bool := (- 2 ^ 63 <=? n) && (n <? 2 ^ 63).

Definition encodable (s : str) : bool := forallb is_scalar s.

Definition bind_int (n : Z) : result unit :=
  if in_int64 n then Return tt else Raise OverflowError.

Definition bind_text (s : str) : result unit :=
  if encodable s then Return tt else Raise UnicodeEncodeError.

(** None binds as NULL. *)
Definition bind_opt {A} (bind : A -> result unit) (v : option A) : result unit :=
  match v with
  | Some x => bind x
  | None => Return tt
  end.

(** A column of an UPDATE: bound only when its value has changed. *)
Definition bind_changed {A} (eqb : A -> A -> bool) (bind : A -> result unit)
    (old new : A) : result unit :=
  if eqb old new then Return tt else bind new.

End sqlite3.

(* ===================================================================== *)
(** ** crud.py and main.py with the driver in the loop *)
(* ===================================================================== *)

(** The functions of [crud] above say what a query finds and what a
    commit writes once every parameter is bound.  Here are the same
    functions as they run: each query binds its parameters first, each
    commit binds the values it writes, and a refusal of the driver leaves
    the function by an exception with nothing written.  Where the driver
    binds everything the two agree. *)
Module crud_db.
Import models schemas sqlite3.
Local Open Scope Z_scope.

Section WithContext.
Variable pwd_context : passlib.CryptContext.

Definition get_user_by_username (db : Session) (username : str)
    : result (option User.t) :=
  _ <- bind_text username ;;
  Return (crud.get_user_by_username db username).

(** The INSERT binds uuid, username, hashed_password and nickname. *)
Definition create_user (db : Session) (user_in : UserCreate.t)
    (uuid salt : str) (now : datetime) : Session * result User.t :=
  match crud.get_password_hash pwd_context (UserCreate.password user_in) salt with
  | Raise e => (db, Raise e)
  | Return hashed =>
      match (_ <- bind_text uuid ;;
             _ <- bind_text (UserCreate.username user_in) ;;
             _ <- bind_text hashed ;;
             bind_opt bind_text (UserCreate.nickname user_in)) with
      | Raise e => (db, Raise e)
      | Return _ => crud.create_user pwd_context db user_in uuid salt now
      end
  end.

Definition authenticate_user (db : Session) (username password : str)
    : result (option User.t) :=
  user <- get_user_by_username db username ;;
  match user with
  | None => Return None
  | Some u =>
      ok <- crud.verify_password pwd_context password (User.hashed_password u) ;;
      if negb ok then Return None else Return (Some u)
  end.
End WithContext.

(** The INSERT binds the columns of the new row, in table order (the id
    is the database's to give). *)
Definition bind_insert (p : Problem.t) : result unit :=
  _ <- bind_opt bind_int (Problem.owner_id p) ;;
  _ <- bind_text (Problem.source_type p) ;;
  _ <- bind_opt bind_text (Problem.raw p) ;;
  _ <- bind_opt bind_text (Problem.file_content p) ;;
  _ <- bind_opt bind_text (Problem.subject p) ;;
  _ <- bind_opt bind_text (Problem.course p) ;;
  _ <- bind_opt bind_text (Problem.problem_type p) ;;
  _ <- bind_opt bind_text (Problem.knowledge_tags p) ;;
  _ <- bind_opt bind_int (Problem.difficulty p) ;;
  _ <- bind_opt bind_text (Problem.tags p) ;;
  bind_opt bind_text (Problem.notes p).

Definition create_problem (db : Session) (owner_id : Z) (problem_in : ProblemCreate.t)
    (now : datetime) : Session * result Problem.t :=
  let (db', p) := crud.create_problem db owner_id problem_in now in
  match bind_insert p with
  | Raise e => (db, Raise e)
  | Return _ => (db', Return p)
  end.

Definition get_problem (db : Session) (problem_id : Z) : result (option Problem.t) :=
  _ <- bind_int problem_id ;;
  Return (crud.get_problem db problem_id).

(** The UPDATE binds the columns whose value the assignments changed. *)
Definition bind_update (p p' : Problem.t) : result unit :=
  _ <- bind_changed (opt_eqb str_eqb) (bind_opt bind_text)
         (Problem.subject p) (Problem.subject p') ;;
  _ <- bind_changed (opt_eqb str_eqb) (bind_opt bind_text)
         (Problem.course p) (Problem.course p') ;;
  _ <- bind_changed (opt_eqb str_eqb) (bind_opt bind_text)
         (Problem.problem_type p) (Problem.problem_type p') ;;
  _ <- bind_changed (opt_eqb str_eqb) (bind_opt bind_text)
         (Problem.knowledge_tags p) (Problem.knowledge_tags p') ;;
  _ <- bind_changed (opt_eqb Z.eqb) (bind_opt bind_int)
         (Problem.difficulty p) (Problem.difficulty p') ;;
  _ <- bind_changed (opt_eqb str_eqb) (bind_opt bind_text)
         (Problem.tags p) (Problem.tags p') ;;
  bind_changed (opt_eqb str_eqb) (bind_opt bind_text)
    (Problem.notes p) (Problem.notes p').

Definition update_problem (db : Session) (problem_id : Z) (problem_in : ProblemUpdate.t)
    (now : datetime) : Session * result (option Problem.t) :=
  match bind_int problem_id with
  | Raise e => (db, Raise e)
  | Return _ =>
      match crud.get_problem db problem_id with
      | None => (db, Return None)
      | Some p =>
          match bind_update p (crud.assign p problem_in) with
          | Raise e => (db, Raise e)
          | Return _ =>
              let (db', p') := crud.update_problem db problem_id problem_in now in
              (db', Return p')
          end
      end
  end.

End crud_db.

Module main_db.
Import models schemas.
Local Open Scope Z_scope.

Section App.
Variable SECRET_KEY : str.
Variable sign : str -> jose.claims -> str.
Variable pwd_context : passlib.CryptContext.

Definition get_current_user (token : jose.token) (db : Session) (utcnow : datetime)
    : result User.t :=
  match jose.decode sign token SECRET_KEY utcnow with
  | Raise (JWTError _) => Raise main.credentials_exception
  | Raise e => Raise e
  | Return payload =>
      match jose.sub payload with
      | None => Raise main.credentials_exception
      | Some username =>
          user <- crud_db.get_user_by_username db username ;;
          match user with
          | None => Raise main.credentials_exception
          | Some u => Return u
          end
      end
  end.

Definition register (user_in : UserCreate.t) (db : Session)
    (uuid salt : str) (now : datetime) : Session * result User.t :=
  match crud_db.get_user_by_username db (UserCreate.username user_in) with
  | Raise e => (db, Raise e)
  | Return (Some existing) => (db, Raise (HTTPException 400 UsernameAlreadyRegistered))
  | Return None => crud_db.create_user pwd_context db user_in uuid salt now
  end.

Definition login (form_username form_password : str) (db : Session) (utcnow : datetime)
    : result jose.token :=
  user <- crud_db.authenticate_user pwd_context db form_username form_password ;;
  match user with
  | None => Raise (HTTPException 400 IncorrectUsernameOrPassword)
  | Some u =>
      Return (main.create_access_token SECRET_KEY sign
                {| jose.sub := Some (User.username u); jose.exp := None |} None utcnow)
  end.
End App.

Definition upload_problem
    (raw : option str) (file : option main.UploadFile) (source_type : str)
    (subject course problem_type knowledge_tags : option str)
    (difficulty : option Z) (tags notes : option str)
    (db : Session) (current_user : User.t) (now : datetime)
    : Session * result ProblemOut.t :=
  if negb (truthy_str raw) && negb (main.truthy_file file) then
    (db, Raise (HTTPException 400 MissingContent))
  else
    let prepared :=
      '(raw_store, file_content_base64) <- main.stored_content raw file ;;
      knowledge_tags_list <- main.parse_tag_field knowledge_tags KnowledgeTagsNotJSON ;;
      tags_list <- main.parse_tag_field tags TagsNotJSON ;;
      ProblemCreate.init source_type raw_store file_content_base64 subject course
        problem_type knowledge_tags_list difficulty tags_list notes in
    match prepared with
    | Raise e => (db, Raise e)
    | Return problem_in =>
        match crud_db.create_problem db (User.id current_user) problem_in now with
        | (db', Raise e) => (db', Raise e)
        | (db', Return p) => (db', ProblemOut.from_orm p)
        end
    end.

Definition update_problem (problem_id : Z) (problem_in : ProblemUpdate.t)
    (db : Session) (current_user : User.t) (now : datetime)
    : Session * result ProblemOut.t :=
  match crud_db.get_problem db problem_id with
  | Raise e => (db, Raise e)
  | Return None => (db, Raise (HTTPException 404 ProblemNotFound))
  | Return (Some p) =>
      if main.ne_int (Problem.owner_id p) (User.id current_user)
      then (db, Raise (HTTPException 403 NoWriteAccess))
      else
        match crud_db.update_problem db problem_id problem_in now with
        | (db', Raise e) => (db', Raise e)
        | (db', Return (Some p')) => (db', ProblemOut.from_orm p')
        | (db', Return None) => (db', Raise ValidationError)
        end
  end.

End main_db.

(* ===================================================================== *)
(** ** conftest.py: the test doubles for the password functions *)
(* ===================================================================== *)

Module conftest.

Definition mock_password_hash (password : str) : str :=
  py "hashed_" ++ password ++ py "_hashed".

Definition mock_verify_password (plain hashed : str) : bool :=
  str_eqb (mock_password_hash plain) hashed.

(** The fixtures patch crud.get_password_hash and crud.verify_password
    with the two mocks; as a context, that is a single scheme that accepts
    every hash and never raises. *)
Definition mock_handler : passlib.handler :=
  {| passlib.identify := fun _ => true;
     passlib.genhash := fun password _ => Return (mock_password_hash password);
     passlib.hverify := fun plain hashed => Return (mock_verify_password plain hashed) |}.

Definition mock_context : passlib.CryptContext := [mock_handler].

End conftest.

(* ===================================================================== *)
(** ** Stored-data invariants and the words of the specification *)
(* ===================================================================== *)

Module invariants.
Import models schemas.
Local Open Scope Z_scope.

(** A tag list as the request models carry it: absent, or a list of
    strings of Unicode scalar values. *)
Definition wf_tag_list (l : option (list str)) : Prop :=
  match l with
  | Some L => Forall wf_str L
  | None => True
  end.

(** A tag column as the code writes it: NULL, or the JSON text of a list
    of strings. *)
Definition serialized (t : option str) : Prop :=
  t = None \/ exists L, Forall wf_str L /\ t = Some (json.dumps L).

Definition wf_problem (p : Problem.t) : Prop :=
  serialized (Problem.knowledge_tags p)
  /\ serialized (Problem.tags p)
  /\ match Problem.owner_id p with
     | Some o => 0 < o
     | None => True
     end.

(** Rows as the code creates them: ids are the positive ones the store
    assigns, owners are user ids, tag columns hold serialized lists. *)
Definition wf_db (db : Session) : Prop :=
  Forall (fun u => 0 < User.id u) (users db)
  /\ Forall wf_problem (problems db).

Definition wf_update (u : ProblemUpdate.t) : Prop :=
  wf_tag_list (ProblemUpdate.knowledge_tags u) /\ wf_tag_list (ProblemUpdate.tags u).

Definition wf_create (c : ProblemCreate.t) : Prop :=
  wf_tag_list (ProblemCreate.knowledge_tags c) /\ wf_tag_list (ProblemCreate.tags c).

(** What from_orm makes of a tag column: the validator, then the
    validation of the declared type. *)
Definition decode_column (t : option str) : result (option (list str)) :=
  v <- ProblemOut.parse_knowledge_tags t ;; validate_optional_list_str v.

(** What a created tag list reads back as: a non-empty list as itself,
    an empty or absent one as absent. *)
Definition read_back (l : option (list str)) : option (list str) :=
  match l with
  | Some (x :: rest) => Some (x :: rest)
  | _ => None
  end.

(** The update payload {subject: X}. *)
Definition subject_only (X : str) : ProblemUpdate.t :=
  ProblemUpdate.mk (Some X) None None None None None None None.

(** Two rows that agree on every column except subject and updated_at. *)
Definition same_but_subject (p q : Problem.t) : Prop :=
  Problem.id q = Problem.id p
  /\ Problem.owner_id q = Problem.owner_id p
  /\ Problem.source_type q = Problem.source_type p
  /\ Problem.raw q = Problem.raw p
  /\ Problem.file_content q = Problem.file_content p
  /\ Problem.parsed q = Problem.parsed p
  /\ Problem.course q = Problem.course p
  /\ Problem.problem_type q = Problem.problem_type p
  /\ Problem.knowledge_tags q = Problem.knowledge_tags p
  /\ Problem.difficulty q = Problem.difficulty p
  /\ Problem.is_bookmarked q = Problem.is_bookmarked p
  /\ Problem.tags q = Problem.tags p
  /\ Problem.notes q = Problem.notes p
  /\ Problem.created_at q = Problem.created_at p.

(** The frame of an update: columns no payload can name keep their value,
    and so does every column whose payload field is absent. *)
Definition untouched (u : ProblemUpdate.t) (p q : Problem.t) : Prop :=
  Problem.id q = Problem.id p
  /\ Problem.owner_id q = Problem.owner_id p
  /\ Problem.source_type q = Problem.source_type p
  /\ Problem.raw q = Problem.raw p
  /\ Problem.file_content q = Problem.file_content p
  /\ Problem.parsed q = Problem.parsed p
  /\ Problem.created_at q = Problem.created_at p
  /\ (ProblemUpdate.subject u = None -> Problem.subject q = Problem.subject p)
  /\ (ProblemUpdate.course u = None -> Problem.course q = Problem.course p)
  /\ (ProblemUpdate.problem_type u = None ->
      Problem.problem_type q = Problem.problem_type p)
  /\ (ProblemUpdate.knowledge_tags u = None ->
      Problem.knowledge_tags q = Problem.knowledge_tags p)
  /\ (ProblemUpdate.difficulty u = None -> Problem.difficulty q = Problem.difficulty p)
  /\ (ProblemUpdate.is_bookmarked u = None ->
      Problem.is_bookmarked q = Problem.is_bookmarked p)
  /\ (ProblemUpdate.tags u = None -> Problem.tags q = Problem.tags p)
  /\ (ProblemUpdate.notes u = None -> Problem.notes q = Problem.notes p).

(** The specification's authenticate, in its words: the matching user
    exactly when the username exists and the password verifies against the
    stored hash, absent otherwise. *)
Definition authenticate_spec (pwd_context : passlib.CryptContext)
    (db : Session) (username password : str) : option User.t :=
  match crud.get_user_by_username db username with
  | Some user =>
      match crud.verify_password pwd_context password (User.hashed_password user) with
      | Return true => Some user
      | _ => None
      end
  | None => None
  end.

(** A result with the active flag of the user erased. *)
Definition forget_active (r : result (option User.t)) : result (option User.t) :=
  match r with
  | Return (Some u) => Return (Some (User.set_is_active u true))
  | other => other
  end.

(** The token lifetime the code uses for an [expires_delta] argument. *)
Definition lifetime (expires_delta : option timedelta) : timedelta :=
  match expires_delta with
  | Some d => if d =? 0 then minutes main.ACCESS_TOKEN_EXPIRE_MINUTES else d
  | None => minutes main.ACCESS_TOKEN_EXPIRE_MINUTES
  end.

(** A form field holding Unicode text, or not sent. *)
Definition text_field (v : option str) : Prop :=
  match v with
  | Some s => unicode_text s
  | None => True
  end.

(** The stores the handlers build from a store [start]: registrations,
    uploads and updates by users of the store, bans. *)
Inductive reachable (start : Session) : Session -> Prop :=
| reach_start : reachable start start
| reach_register pwd_context user_in db uuid salt now :
    reachable start db ->
    reachable start (fst (main.register pwd_context user_in db uuid salt now))
| reach_upload raw file source_type subject course problem_type knowledge_tags
    difficulty tags notes db current_user now :
    reachable start db ->
    In current_user (users db) ->
    text_field knowledge_tags -> text_field tags ->
    reachable start
      (fst (main.upload_problem raw file source_type subject course problem_type
              knowledge_tags difficulty tags notes db current_user now))
| reach_update problem_id problem_in db current_user now :
    reachable start db ->
    In current_user (users db) ->
    wf_update problem_in ->
    reachable start (fst (main.update_problem problem_id problem_in db current_user now))
| reach_ban user_id db current_user :
    reachable start db ->
    reachable start (fst (main.admin_ban_user user_id db current_user)).

(** Optional values the driver binds: NULL, text without surrogates, an
    integer of 64 bits. *)
Definition binds_text (v : option str) : Prop :=
  match v with
  | Some s => sqlite3.encodable s = true
  | None => True
  end.

Definition binds_int (v : option Z) : Prop :=
  match v with
  | Some n => sqlite3.in_int64 n = true
  | None => True
  end.

(** An update payload whose provided fields the driver binds (a tag list
    is written as JSON text, which is ASCII, and always binds). *)
Definition binds_update (u : ProblemUpdate.t) : Prop :=
  binds_text (ProblemUpdate.subject u)
  /\ binds_text (ProblemUpdate.course u)
  /\ binds_text (ProblemUpdate.problem_type u)
  /\ binds_int (ProblemUpdate.difficulty u)
  /\ binds_text (ProblemUpdate.notes u).

(** An upload form whose fields the driver binds. *)
Definition binds_upload (raw : option str) (file : option main.UploadFile)
    (source_type : str) (subject course problem_type : option str)
    (difficulty : option Z) (notes : option str) : Prop :=
  binds_text raw
  /\ match file with
     | Some f => binds_text (main.filename f)
     | None => True
     end
  /\ sqlite3.encodable source_type = true
  /\ binds_text subject
  /\ binds_text course
  /\ binds_text problem_type
  /\ binds_int difficulty
  /\ binds_text notes.

(** A form field that is absent or within the limits of the decoder. *)
Definition text_limits (v : option str) : Prop :=
  match v with
  | Some s => json.within_limits s
  | None => True
  end.

(** The foreign key of problems: an owner is the id of a stored user. *)
Definition owners_exist (db : Session) : Prop :=
  forall p o, In p (problems db) -> Problem.owner_id p = Some o ->
              In o (map User.id (users db)).

(** The keys of the two tables: usernames, uuids and ids of users and ids
    of problems do not repeat. *)
Definition unique_keys (db : Session) : Prop :=
  NoDup (map User.username (users db))
  /\ NoDup (map User.uuid (users db))
  /\ NoDup (map User.id (users db))
  /\ NoDup (map Problem.id (problems db)).

End invariants.

(* ===================================================================== *)
(** ** Concrete data for running the model *)
(* ===================================================================== *)

Module examples.
Import models schemas.
Local Open Scope Z_scope.

(** A stand-in for HMAC-SHA256, only to run the model on concrete tokens. *)
Definition tag_sign (key : str) (c : jose.claims) : str :=
  key ++ main.format_opt (jose.sub c).

Definition KEY : str := py "dev-secret-change-me".

(** A pbkdf2_sha256 context to run the model on: the digest is the
    conftest mock of the secret; a hash is the prefix, the salt, a dollar
    sign and the digest, and a string that does not split so is
    malformed. *)
Definition toy_checksum (secret salt : str) : str := conftest.mock_password_hash secret.

Definition toy_to_string (salt chk : str) : str := salt ++ py "$" ++ chk.

Fixpoint split_dollar (s : str) : option (str * str) :=
  match s with
  | [] => None
  | c :: rest =>
      if N.eqb c 36 then Some ([], rest)
      else
        match split_dollar rest with
        | Some (a, b) => Some (c :: a, b)
        | None => None
        end
  end.

Definition toy_from_string (hash : str) : option (str * str) :=
  match starts_with passlib.pbkdf2_sha256_ident hash with
  | Some rest => split_dollar rest
  | None => None
  end.

Definition toy_context : passlib.CryptContext :=
  passlib.pbkdf2_context toy_checksum toy_to_string toy_from_string.

(** A user whose stored hash is one of that context, as create_user would
    have stored it, and a password one character over passlib's limit. *)
Definition dave : User.t :=
  User.mk 1 (py "uuid-dave") (py "dave")
    (passlib.pbkdf2_sha256_ident
     ++ toy_to_string (py "salt") (toy_checksum (py "opensesame") (py "salt")))
    None true false 0.

Definition db2 : Session := {| users := [dave]; problems := [] |}.

Definition long_password : str := repeat 97%N 4097.

Definition alice : User.t :=
  User.mk 1 (py "uuid-alice") (py "alice")
    (conftest.mock_password_hash (py "secret123")) None true false 0.

Definition bob : User.t :=
  User.mk 2 (py "uuid-bob") (py "bob")
    (conftest.mock_password_hash (py "hunter2")) (Some (py "Bob")) false false 0.

(** Alice's problem, tagged; a problem without owner. *)
Definition problem1 : Problem.t :=
  Problem.mk 1 (Some 1) (py "text") (Some (py "2+2=?")) None None
    (Some (py "math")) None None
    (Some (json.dumps [py "algebra"; [20989%N; 25968%N]])) (Some 2) false None None 5 5.

Definition seeded : Problem.t :=
  Problem.mk 2 None (py "text") (Some (py "seed")) None None None None None
    None None false None None 6 6.

Definition db0 : Session := {| users := [alice; bob]; problems := [problem1; seeded] |}.

Definition empty_db : Session := {| users := []; problems := [] |}.

Definition create_with (kt : option (list str)) : ProblemCreate.t :=
  ProblemCreate.mk (py "text") (py "2+2=?") None None None None kt None None None.

(** An administrator, and the store with one. *)
Definition root : User.t :=
  User.mk 3 (py "uuid-root") (py "root")
    (conftest.mock_password_hash (py "toor")) None true true 0.

Definition db1 : Session :=
  {| users := [alice; bob; root]; problems := [problem1; seeded] |}.

(** Rows of topic_mastery with scores in thousandths: two rows of user 1
    on one topic, a row of user 2. *)
Definition mastery_rows : list (TopicMastery.t Z) :=
  [TopicMastery.mk 1 (Some 1) (Some (py "algebra")) 250;
   TopicMastery.mk 2 (Some 2) (Some (py "algebra")) 900;
   TopicMastery.mk 3 (Some 1) (Some (py "algebra")) 750].

End examples.

(* ===================================================================== *)
(** * Theorems *)
(* ===================================================================== *)

Unset Implicit Arguments.

(* ===================================================================== *)
(** ** json: the decoder reads back what the encoder writes, and is total *)
(* ===================================================================== *)

Module json_facts.
Import json.
Local Open Scope N_scope.

(** *** Hex digits and surrogate arithmetic *)

Lemma hex_value_digit d : d < 16 -> hex_value (hex_digit d) = Some d.
Proof.
  intros H. unfold hex_digit, hex_value.
  destruct (d <? 10) eqn:E.
  - apply N.ltb_lt in E.
    replace ((48 <=? 48 + d) && (48 + d <=? 57)) with true.
    + f_equal. lia.
    + symmetry. apply andb_true_iff. split; apply N.leb_le; lia.
  - apply N.ltb_ge in E.
    replace ((48 <=? 87 + d) && (87 + d <=? 57)) with false.
    + replace ((97 <=? 87 + d) && (87 + d <=? 102)) with true.
      * f_equal. lia.
      * symmetry. apply andb_true_iff. split; apply N.leb_le; lia.
    + symmetry. apply andb_false_iff. right. apply N.leb_gt. lia.
Qed.

Lemma decode_u_escape n :
  n < 65536 ->
  decode_uXXXX (hex_digit (n / 4096)) (hex_digit ((n / 256) mod 16))
               (hex_digit ((n / 16) mod 16)) (hex_digit (n mod 16)) = Some n.
Proof.
  intros H. unfold decode_uXXXX.
  rewrite !hex_value_digit.
  - f_equal.
    pose proof (N.div_mod n 16 ltac:(lia)).
    pose proof (N.div_mod (n / 16) 16 ltac:(lia)).
    pose proof (N.div_mod (n / 16 / 16) 16 ltac:(lia)).
    rewrite !N.Div0.div_div in *.
    change (16 * 16) with 256 in *. change (256 * 16) with 4096 in *.
    assert (n / 4096 < 16) by (apply N.Div0.div_lt_upper_bound; lia).
    lia.
  - apply N.mod_lt; lia.
  - apply N.mod_lt; lia.
  - apply N.mod_lt; lia.
  - apply N.Div0.div_lt_upper_bound; lia.
Qed.

Lemma land_mul_pow2_small a b k : b < 2 ^ k -> N.land (a * 2 ^ k) b = 0.
Proof.
  intros Hb. apply N.bits_inj. intros i.
  rewrite N.land_spec, N.bits_0.
  destruct (N.lt_ge_cases i k) as [Hi | Hi].
  - rewrite N.mul_pow2_bits_low by assumption. reflexivity.
  - destruct (N.eq_dec b 0) as [-> | Hnz].
    + rewrite N.bits_0. apply andb_false_r.
    + rewrite (N.bits_above_log2 b i); [apply andb_false_r |].
      apply N.lt_le_trans with k; [| assumption].
      apply N.log2_lt_pow2; lia.
Qed.

Lemma lor_mul_pow2_small a b k : b < 2 ^ k -> N.lor (a * 2 ^ k) b = a * 2 ^ k + b.
Proof.
  intros Hb. pose proof (@land_mul_pow2_small a b k Hb) as H0.
  rewrite <- N.lxor_lor by assumption.
  symmetry. apply N.add_nocarry_lxor. assumption.
Qed.

Lemma land_1023 x : N.land x 1023 = x mod 1024.
Proof. change 1023 with (N.ones 10). rewrite N.land_ones. reflexivity. Qed.

Lemma shiftr_10 x : N.shiftr x 10 = x / 1024.
Proof. rewrite N.shiftr_div_pow2. reflexivity. Qed.

Lemma shiftl_10 x : N.shiftl x 10 = x * 1024.
Proof. rewrite N.shiftl_mul_pow2. reflexivity. Qed.

Lemma lor_55296 x : x < 1024 -> N.lor 55296 x = 55296 + x.
Proof.
  intros H. change 55296 with (54 * 2 ^ 10).
  apply lor_mul_pow2_small. exact H.
Qed.

Lemma lor_56320 x : x < 1024 -> N.lor 56320 x = 56320 + x.
Proof.
  intros H. change 56320 with (55 * 2 ^ 10).
  apply lor_mul_pow2_small. exact H.
Qed.

(** The surrogate pair the encoder writes for an astral code point. *)
Lemma high_surrogate_of c :
  65536 <= c -> c < 1114112 ->
  N.lor 55296 (N.land (N.shiftr (c - 65536) 10) 1023) = 55296 + (c - 65536) / 1024.
Proof.
  intros H1 H2. rewrite shiftr_10, land_1023.
  assert ((c - 65536) / 1024 < 1024) by (apply N.Div0.div_lt_upper_bound; lia).
  rewrite N.mod_small by assumption.
  apply lor_55296. assumption.
Qed.

Lemma low_surrogate_of c :
  N.lor 56320 (N.land (c - 65536) 1023) = 56320 + (c - 65536) mod 1024.
Proof.
  rewrite land_1023. apply lor_56320. apply N.mod_lt. lia.
Qed.

Lemma join_surrogates c :
  65536 <= c ->
  65536 + N.lor (N.shiftl (55296 + (c - 65536) / 1024 - 55296) 10)
                (56320 + (c - 65536) mod 1024 - 56320) = c.
Proof.
  intros H.
  rewrite (N.add_comm 55296), (N.add_comm 56320), !N.add_sub.
  rewrite shiftl_10. change 1024 with (2 ^ 10).
  rewrite lor_mul_pow2_small by (apply N.mod_lt; discriminate).
  pose proof (N.div_mod (c - 65536) (2 ^ 10) ltac:(discriminate)).
  lia.
Qed.

(** One step of the scanner on each shape of input. *)
Lemma scanstring_plain c s1 :
  (c =? 34) = false -> (c =? 92) = false -> (c <? 32) = false ->
  scanstring (c :: s1) = append_char c (scanstring s1).
Proof.
  intros H1 H2 H3. cbn [scanstring]. unfold QUOTE, BACKSLASH.
  rewrite H1, H2, H3. reflexivity.
Qed.

Lemma scanstring_short esc ch s2 :
  (esc =? 117) = false -> BACKSLASH_table esc = Some ch ->
  scanstring (92 :: esc :: s2) = append_char ch (scanstring s2).
Proof.
  intros H1 H2. cbn [scanstring]. unfold QUOTE, BACKSLASH, LETTER_u.
  change (92 =? 34) with false. change (92 =? 92) with true. cbv iota.
  rewrite H1, H2. reflexivity.
Qed.

Lemma scanstring_u_single h1 h2 h3 h4 uni s3 :
  decode_uXXXX h1 h2 h3 h4 = Some uni ->
  (55296 <=? uni) && (uni <=? 56319) = false ->
  scanstring (92 :: 117 :: h1 :: h2 :: h3 :: h4 :: s3) = append_char uni (scanstring s3).
Proof.
  intros H1 H2. cbn [scanstring]. unfold QUOTE, BACKSLASH, LETTER_u.
  change (92 =? 34) with false. change (92 =? 92) with true.
  change (117 =? 117) with true. cbv iota.
  rewrite H1, H2. reflexivity.
Qed.

Lemma scanstring_u_pair h1 h2 h3 h4 g1 g2 g3 g4 uni uni2 s5 :
  decode_uXXXX h1 h2 h3 h4 = Some uni ->
  (55296 <=? uni) && (uni <=? 56319) = true ->
  decode_uXXXX g1 g2 g3 g4 = Some uni2 ->
  (56320 <=? uni2) && (uni2 <=? 57343) = true ->
  scanstring (92 :: 117 :: h1 :: h2 :: h3 :: h4 :: 92 :: 117 :: g1 :: g2 :: g3 :: g4 :: s5)
  = append_char (65536 + N.lor (N.shiftl (uni - 55296) 10) (uni2 - 56320)) (scanstring s5).
Proof.
  intros H1 H2 H3 H4.
  cbn [scanstring]. unfold QUOTE, BACKSLASH, LETTER_u.
  change (92 =? 34) with false. change (92 =? 92) with true.
  change (117 =? 117) with true. cbv iota.
  rewrite H1, H2. cbn [andb]. rewrite H3, H4. reflexivity.
Qed.

(** *** The round trip *)

Lemma scanstring_u_escape n rest :
  n < 65536 -> (55296 <=? n) && (n <=? 56319) = false ->
  scanstring (u_escape n ++ rest) = append_char n (scanstring rest).
Proof.
  intros Hn Hs. unfold u_escape, BACKSLASH, LETTER_u. cbn [app].
  apply scanstring_u_single; [apply decode_u_escape; assumption | assumption].
Qed.

Ltac eqb_case c k :=
  destruct (N.eqb_spec c k) as [-> | ?].

(** The scanner reads back a character that is not a high surrogate from
    its escaped form. *)
Lemma scanstring_escape_char c rest :
  c < 1114112 -> is_high_surrogate c = false ->
  scanstring (escape_char c ++ rest) = append_char c (scanstring rest).
Proof.
  intros Hmax Hc. unfold escape_char.
  destruct (ESCAPE_ASCII c) eqn:E.
  - unfold replace, ESCAPE_DCT.
    eqb_case c 92; [reflexivity |].
    eqb_case c 34; [reflexivity |].
    eqb_case c 8; [reflexivity |].
    eqb_case c 12; [reflexivity |].
    eqb_case c 10; [reflexivity |].
    eqb_case c 13; [reflexivity |].
    eqb_case c 9; [reflexivity |].
    destruct (N.ltb_spec c 32) as [H32 | H32].
    + apply scanstring_u_escape; [lia | exact Hc].
    + destruct (N.ltb_spec c 65536) as [H16 | H16].
      * apply scanstring_u_escape; assumption.
      * cbv zeta. rewrite high_surrogate_of, low_surrogate_of by assumption.
        assert (Hhi : (c - 65536) / 1024 < 1024)
          by (apply N.Div0.div_lt_upper_bound; lia).
        assert (Hlo : (c - 65536) mod 1024 < 1024) by (apply N.mod_lt; lia).
        unfold u_escape, BACKSLASH, LETTER_u. cbn [app].
        rewrite (scanstring_u_pair _ _ _ _ _ _ _ _
                   (55296 + (c - 65536) / 1024) (56320 + (c - 65536) mod 1024)).
        -- rewrite join_surrogates by assumption. reflexivity.
        -- apply decode_u_escape. clear -Hhi. revert Hhi.
           generalize ((c - 65536) / 1024). intros; lia.
        -- clear -Hhi. revert Hhi. generalize ((c - 65536) / 1024). intros.
           apply andb_true_iff. split; apply N.leb_le; lia.
        -- apply decode_u_escape. clear -Hlo. revert Hlo.
           generalize ((c - 65536) mod 1024). intros; lia.
        -- clear -Hlo. revert Hlo. generalize ((c - 65536) mod 1024). intros.
           apply andb_true_iff. split; apply N.leb_le; lia.
  - unfold ESCAPE_ASCII in E.
    apply orb_false_iff in E. destruct E as [E E3].
    apply orb_false_iff in E. destruct E as [E1 E2].
    apply negb_false_iff, andb_true_iff in E3. destruct E3 as [E3 _].
    cbn [app]. apply scanstring_plain; try assumption.
    apply N.ltb_ge. apply N.leb_le in E3. assumption.
Qed.

(** A high surrogate escape that nothing joins: what follows is not the
    start of an escape ... *)
Lemma scanstring_u_high_alone h1 h2 h3 h4 uni s3 :
  decode_uXXXX h1 h2 h3 h4 = Some uni ->
  match s3 with
  | b :: u :: _ => (b =? 92) && (u =? 117) = false
  | _ => True
  end ->
  scanstring (92 :: 117 :: h1 :: h2 :: h3 :: h4 :: s3) = append_char uni (scanstring s3).
Proof.
  intros H1 H2. cbn [scanstring]. unfold QUOTE, BACKSLASH, LETTER_u.
  change (92 =? 34) with false. change (92 =? 92) with true.
  change (117 =? 117) with true. cbv iota.
  rewrite H1.
  destruct ((55296 <=? uni) && (uni <=? 56319)); [| reflexivity].
  destruct s3 as [| b [| u s4]]; try reflexivity.
  rewrite H2. reflexivity.
Qed.

(** ... or is an escape of something else than a low surrogate. *)
Lemma scanstring_u_high_then_other h1 h2 h3 h4 uni g1 g2 g3 g4 uni2 s5 :
  decode_uXXXX h1 h2 h3 h4 = Some uni ->
  decode_uXXXX g1 g2 g3 g4 = Some uni2 ->
  is_low_surrogate uni2 = false ->
  scanstring (92 :: 117 :: h1 :: h2 :: h3 :: h4 :: 92 :: 117 :: g1 :: g2 :: g3 :: g4 :: s5)
  = append_char uni (scanstring (92 :: 117 :: g1 :: g2 :: g3 :: g4 :: s5)).
Proof.
  intros H1 H2 H3.
  set (s3 := 92 :: 117 :: g1 :: g2 :: g3 :: g4 :: s5).
  cbn [scanstring]. unfold QUOTE, BACKSLASH, LETTER_u.
  change (92 =? 34) with false. change (92 =? 92) with true.
  change (117 =? 117) with true. cbv iota.
  rewrite H1.
  destruct ((55296 <=? uni) && (uni <=? 56319)); [| reflexivity].
  unfold s3 at 1. cbv iota.
  change (92 =? 92) with true. change (117 =? 117) with true. cbn [andb]. cbv iota.
  rewrite H2. unfold is_low_surrogate in H3. rewrite H3. reflexivity.
Qed.

Lemma escape_char_high c : is_high_surrogate c = true -> escape_char c = u_escape c.
Proof.
  intros H. unfold is_high_surrogate in H. apply andb_true_iff in H.
  destruct H as [H1 H2]. apply N.leb_le in H1. apply N.leb_le in H2.
  unfold escape_char, ESCAPE_ASCII, replace, ESCAPE_DCT.
  repeat match goal with
  | |- context [c =? ?k] => destruct (N.eqb_spec c k); [lia |]
  end.
  destruct (N.leb_spec c 126); [lia |]. rewrite andb_false_r. cbn [orb negb].
  destruct (N.ltb_spec c 32); [lia |].
  destruct (N.ltb_spec c 65536); [reflexivity | lia].
Qed.

(** A high surrogate escape followed by the escaped form of a character
    that is not a low surrogate is read as the high surrogate alone. *)
Lemma scanstring_high_before h1 h2 h3 h4 uni d tail :
  decode_uXXXX h1 h2 h3 h4 = Some uni ->
  d < 1114112 -> is_low_surrogate d = false ->
  scanstring (92 :: 117 :: h1 :: h2 :: h3 :: h4 :: escape_char d ++ tail)
  = append_char uni (scanstring (escape_char d ++ tail)).
Proof.
  intros Hu Hmax Hd. unfold escape_char.
  destruct (ESCAPE_ASCII d) eqn:E.
  - unfold replace, ESCAPE_DCT.
    eqb_case d 92; [apply scanstring_u_high_alone; [exact Hu | reflexivity] |].
    eqb_case d 34; [apply scanstring_u_high_alone; [exact Hu | reflexivity] |].
    eqb_case d 8; [apply scanstring_u_high_alone; [exact Hu | reflexivity] |].
    eqb_case d 12; [apply scanstring_u_high_alone; [exact Hu | reflexivity] |].
    eqb_case d 10; [apply scanstring_u_high_alone; [exact Hu | reflexivity] |].
    eqb_case d 13; [apply scanstring_u_high_alone; [exact Hu | reflexivity] |].
    eqb_case d 9; [apply scanstring_u_high_alone; [exact Hu | reflexivity] |].
    destruct (N.ltb_spec d 32) as [H32 | H32].
    + unfold u_escape, BACKSLASH, LETTER_u. cbn [app].
      apply scanstring_u_high_then_other with (uni2 := d);
        [exact Hu | apply decode_u_escape; lia | exact Hd].
    + destruct (N.ltb_spec d 65536) as [H16 | H16].
      * unfold u_escape, BACKSLASH, LETTER_u. cbn [app].
        apply scanstring_u_high_then_other with (uni2 := d);
          [exact Hu | apply decode_u_escape; lia | exact Hd].
      * cbv zeta. rewrite high_surrogate_of by assumption.
        assert (Hhi : (d - 65536) / 1024 < 1024)
          by (apply N.Div0.div_lt_upper_bound; lia).
        unfold u_escape at 1, BACKSLASH, LETTER_u. cbn [app].
        apply scanstring_u_high_then_other
          with (uni2 := 55296 + (d - 65536) / 1024); [exact Hu | |].
        -- apply decode_u_escape. clear -Hhi. revert Hhi.
           generalize ((d - 65536) / 1024). intros; lia.
        -- clear -Hhi. revert Hhi. generalize ((d - 65536) / 1024). intros.
           unfold is_low_surrogate. apply andb_false_iff. left. apply N.leb_gt. lia.
  - unfold ESCAPE_ASCII in E.
    apply orb_false_iff in E. destruct E as [E E3].
    apply orb_false_iff in E. destruct E as [E1 E2].
    cbn [app]. apply scanstring_u_high_alone; [exact Hu |].
    destruct tail; [exact I |]. rewrite E1. reflexivity.
Qed.

Lemma wf_str_cons c s :
  wf_str (c :: s) ->
  c < 1114112 /\ (is_high_surrogate c = true -> head_is_low s = false) /\ wf_str s.
Proof.
  unfold wf_str. cbn [wf_strb]. intros H.
  apply andb_true_iff in H. destruct H as [H H3].
  apply andb_true_iff in H. destruct H as [H1 H2].
  apply N.ltb_lt in H1. apply negb_true_iff in H2.
  repeat split; try assumption.
  intros Hh. rewrite Hh in H2. exact H2.
Qed.

Lemma scanstring_escaped s : forall rest,
  wf_str s ->
  scanstring (flat_map escape_char s ++ QUOTE :: rest) = Some (s, rest).
Proof.
  induction s as [| c s IH]; intros rest H.
  - reflexivity.
  - apply wf_str_cons in H. destruct H as (Hmax & Hnext & Hs).
    cbn [flat_map]. rewrite <- app_assoc.
    destruct (is_high_surrogate c) eqn:Hc.
    + rewrite (escape_char_high c Hc).
      assert (Hdec : decode_uXXXX (hex_digit (c / 4096)) (hex_digit ((c / 256) mod 16))
                       (hex_digit ((c / 16) mod 16)) (hex_digit (c mod 16)) = Some c).
      { apply decode_u_escape. unfold is_high_surrogate in Hc.
        apply andb_true_iff in Hc. destruct Hc as [_ Hc]. apply N.leb_le in Hc. lia. }
      unfold u_escape, BACKSLASH, LETTER_u. cbn [app].
      destruct s as [| d s'].
      * cbn [flat_map app].
        transitivity (append_char c (scanstring (QUOTE :: rest))); [| reflexivity].
        apply (scanstring_u_high_alone _ _ _ _ c (QUOTE :: rest) Hdec).
        destruct rest; [exact I | reflexivity].
      * specialize (Hnext eq_refl). cbn [head_is_low] in Hnext.
        pose proof (wf_str_cons _ _ Hs) as (Hd & _ & _).
        cbn [flat_map]. rewrite <- app_assoc.
        specialize (IH rest Hs). cbn [flat_map] in IH. rewrite <- app_assoc in IH.
        transitivity (append_char c (scanstring
                        (escape_char d ++ flat_map escape_char s' ++ QUOTE :: rest)));
          [| rewrite IH; reflexivity].
        apply (scanstring_high_before _ _ _ _ c d _ Hdec Hd Hnext).
    + rewrite scanstring_escape_char by assumption.
      rewrite IH by assumption. reflexivity.
Qed.

(** Scanning an encoded string gives the string back. *)
Lemma scan_once_encoded fuel s rest :
  wf_str s ->
  scan_once (S fuel) (py_encode_basestring_ascii s ++ rest) = Scanned (PyStr s) rest.
Proof.
  intros H. unfold py_encode_basestring_ascii.
  cbn [app scan_once]. unfold QUOTE at 1. change (34 =? QUOTE) with true. cbv iota.
  rewrite <- app_assoc. cbn [app].
  rewrite scanstring_escaped by assumption. reflexivity.
Qed.

Lemma join_items_starts_with_quote s l rest :
  exists t, join_items (map py_encode_basestring_ascii (s :: l)) ++ rest = QUOTE :: t.
Proof.
  destruct l as [| s' l']; cbn [map join_items];
    unfold py_encode_basestring_ascii at 1; cbn [app]; eexists; reflexivity.
Qed.

Lemma array_loop_S fuel s values :
  array_loop (S fuel) s values =
  match scan_once fuel s with
  | Scanned value rest =>
      match skip_ws rest with
      | nextchar :: r =>
          if nextchar =? 93 then Scanned (PyList (values ++ [value])) r
          else if nextchar =? 44 then array_loop fuel (skip_ws r) (values ++ [value])
          else Invalid
      | [] => Invalid
      end
  | Invalid => Invalid
  | Exhausted => Exhausted
  end.
Proof. reflexivity. Qed.

Lemma array_loop_items l : forall fuel values rest,
  Forall wf_str l -> l <> [] -> (length l < fuel)%nat ->
  array_loop fuel (join_items (map py_encode_basestring_ascii l) ++ 93 :: rest) values
  = Scanned (PyList (values ++ map PyStr l)) rest.
Proof.
  induction l as [| s l IH]; intros fuel values rest Hwf Hne Hfuel; [congruence |].
  inversion Hwf as [| ? ? Hs Hl]; subst.
  destruct fuel as [| fuel]; [cbn in Hfuel; lia |].
  destruct fuel as [| fuel]; [cbn in Hfuel; lia |].
  rewrite array_loop_S.
  destruct l as [| s' l'].
  - cbn [map join_items].
    rewrite scan_once_encoded by assumption.
    cbn [skip_ws is_ws]. reflexivity.
  - specialize (IH (S fuel) (values ++ [PyStr s]) rest Hl ltac:(discriminate)
                  ltac:(cbn in *; lia)).
    destruct (join_items_starts_with_quote s' l' (93 :: rest)) as [t Ht].
    assert (Heq : join_items (map py_encode_basestring_ascii (s :: s' :: l')) ++ 93 :: rest
                  = py_encode_basestring_ascii s ++ 44 :: 32 :: QUOTE :: t).
    { change (join_items (map py_encode_basestring_ascii (s :: s' :: l')))
        with (py_encode_basestring_ascii s
              ++ [44; 32] ++ join_items (map py_encode_basestring_ascii (s' :: l'))).
      rewrite <- !app_assoc. f_equal. cbn [app]. do 2 f_equal. exact Ht. }
    rewrite Heq, Ht in *. clear Heq Ht.
    rewrite scan_once_encoded by assumption.
    cbn [skip_ws]. change (is_ws 44) with false. cbv iota.
    change (44 =? 93) with false. change (44 =? 44) with true. cbv iota.
    cbn [skip_ws]. change (is_ws 32) with true. change (is_ws QUOTE) with false.
    cbv iota. rewrite <- app_assoc in IH.
    exact IH.
Qed.

(** [json.loads(json.dumps(l))] is the list [l] again. *)
Lemma loads_dumps l :
  Forall wf_str l -> loads (dumps l) = Return (PyList (map PyStr l)).
Proof.
  intros H. unfold loads, dumps.
  change (py "[") with [91]. change (py "]") with [93]. cbn [app skip_ws].
  change (is_ws 91) with false. cbv iota.
  cbn [scan_once]. unfold QUOTE. change (91 =? 34) with false.
  change (91 =? 123) with false. change (91 =? 91) with true. cbv iota.
  destruct l as [| s l].
  - reflexivity.
  - destruct (join_items_starts_with_quote s l [93]) as [t Ht].
    unfold JSONArray. rewrite Ht. cbn [skip_ws]. unfold QUOTE.
    change (is_ws 34) with false. change (34 =? 93) with false. cbv iota.
    fold QUOTE. rewrite <- Ht.
    rewrite array_loop_items; [reflexivity | assumption | discriminate |].
    cbn [length]. rewrite length_app. cbn [length].
    enough (S (length l) <= length (join_items (map py_encode_basestring_ascii (s :: l))))%nat
      by lia.
    clear. generalize s. induction l as [| s' l IH]; intros s0.
    + cbn. lia.
    + change (join_items (map py_encode_basestring_ascii (s0 :: s' :: l)))
        with (py_encode_basestring_ascii s0
              ++ [44; 32] ++ join_items (map py_encode_basestring_ascii (s' :: l))).
      rewrite !length_app. specialize (IH s'). cbn [length] in *.
      unfold str, char in *. lia.
Qed.

Lemma all_str_map l : schemas.all_str (map PyStr l) = Some l.
Proof.
  induction l as [| s l IH]; [reflexivity |].
  cbn [map schemas.all_str]. rewrite IH. reflexivity.
Qed.

(** *** Every scanner consumes input *)

Lemma skip_ws_length s : (length (skip_ws s) <= length s)%nat.
Proof.
  induction s as [| c s IH]; cbn [skip_ws length]; [lia |].
  destruct (is_ws c); cbn [length]; lia.
Qed.

Lemma append_char_Some c r x rest :
  append_char c r = Some (x, rest) -> exists x', r = Some (x', rest) /\ x = c :: x'.
Proof.
  destruct r as [[x' rest'] |]; cbn; intros H; [| discriminate].
  injection H as <- <-. eauto.
Qed.

(** The scanner consumes at least the closing quote. *)
Lemma scanstring_length n : forall s x rest,
  (length s <= n)%nat -> scanstring s = Some (x, rest) -> (length rest < length s)%nat.
Proof.
  induction n as [| n IH]; intros s x rest Hn H.
  - destruct s; [discriminate | cbn in Hn; lia].
  - assert (IH' : forall c s' x' , (length s' <= n)%nat ->
                  append_char c (scanstring s') = Some (x', rest) ->
                  (length rest < length s')%nat).
    { intros c s' x' Hs' Ha. apply append_char_Some in Ha.
      destruct Ha as (x0 & Ha & _). eapply IH; eassumption. }
    destruct s as [| c s1]; [discriminate |].
    cbn [scanstring] in H. cbn [length] in *.
    destruct (c =? QUOTE).
    { injection H as <- <-. lia. }
    destruct (c =? BACKSLASH).
    2:{ destruct (c <? 32); [discriminate |].
        apply IH' in H; lia. }
    destruct s1 as [| esc s2]; [discriminate |]. cbn [length] in *.
    destruct (esc =? LETTER_u).
    2:{ destruct (BACKSLASH_table esc); [| discriminate].
        apply IH' in H; lia. }
    destruct s2 as [| h1 [| h2 [| h3 [| h4 s3]]]]; try discriminate.
    cbn [length] in *.
    destruct (decode_uXXXX h1 h2 h3 h4) as [uni |]; [| discriminate].
    destruct ((55296 <=? uni) && (uni <=? 56319)).
    2:{ apply IH' in H; lia. }
    destruct s3 as [| b [| u s4]].
    { apply IH' in H; cbn [length] in *; lia. }
    { apply IH' in H; cbn [length] in *; lia. }
    destruct ((b =? BACKSLASH) && (u =? LETTER_u)).
    2:{ apply IH' in H; cbn [length] in *; lia. }
    destruct s4 as [| g1 [| g2 [| g3 [| g4 s5]]]]; try discriminate.
    destruct (decode_uXXXX g1 g2 g3 g4) as [uni2 |]; [| discriminate].
    destruct ((56320 <=? uni2) && (uni2 <=? 57343)).
    + apply IH' in H; cbn [length] in *; lia.
    + apply IH' in H; cbn [length] in *; lia.
Qed.

Lemma scanstring_shorter s x rest :
  scanstring s = Some (x, rest) -> (length rest < length s)%nat.
Proof. apply scanstring_length with (n := length s). lia. Qed.

Lemma starts_with_length p : forall s r,
  starts_with p s = Some r -> (length r + length p = length s)%nat.
Proof.
  induction p as [| x p IH]; intros s r H; cbn [starts_with] in H.
  - injection H as <-. cbn. lia.
  - destruct s as [| y s]; [discriminate |].
    destruct (x =? y); [| discriminate].
    apply IH in H. cbn [length]. lia.
Qed.

Lemma constant_shorter name v s w r :
  name <> EmptyString -> constant name v s = Some (w, r) -> (length r < length s)%nat.
Proof.
  intros Hne H. unfold constant in H.
  destruct (starts_with (py name) s) as [r' |] eqn:E; [| discriminate].
  injection H as _ <-. apply starts_with_length in E.
  destruct name; [congruence |]. cbn in E. lia.
Qed.

Lemma digits_length s : (length (snd (digits s)) <= length s)%nat.
Proof.
  induction s as [| c s IH]; cbn [digits]; [cbn; lia |].
  destruct (is_digit c); [| cbn; lia].
  destruct (digits s) as [ds r]. cbn [snd length] in *. lia.
Qed.

Lemma digits1_length s ds r : digits1 s = Some (ds, r) -> (length r <= length s)%nat.
Proof.
  unfold digits1. pose proof (digits_length s) as H.
  destruct (digits s) as [[| d ds'] r']; [discriminate |].
  intros E. injection E as <- <-. exact H.
Qed.

Lemma one_of_length cs s x r : one_of cs s = Some (x, r) -> (S (length r) = length s)%nat.
Proof.
  unfold one_of. destruct s as [| c s]; [discriminate |].
  destruct (existsb (N.eqb c) cs); [| discriminate].
  intros E. injection E as <- <-. reflexivity.
Qed.

Lemma optional_length m s :
  (forall x r, m s = Some (x, r) -> (length r <= length s)%nat) ->
  (length (snd (optional m s)) <= length s)%nat.
Proof.
  intros H. unfold optional. destruct (m s) as [[x r] |] eqn:E; cbn [snd].
  - apply (H x r). reflexivity.
  - lia.
Qed.

Lemma match_frac_length s x r : match_frac s = Some (x, r) -> (length r <= length s)%nat.
Proof.
  unfold match_frac. destruct s as [| c s1]; [discriminate |].
  destruct (c =? 46); [| discriminate].
  destruct (digits1 s1) as [[ds r'] |] eqn:E; [| discriminate].
  intros H. injection H as <- <-. apply digits1_length in E. cbn [length]. lia.
Qed.

Lemma match_exp_length s x r : match_exp s = Some (x, r) -> (length r <= length s)%nat.
Proof.
  unfold match_exp. destruct (one_of [101; 69] s) as [[e s1] |] eqn:E; [| discriminate].
  apply one_of_length in E.
  pose proof (@optional_length (one_of [45; 43]) s1) as Ho.
  destruct (optional (one_of [45; 43]) s1) as [sign s2]. cbn [snd] in Ho.
  destruct (digits1 s2) as [[ds r'] |] eqn:D; [| discriminate].
  intros H. injection H as <- <-. apply digits1_length in D.
  assert (length s2 <= length s1)%nat.
  { apply Ho. intros x0 r0 Hx. apply one_of_length in Hx. lia. }
  lia.
Qed.

Lemma match_integer_length s x r :
  match_integer s = Some (x, r) -> (length r < length s)%nat.
Proof.
  unfold match_integer.
  pose proof (@optional_length (one_of [45]) s) as Ho.
  destruct (optional (one_of [45]) s) as [sign s1]. cbn [snd] in Ho.
  assert (Hs1 : (length s1 <= length s)%nat).
  { apply Ho. intros x0 r0 Hx. apply one_of_length in Hx. lia. }
  destruct s1 as [| d s2]; [discriminate |]. cbn [length] in Hs1.
  destruct (d =? 48).
  - intros H. injection H as <- <-. lia.
  - destruct (is_digit d); [| discriminate].
    pose proof (digits_length s2) as Hd.
    destruct (digits s2) as [ds r']. cbn [snd] in Hd.
    intros H. injection H as <- <-. lia.
Qed.

Lemma match_number_length s x r :
  match_number s = Some (x, r) -> (length r < length s)%nat.
Proof.
  unfold match_number.
  destruct (match_integer s) as [[integer s1] |] eqn:E; [| discriminate].
  apply match_integer_length in E.
  pose proof (@optional_length match_frac s1 (@match_frac_length s1)) as H1.
  destruct (optional match_frac s1) as [frac s2]. cbn [snd] in H1.
  pose proof (@optional_length match_exp s2 (@match_exp_length s2)) as H2.
  destruct (optional match_exp s2) as [ex s3]. cbn [snd] in H2.
  intros H. injection H as <- <-. lia.
Qed.

Lemma scan_atom_shorter s v r : scan_atom s = Scanned v r -> (length r < length s)%nat.
Proof.
  unfold scan_atom.
  repeat match goal with
  | |- context [constant ?n ?w s] =>
      let E := fresh "E" in
      destruct (constant n w s) as [[? ?] |] eqn:E;
      [ intros H; injection H as <- <-;
        apply constant_shorter in E; [exact E | discriminate] |]
  | |- context [match_number s] =>
      let E := fresh "E" in
      destruct (match_number s) as [[? ?] |] eqn:E;
      [ intros H; injection H as <- <-; apply match_number_length in E; exact E |]
  end.
  discriminate.
Qed.

Lemma scan_atom_not_exhausted s : scan_atom s <> Exhausted.
Proof.
  unfold scan_atom.
  repeat match goal with
  | |- context [constant ?n ?w s] => destruct (constant n w s) as [[? ?] |]; [discriminate |]
  | |- context [match_number s] => destruct (match_number s) as [[? ?] |]; [discriminate |]
  end.
  discriminate.
Qed.

Lemma scan_once_S fuel s :
  scan_once (S fuel) s =
  match s with
  | [] => Invalid
  | nextchar :: s1 =>
      if nextchar =? QUOTE then
        match scanstring s1 with
        | Some (x, r) => Scanned (PyStr x) r
        | None => Invalid
        end
      else if nextchar =? 123 then JSONObject (object_loop fuel) s1
      else if nextchar =? 91 then JSONArray (array_loop fuel) s1
      else scan_atom s
  end.
Proof. reflexivity. Qed.

Lemma object_loop_S fuel s pairs :
  object_loop (S fuel) s pairs =
  match scanstring s with
  | None => Invalid
  | Some (key, r0) =>
      match skip_ws r0 with
      | colon :: r1 =>
          if colon =? 58 then
            match scan_once fuel (skip_ws r1) with
            | Scanned value rest =>
                match skip_ws rest with
                | nextchar :: r2 =>
                    if nextchar =? 125 then
                      Scanned (PyDict (pairs ++ [(key, value)])) r2
                    else if nextchar =? 44 then
                      match skip_ws r2 with
                      | q :: r3 =>
                          if q =? QUOTE then
                            object_loop fuel r3 (pairs ++ [(key, value)])
                          else Invalid
                      | [] => Invalid
                      end
                    else Invalid
                | [] => Invalid
                end
            | Invalid => Invalid
            | Exhausted => Exhausted
            end
          else Invalid
      | [] => Invalid
      end
  end.
Proof. reflexivity. Qed.


Lemma skip_ws_cons s c r : skip_ws s = c :: r -> (S (length r) <= length s)%nat.
Proof. intros H. pose proof (skip_ws_length s) as L. rewrite H in L. exact L. Qed.

(** Whatever the scanner returns, it has consumed input. *)
Lemma scan_shorter fuel :
  (forall s, shorter (scan_once fuel s) s)
  /\ (forall s values, shorter (array_loop fuel s values) s)
  /\ (forall s pairs, shorter (object_loop fuel s pairs) s).
Proof.
  induction fuel as [| fuel (IHs & IHa & IHo)].
  - repeat split; intros; intros v rest H; discriminate.
  - repeat split.
    + intros s v rest. rewrite scan_once_S.
      destruct s as [| c s1]; [discriminate |]. cbn [length].
      destruct (c =? QUOTE).
      { destruct (scanstring s1) as [[x r] |] eqn:E; [| discriminate].
        intros H. injection H as _ <-. apply scanstring_shorter in E. lia. }
      destruct (c =? 123).
      { unfold JSONObject. destruct s1 as [| c1 s2]; [discriminate |].
        destruct (c1 =? QUOTE).
        - intros H. apply IHo in H. cbn [length]. lia.
        - destruct (skip_ws (c1 :: s2)) as [| c2 s3] eqn:E; [discriminate |].
          apply skip_ws_cons in E.
          destruct (c2 =? 125).
          + intros H. injection H as _ <-. lia.
          + destruct (c2 =? QUOTE); [| discriminate].
            intros H. apply IHo in H. lia. }
      destruct (c =? 91).
      { unfold JSONArray. pose proof (skip_ws_length s1) as L.
        destruct (skip_ws s1) as [| c2 s3] eqn:E.
        - intros H. apply IHa in H. cbn in H. lia.
        - destruct (c2 =? 93).
          + intros H. injection H as _ <-. cbn [length] in L. lia.
          + intros H. apply IHa in H. lia. }
      intros H. apply scan_atom_shorter in H. exact H.
    + intros s values v rest. rewrite array_loop_S.
      destruct (scan_once fuel s) as [value r |  |] eqn:E; try discriminate.
      apply IHs in E.
      destruct (skip_ws r) as [| c r1] eqn:E1; [discriminate |].
      apply skip_ws_cons in E1.
      destruct (c =? 93).
      { intros H. injection H as _ <-. lia. }
      destruct (c =? 44); [| discriminate].
      intros H. apply IHa in H. pose proof (skip_ws_length r1). lia.
    + intros s pairs v rest. rewrite object_loop_S.
      destruct (scanstring s) as [[key r0] |] eqn:E; [| discriminate].
      apply scanstring_shorter in E.
      destruct (skip_ws r0) as [| colon r1] eqn:E0; [discriminate |].
      apply skip_ws_cons in E0.
      destruct (colon =? 58); [| discriminate].
      destruct (scan_once fuel (skip_ws r1)) as [value r |  |] eqn:E1; try discriminate.
      apply IHs in E1. pose proof (skip_ws_length r1).
      destruct (skip_ws r) as [| c r2] eqn:E2; [discriminate |].
      apply skip_ws_cons in E2.
      destruct (c =? 125).
      { intros H'. injection H' as _ <-. lia. }
      destruct (c =? 44); [| discriminate].
      destruct (skip_ws r2) as [| q r3] eqn:E3; [discriminate |].
      apply skip_ws_cons in E3.
      destruct (q =? QUOTE); [| discriminate].
      intros H'. apply IHo in H'. lia.
Qed.

(** Two units of fuel per character are never used up. *)
Lemma scan_once_fuel fuel :
  (forall s, (2 * length s < fuel)%nat -> scan_once fuel s <> Exhausted)
  /\ (forall s values, (2 * length s + 1 < fuel)%nat ->
      array_loop fuel s values <> Exhausted)
  /\ (forall s pairs, (2 * length s < fuel)%nat -> object_loop fuel s pairs <> Exhausted).
Proof.
  induction fuel as [fuel IH] using lt_wf_ind.
  destruct fuel as [| fuel].
  { repeat split; intros; lia. }
  destruct (IH fuel (Nat.lt_succ_diag_r fuel)) as (IHs0 & IHa0 & IHo0).
  repeat split.
  - intros s Hf. rewrite scan_once_S.
    destruct s as [| c s1]; [discriminate |]. cbn [length] in Hf.
    destruct (c =? QUOTE).
    { destruct (scanstring s1) as [[x r] |]; discriminate. }
    destruct (c =? 123).
    { unfold JSONObject. destruct s1 as [| c1 s2]; [discriminate |].
      cbn [length] in Hf.
      destruct (c1 =? QUOTE).
      - apply IHo0; lia.
      - destruct (skip_ws (c1 :: s2)) as [| c2 s3] eqn:E; [discriminate |].
        apply skip_ws_cons in E. cbn [length] in E.
        destruct (c2 =? 125); [discriminate |].
        destruct (c2 =? QUOTE); [| discriminate].
        apply IHo0; lia. }
    destruct (c =? 91).
    { unfold JSONArray. pose proof (skip_ws_length s1) as L.
      destruct (skip_ws s1) as [| c2 s3] eqn:E.
      - apply IHa0. cbn [length]. lia.
      - destruct (c2 =? 93); [discriminate |].
        apply IHa0; lia. }
    apply scan_atom_not_exhausted.
  - intros s values Hf. rewrite array_loop_S.
    destruct fuel as [| fuel']; [lia |].
    destruct (IH (S fuel') (Nat.lt_succ_diag_r (S fuel'))) as (IHs1 & IHa1 & IHo1).
    destruct (scan_once (S fuel') s) as [value r |  |] eqn:E; try discriminate.
    + apply scan_shorter in E.
      destruct (skip_ws r) as [| c r1] eqn:E1; [discriminate |].
      apply skip_ws_cons in E1.
      destruct (c =? 93); [discriminate |].
      destruct (c =? 44); [| discriminate].
      pose proof (skip_ws_length r1). apply IHa1. lia.
    + exfalso. revert E. apply IHs1. lia.
  - intros s pairs Hf. rewrite object_loop_S.
    destruct (scanstring s) as [[key r0] |] eqn:E; [| discriminate].
    apply scanstring_shorter in E.
    destruct (skip_ws r0) as [| colon r1] eqn:E0; [discriminate |].
    apply skip_ws_cons in E0.
    destruct (colon =? 58); [| discriminate].
    pose proof (skip_ws_length r1).
    destruct fuel as [| fuel']; [lia |].
    destruct (IH (S fuel') (Nat.lt_succ_diag_r (S fuel'))) as (IHs1 & IHa1 & IHo1).
    destruct (scan_once (S fuel') (skip_ws r1)) as [value r |  |] eqn:E1; try discriminate.
    + apply scan_shorter in E1.
      destruct (skip_ws r) as [| c r2] eqn:E2; [discriminate |].
      apply skip_ws_cons in E2.
      destruct (c =? 125); [discriminate |].
      destruct (c =? 44); [| discriminate].
      destruct (skip_ws r2) as [| q r3] eqn:E3; [discriminate |].
      apply skip_ws_cons in E3.
      destruct (q =? QUOTE); [| discriminate].
      apply IHo1. lia.
    + exfalso. revert E1. apply IHs1. lia.
Qed.

(** [json.loads] returns a value or raises JSONDecodeError, nothing else. *)
Lemma loads_total s :
  (exists v, loads s = Return v) \/ loads s = Raise JSONDecodeError.
Proof.
  unfold loads.
  destruct (scan_once (S (2 * length s)) (skip_ws s)) as [v r |  |] eqn:E.
  - destruct (skip_ws r); [left; eauto | right; reflexivity].
  - right; reflexivity.
  - exfalso. revert E. apply scan_once_fuel. pose proof (skip_ws_length s). lia.
Qed.

(** *** What the decoder returns on Unicode text *)

(** Unicode text is text the codec preserves. *)
Lemma unicode_text_wf s : unicode_text s -> wf_str s.
Proof.
  intros H. induction H as [| c s Hc _ IH]; [reflexivity |].
  unfold wf_str in *. cbn [wf_strb]. rewrite IH.
  unfold is_scalar in Hc. unfold is_high_surrogate.
  apply orb_true_iff in Hc. destruct Hc as [Hc | Hc].
  - apply N.ltb_lt in Hc.
    destruct (N.ltb_spec c 1114112); [| lia].
    destruct (N.leb_spec 55296 c); [lia |]. reflexivity.
  - apply andb_true_iff in Hc. destruct Hc as [H1 H2].
    apply N.ltb_lt in H1. rewrite H2.
    destruct (N.leb_spec c 56319); [lia |]. rewrite andb_false_r. reflexivity.
Qed.

Lemma scalar_bounds c :
  is_scalar c = true ->
  c < 1114112 /\ is_high_surrogate c = false /\ is_low_surrogate c = false.
Proof.
  unfold is_scalar, is_high_surrogate, is_low_surrogate. intros Hc.
  apply orb_true_iff in Hc. destruct Hc as [Hc | Hc].
  - apply N.ltb_lt in Hc. repeat split; [lia | |].
    + destruct (N.leb_spec 55296 c); [lia | reflexivity].
    + destruct (N.leb_spec 56320 c); [lia | reflexivity].
  - apply andb_true_iff in Hc. destruct Hc as [H1 H2].
    apply N.ltb_lt in H1. apply N.ltb_lt in H2. repeat split; [lia | |].
    + destruct (N.leb_spec c 56319); [lia |]. apply andb_false_r.
    + destruct (N.leb_spec c 57343); [lia |]. apply andb_false_r.
Qed.

Lemma hex_value_bound c v : hex_value c = Some v -> v < 16.
Proof.
  unfold hex_value.
  destruct ((48 <=? c) && (c <=? 57)) eqn:E1.
  { apply andb_true_iff in E1. destruct E1 as [A B].
    apply N.leb_le in A. apply N.leb_le in B. intros H. injection H as <-. lia. }
  destruct ((97 <=? c) && (c <=? 102)) eqn:E2.
  { apply andb_true_iff in E2. destruct E2 as [A B].
    apply N.leb_le in A. apply N.leb_le in B. intros H. injection H as <-. lia. }
  destruct ((65 <=? c) && (c <=? 70)) eqn:E3; [| discriminate].
  apply andb_true_iff in E3. destruct E3 as [A B].
  apply N.leb_le in A. apply N.leb_le in B. intros H. injection H as <-. lia.
Qed.

Lemma decode_uXXXX_bound h1 h2 h3 h4 uni :
  decode_uXXXX h1 h2 h3 h4 = Some uni -> uni < 65536.
Proof.
  unfold decode_uXXXX.
  destruct (hex_value h1) as [a |] eqn:E1; [| discriminate].
  destruct (hex_value h2) as [b |] eqn:E2; [| discriminate].
  destruct (hex_value h3) as [c |] eqn:E3; [| discriminate].
  destruct (hex_value h4) as [d |] eqn:E4; [| discriminate].
  apply hex_value_bound in E1, E2, E3, E4.
  intros H. injection H as <-. lia.
Qed.

Lemma BACKSLASH_table_bound esc ch : BACKSLASH_table esc = Some ch -> ch < 128.
Proof.
  unfold BACKSLASH_table.
  repeat match goal with
  | |- context [esc =? ?k] => destruct (esc =? k); [intros H; injection H as <-; lia |]
  end.
  discriminate.
Qed.

(** The code point two surrogates join into is an astral one. *)
Lemma join_bound uni uni2 :
  is_high_surrogate uni = true -> is_low_surrogate uni2 = true ->
  65536 <= 65536 + N.lor (N.shiftl (uni - 55296) 10) (uni2 - 56320) < 1114112.
Proof.
  unfold is_high_surrogate, is_low_surrogate. intros H1 H2.
  apply andb_true_iff in H1. destruct H1 as [A B].
  apply andb_true_iff in H2. destruct H2 as [C D].
  apply N.leb_le in A. apply N.leb_le in B. apply N.leb_le in C. apply N.leb_le in D.
  rewrite shiftl_10. change 1024 with (2 ^ 10).
  rewrite lor_mul_pow2_small by (change (2 ^ 10) with 1024; lia).
  change (2 ^ 10) with 1024. lia.
Qed.

Lemma wf_str_intro c x :
  c < 1114112 -> (is_high_surrogate c = true -> head_is_low x = false) ->
  wf_str x -> wf_str (c :: x).
Proof.
  intros H1 H2 H3. unfold wf_str in *. cbn [wf_strb]. rewrite H3.
  destruct (N.ltb_spec c 1114112); [| lia].
  destruct (is_high_surrogate c); [rewrite H2 by reflexivity |]; reflexivity.
Qed.

Lemma not_high_wf c x :
  c < 1114112 -> is_high_surrogate c = false -> wf_str x -> wf_str (c :: x).
Proof. intros H1 H2 H3. apply wf_str_intro; [assumption | congruence | assumption]. Qed.

Lemma high_not_low c : is_high_surrogate c = true -> is_low_surrogate c = false.
Proof.
  unfold is_high_surrogate, is_low_surrogate. intros H.
  apply andb_true_iff in H. destruct H as [_ B]. apply N.leb_le in B.
  destruct (N.leb_spec 56320 c); [lia | reflexivity].
Qed.

(** What the string scanner returns on Unicode text: a string the codec
    preserves, Unicode text left over, and a low surrogate at the head
    only when the input starts with its escape. *)
Lemma scanstring_text n : forall s x rest,
  (length s <= n)%nat -> unicode_text s -> scanstring s = Some (x, rest) ->
  wf_str x /\ unicode_text rest
  /\ (head_is_low x = true -> starts_low_escape s = true).
Proof.
  induction n as [| n IH]; intros s x rest Hn Ht H.
  { destruct s; [discriminate | cbn in Hn; lia]. }
  assert (step : forall c s' x0,
            (length s' <= n)%nat -> unicode_text s' ->
            append_char c (scanstring s') = Some (x0, rest) ->
            exists x', x0 = c :: x' /\ wf_str x' /\ unicode_text rest
                       /\ (head_is_low x' = true -> starts_low_escape s' = true)).
  { intros c s' x0 Hl Hs Ha. apply append_char_Some in Ha.
    destruct Ha as (x' & Ha & ->). exists x'. split; [reflexivity |].
    eapply IH; eassumption. }
  destruct s as [| c s1]; [discriminate |].
  cbn [scanstring] in H. cbn [length] in Hn.
  pose proof (Forall_inv Ht) as Hc. pose proof (Forall_inv_tail Ht) as Ht1.
  cbv beta in Hc.
  destruct (c =? QUOTE).
  { injection H as <- <-. repeat split; [assumption | discriminate]. }
  destruct (c =? BACKSLASH) eqn:Eb.
  2:{ destruct (c <? 32); [discriminate |].
      apply step in H; [| lia | assumption].
      destruct H as (x' & -> & Hx' & Hr & _).
      destruct (scalar_bounds c Hc) as (B1 & B2 & B3).
      repeat split; [apply not_high_wf; assumption | assumption |].
      cbn [head_is_low]. congruence. }
  destruct s1 as [| esc s2]; [discriminate |]. cbn [length] in Hn.
  pose proof (Forall_inv_tail Ht1) as Ht2.
  destruct (esc =? LETTER_u) eqn:Eu.
  2:{ destruct (BACKSLASH_table esc) as [ch |] eqn:Et; [| discriminate].
      apply step in H; [| lia | assumption].
      destruct H as (x' & -> & Hx' & Hr & _).
      pose proof (BACKSLASH_table_bound _ _ Et) as Hch.
      assert (is_high_surrogate ch = false).
      { unfold is_high_surrogate. destruct (N.leb_spec 55296 ch); [lia | reflexivity]. }
      assert (is_low_surrogate ch = false).
      { unfold is_low_surrogate. destruct (N.leb_spec 56320 ch); [lia | reflexivity]. }
      repeat split; [apply not_high_wf; (assumption || lia) | assumption |].
      cbn [head_is_low]. congruence. }
  destruct s2 as [| h1 [| h2 [| h3 [| h4 s3]]]]; try discriminate.
  cbn [length] in Hn.
  pose proof (Forall_inv_tail (Forall_inv_tail (Forall_inv_tail (Forall_inv_tail Ht2))))
    as Ht3.
  destruct (decode_uXXXX h1 h2 h3 h4) as [uni |] eqn:Ed; [| discriminate].
  pose proof (decode_uXXXX_bound _ _ _ _ _ Ed) as Huni.
  apply N.eqb_eq in Eb. apply N.eqb_eq in Eu. subst c esc.
  assert (Hlow_head : is_low_surrogate uni = true ->
            starts_low_escape (BACKSLASH :: LETTER_u :: h1 :: h2 :: h3 :: h4 :: s3) = true).
  { intros Hl. cbn [starts_low_escape]. rewrite Ed, Hl. reflexivity. }
  fold (is_high_surrogate uni) in H.
  destruct (is_high_surrogate uni) eqn:Ehigh.
  2:{ apply step in H; [| lia | assumption].
      destruct H as (x' & -> & Hx' & Hr & _).
      repeat split; [apply not_high_wf; (assumption || lia) | assumption |].
      exact Hlow_head. }
  (* a high surrogate: everything that is not a join keeps it alone *)
  assert (alone : starts_low_escape s3 = false ->
            append_char uni (scanstring s3) = Some (x, rest) ->
            wf_str x /\ unicode_text rest
            /\ (head_is_low x = true ->
                starts_low_escape (BACKSLASH :: LETTER_u :: h1 :: h2 :: h3 :: h4 :: s3)
                = true)).
  { intros Hno Ha. apply step in Ha; [| lia | assumption].
    destruct Ha as (x' & -> & Hx' & Hr & Hhead).
    repeat split; [| assumption |].
    - apply wf_str_intro; [lia | | assumption].
      intros _. destruct (head_is_low x'); [| reflexivity].
      rewrite Hhead in Hno by reflexivity. discriminate.
    - cbn [head_is_low]. rewrite (high_not_low _ Ehigh). discriminate. }
  destruct s3 as [| b [| u s4]].
  { apply alone; [reflexivity | exact H]. }
  { apply alone; [reflexivity | exact H]. }
  destruct ((b =? BACKSLASH) && (u =? LETTER_u)) eqn:Ebu.
  2:{ apply alone; [| exact H].
      cbn [starts_low_escape]. destruct s4 as [| ? [| ? [| ? [| ? ?]]]]; try reflexivity.
      unfold BACKSLASH, LETTER_u in Ebu. rewrite Ebu. reflexivity. }
  destruct s4 as [| g1 [| g2 [| g3 [| g4 s5]]]]; try discriminate.
  destruct (decode_uXXXX g1 g2 g3 g4) as [uni2 |] eqn:Ed2; [| discriminate].
  fold (is_low_surrogate uni2) in H.
  destruct (is_low_surrogate uni2) eqn:Elow.
  2:{ apply alone; [| exact H].
      cbn [starts_low_escape]. rewrite Ed2, Elow. apply andb_false_r. }
  (* a surrogate pair, joined *)
  pose proof (join_bound _ _ Ehigh Elow) as [J1 J2].
  assert (Ht5 : unicode_text s5).
  { do 6 apply Forall_inv_tail in Ht3. exact Ht3. }
  apply step in H; [| cbn [length] in Hn; lia | assumption].
  destruct H as (x' & -> & Hx' & Hr & _).
  set (j := 65536 + N.lor (N.shiftl (uni - 55296) 10) (uni2 - 56320)) in *.
  assert (is_high_surrogate j = false).
  { unfold is_high_surrogate. destruct (N.leb_spec j 56319); [lia |]. apply andb_false_r. }
  assert (is_low_surrogate j = false).
  { unfold is_low_surrogate. destruct (N.leb_spec j 57343); [lia |]. apply andb_false_r. }
  repeat split; [apply not_high_wf; assumption | assumption |].
  cbn [head_is_low]. congruence.
Qed.

(** Every scanner returns, as the rest, a part of its input: what holds of
    all characters of the input holds of all characters left over. *)
Section Rest.
Variable P : char -> Prop.

Lemma skip_ws_rest s : Forall P s -> Forall P (skip_ws s).
Proof.
  induction s as [| c s IH]; intros H; cbn [skip_ws]; [constructor |].
  destruct (is_ws c); [apply IH; exact (Forall_inv_tail H) | exact H].
Qed.

Lemma starts_with_rest p : forall s r,
  starts_with p s = Some r -> Forall P s -> Forall P r.
Proof.
  induction p as [| x p IH]; intros s r H Hs; cbn [starts_with] in H.
  - injection H as <-. exact Hs.
  - destruct s as [| y s]; [discriminate |].
    destruct (x =? y); [| discriminate].
    eapply IH; [eassumption | exact (Forall_inv_tail Hs)].
Qed.

Lemma digits_rest s : Forall P s -> Forall P (snd (digits s)).
Proof.
  induction s as [| c s IH]; intros H; cbn [digits]; [constructor |].
  destruct (is_digit c); [| exact H].
  specialize (IH (Forall_inv_tail H)).
  destruct (digits s) as [ds r]. exact IH.
Qed.

Lemma digits1_rest s ds r : digits1 s = Some (ds, r) -> Forall P s -> Forall P r.
Proof.
  unfold digits1. intros H Hs. pose proof (digits_rest s Hs) as Hd.
  destruct (digits s) as [[| d ds'] r']; [discriminate |].
  injection H as <- <-. exact Hd.
Qed.

Lemma one_of_rest cs s x r : one_of cs s = Some (x, r) -> Forall P s -> Forall P r.
Proof.
  unfold one_of. destruct s as [| c s]; [discriminate |].
  destruct (existsb (N.eqb c) cs); [| discriminate].
  intros H Hs. injection H as <- <-. exact (Forall_inv_tail Hs).
Qed.

Lemma optional_rest m s :
  (forall x r, m s = Some (x, r) -> Forall P s -> Forall P r) ->
  Forall P s -> Forall P (snd (optional m s)).
Proof.
  intros H Hs. unfold optional. destruct (m s) as [[x r] |]; cbn [snd].
  - apply (H x r); [reflexivity | exact Hs].
  - exact Hs.
Qed.

Lemma match_frac_rest s x r : match_frac s = Some (x, r) -> Forall P s -> Forall P r.
Proof.
  unfold match_frac. destruct s as [| c s1]; [discriminate |].
  destruct (c =? 46); [| discriminate].
  destruct (digits1 s1) as [[ds r'] |] eqn:E; [| discriminate].
  intros H Hs. injection H as <- <-.
  eapply digits1_rest; [eassumption | exact (Forall_inv_tail Hs)].
Qed.

Lemma match_exp_rest s x r : match_exp s = Some (x, r) -> Forall P s -> Forall P r.
Proof.
  unfold match_exp. destruct (one_of [101; 69] s) as [[e s1] |] eqn:E; [| discriminate].
  intros H Hs. pose proof (one_of_rest _ _ _ _ E Hs) as H1.
  pose proof (optional_rest (one_of [45; 43]) s1 (one_of_rest [45; 43] s1) H1) as H2.
  destruct (optional (one_of [45; 43]) s1) as [sign s2]. cbn [snd] in H2.
  destruct (digits1 s2) as [[ds r'] |] eqn:D; [| discriminate].
  injection H as <- <-. eapply digits1_rest; eassumption.
Qed.

Lemma match_integer_rest s x r :
  match_integer s = Some (x, r) -> Forall P s -> Forall P r.
Proof.
  unfold match_integer. intros H Hs.
  pose proof (optional_rest (one_of [45]) s (one_of_rest [45] s) Hs) as H1.
  destruct (optional (one_of [45]) s) as [sign s1]. cbn [snd] in H1.
  destruct s1 as [| d s2]; [discriminate |].
  destruct (d =? 48).
  - injection H as <- <-. exact (Forall_inv_tail H1).
  - destruct (is_digit d); [| discriminate].
    pose proof (digits_rest s2 (Forall_inv_tail H1)) as Hd.
    destruct (digits s2) as [ds r']. injection H as <- <-. exact Hd.
Qed.

Lemma match_number_rest s x r :
  match_number s = Some (x, r) -> Forall P s -> Forall P r.
Proof.
  unfold match_number. intros H Hs.
  destruct (match_integer s) as [[integer s1] |] eqn:E; [| discriminate].
  pose proof (match_integer_rest _ _ _ E Hs) as H1.
  pose proof (optional_rest match_frac s1 (match_frac_rest s1) H1) as H2.
  destruct (optional match_frac s1) as [frac s2]. cbn [snd] in H2.
  pose proof (optional_rest match_exp s2 (match_exp_rest s2) H2) as H3.
  destruct (optional match_exp s2) as [ex s3]. cbn [snd] in H3.
  injection H as <- <-. exact H3.
Qed.

Lemma constant_rest name v s w r :
  constant name v s = Some (w, r) -> Forall P s -> Forall P r /\ w = v.
Proof.
  unfold constant. destruct (starts_with (py name) s) as [r' |] eqn:E; [| discriminate].
  intros H Hs. injection H as <- <-. split; [| reflexivity].
  eapply starts_with_rest; eassumption.
Qed.

(** The atoms are neither strings nor lists. *)
Lemma scan_atom_rest s v r :
  scan_atom s = Scanned v r -> Forall P s -> Forall P r /\ value_ok v /\ item_ok v.
Proof.
  unfold scan_atom. intros H Hs.
  repeat match type of H with
  | context [constant ?n ?w s] =>
      let E := fresh "E" in
      destruct (constant n w s) as [[? ?] |] eqn:E;
      [ injection H as <- <-; apply constant_rest in E; [| exact Hs];
        destruct E as [E ->]; repeat split; exact E |]
  | context [match_number s] =>
      let E := fresh "E" in
      destruct (match_number s) as [[? ?] |] eqn:E;
      [ injection H as <- <-; repeat split;
        eapply match_number_rest; eassumption |]
  end.
  discriminate.
Qed.

End Rest.

Lemma scanstring_text_ok s x rest :
  unicode_text s -> scanstring s = Some (x, rest) -> wf_str x /\ unicode_text rest.
Proof.
  intros Ht H.
  destruct (scanstring_text (length s) s x rest (Nat.le_refl _) Ht H) as (A & B & _).
  auto.
Qed.

(** On Unicode text the scanner returns values whose strings the codec
    preserves, and leaves Unicode text. *)
Lemma scan_text fuel :
  (forall s v rest, unicode_text s -> scan_once fuel s = Scanned v rest ->
     unicode_text rest /\ value_ok v /\ item_ok v)
  /\ (forall s values v rest, unicode_text s -> Forall item_ok values ->
     array_loop fuel s values = Scanned v rest ->
     unicode_text rest /\ value_ok v /\ item_ok v)
  /\ (forall s pairs v rest, unicode_text s ->
     object_loop fuel s pairs = Scanned v rest ->
     unicode_text rest /\ value_ok v /\ item_ok v).
Proof.
  induction fuel as [| fuel (IHs & IHa & IHo)].
  { repeat split; intros; discriminate. }
  split; [| split].
  - intros s v rest Ht. rewrite scan_once_S.
    destruct s as [| c s1]; [discriminate |].
    pose proof (Forall_inv_tail Ht) as Ht1.
    destruct (c =? QUOTE).
    { destruct (scanstring s1) as [[x r] |] eqn:E; [| discriminate].
      intros H. injection H as <- <-.
      destruct (scanstring_text_ok _ _ _ Ht1 E) as [Hx Hr].
      split; [exact Hr | split; exact Hx]. }
    destruct (c =? 123).
    { unfold JSONObject. destruct s1 as [| c1 s2]; [discriminate |].
      destruct (c1 =? QUOTE).
      - apply IHo. exact (Forall_inv_tail Ht1).
      - pose proof (skip_ws_rest _ _ Ht1) as Hw.
        destruct (skip_ws (c1 :: s2)) as [| c2 s3]; [discriminate |].
        destruct (c2 =? 125).
        + intros H. injection H as <- <-.
          split; [exact (Forall_inv_tail Hw) | split; exact I].
        + destruct (c2 =? QUOTE); [| discriminate].
          apply IHo. exact (Forall_inv_tail Hw). }
    destruct (c =? 91).
    { unfold JSONArray. pose proof (skip_ws_rest _ _ Ht1) as Hw.
      destruct (skip_ws s1) as [| c2 s3].
      - apply IHa; constructor.
      - destruct (c2 =? 93).
        + intros H. injection H as <- <-.
          split; [exact (Forall_inv_tail Hw) | split; [constructor | exact I]].
        + apply IHa; [exact Hw | constructor]. }
    intros H. eapply scan_atom_rest; eassumption.
  - intros s values v rest Ht Hv. rewrite array_loop_S.
    destruct (scan_once fuel s) as [value r |  |] eqn:E; try discriminate.
    destruct (IHs _ _ _ Ht E) as (Hr & _ & Hitem).
    pose proof (skip_ws_rest _ _ Hr) as Hw.
    assert (Hall : Forall item_ok (values ++ [value])).
    { apply Forall_app. split; [exact Hv | constructor; [exact Hitem | constructor]]. }
    destruct (skip_ws r) as [| c r1]; [discriminate |].
    destruct (c =? 93).
    { intros H. injection H as <- <-.
      split; [exact (Forall_inv_tail Hw) | split; [exact Hall | exact I]]. }
    destruct (c =? 44); [| discriminate].
    apply IHa; [| exact Hall].
    apply skip_ws_rest. exact (Forall_inv_tail Hw).
  - intros s pairs v rest Ht. rewrite object_loop_S.
    destruct (scanstring s) as [[key r0] |] eqn:E; [| discriminate].
    destruct (scanstring_text_ok _ _ _ Ht E) as [_ Hr0].
    pose proof (skip_ws_rest _ _ Hr0) as Hw0.
    destruct (skip_ws r0) as [| colon r1]; [discriminate |].
    destruct (colon =? 58); [| discriminate].
    pose proof (skip_ws_rest _ _ (Forall_inv_tail Hw0)) as Hw1.
    destruct (scan_once fuel (skip_ws r1)) as [value r |  |] eqn:E1; try discriminate.
    destruct (IHs _ _ _ Hw1 E1) as (Hr & _ & _).
    pose proof (skip_ws_rest _ _ Hr) as Hw.
    destruct (skip_ws r) as [| c r2]; [discriminate |].
    destruct (c =? 125).
    { intros H. injection H as <- <-.
      split; [exact (Forall_inv_tail Hw) | split; exact I]. }
    destruct (c =? 44); [| discriminate].
    pose proof (skip_ws_rest _ _ (Forall_inv_tail Hw)) as Hw2.
    destruct (skip_ws r2) as [| q r3]; [discriminate |].
    destruct (q =? QUOTE); [| discriminate].
    apply IHo. exact (Forall_inv_tail Hw2).
Qed.

(** [json.loads] of Unicode text gives values whose strings the codec
    preserves. *)
Lemma loads_text s v : unicode_text s -> loads s = Return v -> value_ok v.
Proof.
  intros Ht. unfold loads.
  destruct (scan_once (S (2 * length s)) (skip_ws s)) as [obj r |  |] eqn:E;
    try discriminate.
  destruct (skip_ws r); [| discriminate].
  intros H. injection H as <-.
  destruct (scan_text (S (2 * length s))) as (Hs & _ & _).
  apply (Hs _ _ _ (skip_ws_rest _ _ Ht) E).
Qed.

Lemma all_str_ok items : forall L,
  Forall item_ok items -> schemas.all_str items = Some L -> Forall wf_str L.
Proof.
  induction items as [| v items IH]; intros L Hi H; cbn [schemas.all_str] in H.
  - injection H as <-. constructor.
  - destruct v; try discriminate.
    destruct (schemas.all_str items) as [l |]; [| discriminate].
    injection H as <-. constructor.
    + exact (Forall_inv Hi).
    + apply IH; [exact (Forall_inv_tail Hi) | reflexivity].
Qed.

End json_facts.

Import models schemas invariants json_facts.
Local Open Scope Z_scope.

(* ===================================================================== *)
(** ** Strings, tag columns and the store *)
(* ===================================================================== *)

Lemma str_eqb_refl s : str_eqb s s = true.
Proof.
  induction s as [| c s IH]; [reflexivity |].
  cbn [str_eqb]. rewrite N.eqb_refl, IH. reflexivity.
Qed.

Lemma str_eqb_eq a : forall b, str_eqb a b = true <-> a = b.
Proof.
  induction a as [| x a IH]; intros [| y b]; cbn [str_eqb]; split; intros H;
    try reflexivity; try discriminate.
  - apply andb_true_iff in H. destruct H as [H1 H2].
    apply N.eqb_eq in H1. apply IH in H2. congruence.
  - injection H as -> ->. rewrite N.eqb_refl. apply str_eqb_refl.
Qed.

(** *** Reading a tag column back *)


Lemma parse_tags_same t : ProblemOut.parse_tags t = ProblemOut.parse_knowledge_tags t.
Proof. reflexivity. Qed.

Lemma decode_column_dumps L :
  Forall wf_str L -> decode_column (Some (json.dumps L)) = Return (Some L).
Proof.
  intros H. unfold decode_column, ProblemOut.parse_knowledge_tags.
  rewrite loads_dumps by assumption. cbn [bind validate_optional_list_str].
  rewrite all_str_map. reflexivity.
Qed.

Lemma decode_column_serialized t :
  serialized t -> exists l, decode_column t = Return l.
Proof.
  intros [-> | (L & HL & ->)].
  - exists None. reflexivity.
  - exists (Some L). apply decode_column_dumps. assumption.
Qed.

Lemma from_orm_columns p kt tg :
  decode_column (Problem.knowledge_tags p) = Return kt ->
  decode_column (Problem.tags p) = Return tg ->
  ProblemOut.from_orm p =
  Return (ProblemOut.mk (Problem.id p) (Problem.owner_id p) (Problem.source_type p)
            (Problem.file_content p) (Problem.subject p) (Problem.course p)
            (Problem.problem_type p) kt (Problem.difficulty p)
            (Problem.is_bookmarked p) tg (Problem.notes p)
            (Problem.created_at p) (Problem.updated_at p)).
Proof.
  unfold decode_column, ProblemOut.from_orm. intros H1 H2.
  change (ProblemOut.parse_tags (Problem.tags p))
    with (ProblemOut.parse_knowledge_tags (Problem.tags p)).
  destruct (ProblemOut.parse_knowledge_tags (Problem.knowledge_tags p)) as [v1 | e1];
    cbn [bind] in *; [| discriminate].
  rewrite H1. cbn [bind].
  destruct (ProblemOut.parse_knowledge_tags (Problem.tags p)) as [v2 | e2];
    cbn [bind] in *; [| discriminate].
  rewrite H2. reflexivity.
Qed.

(** A well-formed row always serializes. *)
Lemma from_orm_wf p :
  wf_problem p ->
  exists out, ProblemOut.from_orm p = Return out
              /\ ProblemOut.id out = Problem.id p
              /\ ProblemOut.owner_id out = Problem.owner_id p
              /\ decode_column (Problem.knowledge_tags p) = Return (ProblemOut.knowledge_tags out)
              /\ decode_column (Problem.tags p) = Return (ProblemOut.tags out).
Proof.
  intros (Hk & Ht & _).
  destruct (decode_column_serialized _ Hk) as [kt Ekt].
  destruct (decode_column_serialized _ Ht) as [tg Etg].
  eexists. split; [apply from_orm_columns; eassumption |].
  cbn. auto.
Qed.

(** *** The store *)

Lemma find_some_In {A} (f : A -> bool) l x : find f l = Some x -> In x l /\ f x = true.
Proof. apply find_some. Qed.

Lemma get_problem_id db problem_id p :
  crud.get_problem db problem_id = Some p -> Problem.id p = problem_id.
Proof.
  unfold crud.get_problem. intros H. apply find_some in H.
  destruct H as [_ H]. apply Z.eqb_eq in H. exact H.
Qed.

Lemma get_problem_In db problem_id p :
  crud.get_problem db problem_id = Some p -> In p (problems db).
Proof. unfold crud.get_problem. intros H. apply find_some in H. tauto. Qed.

Lemma get_problem_wf db problem_id p :
  wf_db db -> crud.get_problem db problem_id = Some p -> wf_problem p.
Proof.
  intros [_ Hp] H. apply get_problem_In in H.
  rewrite Forall_forall in Hp. auto.
Qed.

Lemma fold_max_ge ids : forall x, In x ids -> x <= fold_right Z.max 0 ids.
Proof.
  induction ids as [| y ids IH]; intros x H; [destruct H |].
  cbn [fold_right]. destruct H as [-> | H].
  - lia.
  - specialize (IH x H). lia.
Qed.

Lemma fold_max_nonneg ids : 0 <= fold_right Z.max 0 ids.
Proof. induction ids as [| y ids IH]; cbn [fold_right]; lia. Qed.

Lemma next_id_fresh ids x : In x ids -> x < next_id ids.
Proof. intros H. apply fold_max_ge in H. unfold next_id. lia. Qed.

Lemma next_id_pos ids : 0 < next_id ids.
Proof. pose proof (fold_max_nonneg ids). unfold next_id. lia. Qed.

Lemma find_app_fresh {A} (f : A -> bool) l x :
  (forall y, In y l -> f y = false) -> f x = true -> find f (l ++ [x]) = Some x.
Proof.
  intros Hl Hx. induction l as [| y l IH]; cbn [app find].
  - rewrite Hx. reflexivity.
  - rewrite (Hl y (or_introl eq_refl)). apply IH. intros z Hz. apply Hl. right. exact Hz.
Qed.

(** A created problem is the row its id finds. *)
Lemma get_problem_after_create db owner problem_in now :
  crud.get_problem (fst (crud.create_problem db owner problem_in now))
                   (Problem.id (snd (crud.create_problem db owner problem_in now)))
  = Some (snd (crud.create_problem db owner problem_in now)).
Proof.
  unfold crud.create_problem, crud.get_problem. cbn [fst snd problems Problem.id].
  apply find_app_fresh.
  - intros q Hq. apply Z.eqb_neq.
    pose proof (next_id_fresh (map Problem.id (problems db)) (Problem.id q)
                  (in_map Problem.id _ _ Hq)). lia.
  - cbn [Problem.id]. apply Z.eqb_refl.
Qed.

(* ===================================================================== *)
(** ** The stored-data invariant is kept by every write *)
(* ===================================================================== *)

Lemma wf_db_empty : wf_db {| users := []; problems := [] |}.
Proof. split; constructor. Qed.

Lemma serialized_created l :
  wf_tag_list l ->
  serialized (if crud.truthy_list l then option_map json.dumps l else None).
Proof.
  destruct l as [[| x L] |]; cbn; intros H; [left; reflexivity | | left; reflexivity].
  right. exists (x :: L). split; [exact H | reflexivity].
Qed.

Lemma create_problem_wf db owner problem_in now :
  wf_db db -> 0 < owner -> wf_create problem_in ->
  wf_db (fst (crud.create_problem db owner problem_in now)).
Proof.
  intros [Hu Hp] Ho [Hk Ht]. split; cbn [fst crud.create_problem users problems].
  - exact Hu.
  - apply Forall_app. split; [exact Hp |].
    constructor; [| constructor].
    repeat split; cbn; auto using serialized_created.
Qed.

Lemma serialized_assigned new old :
  wf_tag_list new -> serialized old ->
  serialized (crud.or_keep_opt (option_map json.dumps new) old).
Proof.
  destruct new as [L |]; cbn; intros H Ho; [| exact Ho].
  right. exists L. split; [exact H | reflexivity].
Qed.

Lemma flush_wf p u now : wf_update u -> wf_problem p -> wf_problem (crud.flush p u now).
Proof.
  intros [Hk Ht] (Pk & Pt & Po). unfold crud.flush.
  destruct (Problem_eqb p (crud.assign p u)); [repeat split; assumption |].
  repeat split; cbn; auto using serialized_assigned.
Qed.

Lemma update_problem_wf db problem_id u now :
  wf_db db -> wf_update u ->
  wf_db (fst (crud.update_problem db problem_id u now)).
Proof.
  intros [Hu Hp] Hw. unfold crud.update_problem.
  destruct (find _ (problems db)); cbn [fst]; [| split; assumption].
  split; cbn [users problems]; [exact Hu |].
  rewrite Forall_forall in *. intros q Hq. apply in_map_iff in Hq.
  destruct Hq as (q0 & <- & Hq0).
  destruct (Problem.id q0 =? problem_id); auto using flush_wf.
Qed.

Lemma create_user_wf ctx db user_in uuid salt now :
  wf_db db -> wf_db (fst (crud.create_user ctx db user_in uuid salt now)).
Proof.
  intros [Hu Hp]. unfold crud.create_user.
  destruct (crud.get_password_hash ctx _ salt); cbn [fst]; [| split; assumption].
  destruct (existsb _ (users db)); cbn [fst]; [split; assumption |].
  split; cbn [users problems]; [| exact Hp].
  apply Forall_app. split; [exact Hu |]. constructor; [| constructor].
  cbn. apply next_id_pos.
Qed.

Lemma set_user_active_wf db user_id active :
  wf_db db -> wf_db (fst (crud.set_user_active db user_id active)).
Proof.
  intros [Hu Hp]. unfold crud.set_user_active.
  destruct (find _ (users db)); cbn [fst]; [| split; assumption].
  split; cbn [users problems]; [| exact Hp].
  rewrite Forall_forall in *. intros u Hin. apply in_map_iff in Hin.
  destruct Hin as (u0 & <- & Hu0).
  destruct (User.id u0 =? user_id); cbn; auto.
Qed.

Lemma parse_tag_field_ok field d v :
  text_field field -> main.parse_tag_field field d = Return v -> json.value_ok v.
Proof.
  unfold main.parse_tag_field. destruct field as [s |]; cbn [text_field].
  - intros Ht. destruct (truthy_str (Some s)).
    + destruct (json.loads s) as [w | e] eqn:E.
      * intros H. injection H as <-. eapply loads_text; eassumption.
      * destruct e; discriminate.
    + intros H. injection H as <-. exact I.
  - intros _ H. injection H as <-. exact I.
Qed.

Lemma validate_optional_list_str_ok v l :
  json.value_ok v -> validate_optional_list_str v = Return l -> wf_tag_list l.
Proof.
  unfold validate_optional_list_str. destruct v; try discriminate.
  - intros _ H. injection H as <-. exact I.
  - cbn [json.value_ok]. intros Hi.
    destruct (all_str items) as [L |] eqn:E; [| discriminate].
    intros H. injection H as <-. cbn [wf_tag_list].
    eapply all_str_ok; eassumption.
Qed.

Lemma ProblemCreate_init_wf source_type raw fc subject course problem_type kt difficulty
    tg notes problem_in :
  json.value_ok kt -> json.value_ok tg ->
  ProblemCreate.init source_type raw fc subject course problem_type kt difficulty tg notes
  = Return problem_in ->
  wf_create problem_in.
Proof.
  intros Hk Ht. unfold ProblemCreate.init. destruct raw as [raw_text |]; [| discriminate].
  destruct (validate_optional_list_str kt) as [lk | e] eqn:Ek; cbn [bind]; [| discriminate].
  destruct (validate_optional_list_str tg) as [lt | e] eqn:Et; cbn [bind]; [| discriminate].
  intros H. injection H as <-. split.
  - exact (validate_optional_list_str_ok kt lk Hk Ek).
  - exact (validate_optional_list_str_ok tg lt Ht Et).
Qed.

Lemma user_id_positive db u : wf_db db -> In u (users db) -> 0 < User.id u.
Proof. intros [Hu _] Hin. rewrite Forall_forall in Hu. auto. Qed.

(** An upload of Unicode text by a user of the store keeps the invariant. *)
Lemma upload_problem_wf raw file source_type subject course problem_type knowledge_tags
    difficulty tags notes db current_user now :
  wf_db db -> In current_user (users db) ->
  text_field knowledge_tags -> text_field tags ->
  wf_db (fst (main.upload_problem raw file source_type subject course problem_type
                knowledge_tags difficulty tags notes db current_user now)).
Proof.
  intros Hdb Hin Hk Ht. unfold main.upload_problem.
  destruct (negb (truthy_str raw) && negb (main.truthy_file file)); [exact Hdb |].
  destruct (main.stored_content raw file) as [[raw_store fc] | e]; cbn [bind];
    [| exact Hdb].
  destruct (main.parse_tag_field knowledge_tags KnowledgeTagsNotJSON) as [kt | e] eqn:Ek;
    cbn [bind]; [| exact Hdb].
  destruct (main.parse_tag_field tags TagsNotJSON) as [tg | e] eqn:Et;
    cbn [bind]; [| exact Hdb].
  destruct (ProblemCreate.init source_type raw_store fc subject course problem_type
              kt difficulty tg notes) as [problem_in | e] eqn:Ei; [| exact Hdb].
  pose proof (create_problem_wf db (User.id current_user) problem_in now Hdb
                (user_id_positive _ _ Hdb Hin)) as Hc.
  destruct (crud.create_problem db (User.id current_user) problem_in now) as [db' p].
  cbn [fst] in *. apply Hc.
  eapply ProblemCreate_init_wf; [| | exact Ei].
  - exact (parse_tag_field_ok _ _ _ Hk Ek).
  - exact (parse_tag_field_ok _ _ _ Ht Et).
Qed.

Lemma main_update_problem_wf problem_id problem_in db current_user now :
  wf_db db -> wf_update problem_in ->
  wf_db (fst (main.update_problem problem_id problem_in db current_user now)).
Proof.
  intros Hdb Hu. unfold main.update_problem.
  destruct (crud.get_problem db problem_id) as [p |]; [| exact Hdb].
  destruct (main.ne_int (Problem.owner_id p) (User.id current_user)); [exact Hdb |].
  pose proof (update_problem_wf db problem_id problem_in now Hdb Hu) as H.
  destruct (crud.update_problem db problem_id problem_in now) as [db' [p' |]]; exact H.
Qed.

Lemma register_wf pwd_context user_in db uuid salt now :
  wf_db db -> wf_db (fst (main.register pwd_context user_in db uuid salt now)).
Proof.
  intros Hdb. unfold main.register.
  destruct (crud.get_user_by_username db (UserCreate.username user_in)); [exact Hdb |].
  apply create_user_wf. exact Hdb.
Qed.

Lemma admin_ban_user_wf user_id db current_user :
  wf_db db -> wf_db (fst (main.admin_ban_user user_id db current_user)).
Proof.
  intros Hdb. unfold main.admin_ban_user.
  destruct (negb (User.is_admin current_user)); [exact Hdb |].
  pose proof (set_user_active_wf db user_id false Hdb) as H.
  destruct (crud.set_user_active db user_id false) as [db' [u |]]; exact H.
Qed.

(** X1.  Every store the handlers build from a well-formed one is well-formed:
    the hypothesis of the read-ownership and round-trip laws is an
    invariant of the running system. *)
Theorem reachable_wf start db : wf_db start -> reachable start db -> wf_db db.
Proof.
  intros Hstart Hr. induction Hr.
  - exact Hstart.
  - apply register_wf. assumption.
  - apply upload_problem_wf; assumption.
  - apply main_update_problem_wf; assumption.
  - apply admin_ban_user_wf. assumption.
Qed.

(* ===================================================================== *)
(** ** C1: tag lists read back *)
(* ===================================================================== *)

Lemma decode_column_created l :
  wf_tag_list l ->
  decode_column (if crud.truthy_list l then option_map json.dumps l else None)
  = Return (read_back l).
Proof.
  destruct l as [[| x L] |]; cbn [crud.truthy_list option_map read_back];
    intros H; try reflexivity.
  apply decode_column_dumps. exact H.
Qed.

(** C1, as amended (tag-list round trip).  A problem created with tag
    lists of strings and read back through GET /problems/{id} by its owner
    shows every non-empty list exactly as given, in order; an empty list
    and an absent one both read back as absent. *)
Theorem tags_round_trip db current_user problem_in now :
  wf_create problem_in ->
  exists out,
    main.get_problem
      (Problem.id (snd (crud.create_problem db (User.id current_user) problem_in now)))
      (fst (crud.create_problem db (User.id current_user) problem_in now))
      current_user = Return out
    /\ ProblemOut.knowledge_tags out = read_back (ProblemCreate.knowledge_tags problem_in)
    /\ ProblemOut.tags out = read_back (ProblemCreate.tags problem_in).
Proof.
  intros [Hk Ht]. unfold main.get_problem.
  rewrite get_problem_after_create.
  set (p := snd (crud.create_problem db (User.id current_user) problem_in now)).
  assert (Ho : Problem.owner_id p = Some (User.id current_user)) by reflexivity.
  rewrite Ho. unfold main.ne_int. rewrite Z.eqb_refl. cbn [negb].
  rewrite andb_false_r.
  eexists. split.
  - apply from_orm_columns; apply decode_column_created; assumption.
  - cbn. auto.
Qed.

Lemma tags_round_trip_witness :
  exists out,
    main.get_problem
      (Problem.id (snd (crud.create_problem examples.db0 1
                          (examples.create_with (Some [py "algebra"; [20989%N; 128512%N]])) 9)))
      (fst (crud.create_problem examples.db0 1
              (examples.create_with (Some [py "algebra"; [20989%N; 128512%N]])) 9))
      examples.alice = Return out
    /\ ProblemOut.knowledge_tags out = Some [py "algebra"; [20989%N; 128512%N]]
    /\ ProblemOut.tags out = None.
Proof.
  apply (tags_round_trip examples.db0 examples.alice
           (examples.create_with (Some [py "algebra"; [20989%N; 128512%N]])) 9).
  split; cbn; [repeat constructor | exact I].
Defined.

(** The claim as stated fails on the empty list: it is stored as NULL and
    reads back as absent. *)
Lemma tags_round_trip_empty_list_lost :
  exists out,
    main.get_problem
      (Problem.id (snd (crud.create_problem examples.empty_db 1
                          (examples.create_with (Some [])) 9)))
      (fst (crud.create_problem examples.empty_db 1 (examples.create_with (Some [])) 9))
      examples.alice = Return out
    /\ ProblemOut.knowledge_tags out = None
    /\ ProblemOut.knowledge_tags out
       <> ProblemCreate.knowledge_tags (examples.create_with (Some [])).
Proof.
  eexists. split; [reflexivity |]. split; [reflexivity | discriminate].
Qed.

(* ===================================================================== *)
(** ** C2: who may read a problem *)
(* ===================================================================== *)

(** C2 (read-ownership law).  For a stored problem and any authenticated
    caller, GET /problems/{id} succeeds when the problem has no owner or
    its owner is the caller, and fails with 403 when its owner is another
    user. *)
Theorem get_problem_ownership db problem_id p current_user :
  wf_db db ->
  crud.get_problem db problem_id = Some p ->
  (Problem.owner_id p = None \/ Problem.owner_id p = Some (User.id current_user) ->
   exists out, main.get_problem problem_id db current_user = Return out
               /\ ProblemOut.id out = problem_id)
  /\ (forall owner, Problem.owner_id p = Some owner -> owner <> User.id current_user ->
      main.get_problem problem_id db current_user
      = Raise (HTTPException 403 NoReadAccess)).
Proof.
  intros Hdb Hget. pose proof (get_problem_wf _ _ _ Hdb Hget) as Hwf.
  unfold main.get_problem. rewrite Hget. split.
  - intros Hown.
    destruct (from_orm_wf _ Hwf) as (out & Hout & Hid & _).
    exists out. rewrite Hout. rewrite Hid, (get_problem_id _ _ _ Hget).
    split; [| reflexivity].
    destruct Hown as [-> | ->]; [reflexivity |].
    unfold main.ne_int. rewrite Z.eqb_refl. cbn [negb].
    rewrite andb_false_r. reflexivity.
  - intros owner Ho Hne. destruct Hwf as (_ & _ & Hpos).
    rewrite Ho in *. cbn [main.truthy_int main.ne_int].
    destruct (Z.eqb_spec owner 0); [lia |].
    destruct (Z.eqb_spec owner (User.id current_user)); [contradiction |].
    reflexivity.
Qed.

Lemma wf_db0 : wf_db examples.db0.
Proof.
  split.
  - repeat constructor.
  - constructor; [| constructor; [| constructor]].
    + split; [| split; [left; reflexivity | reflexivity]].
      right. exists [py "algebra"; [20989%N; 25968%N]].
      split; [| reflexivity]. repeat constructor.
    + split; [left; reflexivity | split; [left; reflexivity | exact I]].
Qed.

Lemma get_problem_ownership_witness :
  (exists out, main.get_problem 1 examples.db0 examples.alice = Return out
               /\ ProblemOut.id out = 1)
  /\ main.get_problem 1 examples.db0 examples.bob = Raise (HTTPException 403 NoReadAccess).
Proof.
  split.
  - apply (get_problem_ownership examples.db0 1 examples.problem1 examples.alice
             wf_db0 eq_refl).
    right. reflexivity.
  - apply (get_problem_ownership examples.db0 1 examples.problem1 examples.bob
             wf_db0 eq_refl) with (owner := 1).
    + reflexivity.
    + discriminate.
Defined.

(** The ownership test of the read handler is a truthiness test, so an
    owner id of 0, which the store never assigns, would read as no owner. *)
Example owner_zero_reads_as_ownerless :
  exists out,
    main.get_problem 1
      {| users := [examples.alice];
         problems := [Problem.mk 1 (Some 0) (py "text") None None None None None None
                        None None false None None 0 0] |}
      examples.alice = Return out.
Proof. eexists. reflexivity. Qed.

(* ===================================================================== *)
(** ** C3: verify on a malformed hash *)
(* ===================================================================== *)

(** A hash that does not carry the prefix of the configured scheme is
    identified by no scheme: verify raises UnknownHashError, for every
    plaintext and every digest. *)
Lemma verify_password_unknown_hash checksum to_string from_string plain hashed :
  passlib.has_prefix passlib.pbkdf2_sha256_ident hashed = false ->
  crud.verify_password (passlib.pbkdf2_context checksum to_string from_string) plain hashed
  = Raise UnknownHashError.
Proof.
  intros H. unfold crud.verify_password, passlib.verify, passlib.pbkdf2_context.
  cbn [find passlib.identify passlib.pbkdf2_sha256]. rewrite H. reflexivity.
Qed.

(** A hash that carries the prefix and does not parse makes verify raise
    ValueError (the plaintext being one the handler accepts). *)
Lemma verify_password_malformed_hash checksum to_string from_string plain hashed :
  passlib.has_prefix passlib.pbkdf2_sha256_ident hashed = true ->
  from_string hashed = None ->
  (length plain <= passlib.MAX_PASSWORD_SIZE)%nat ->
  crud.verify_password (passlib.pbkdf2_context checksum to_string from_string) plain hashed
  = Raise ValueError.
Proof.
  intros Hp Hf Hl. unfold crud.verify_password, passlib.verify, passlib.pbkdf2_context.
  cbn [find passlib.identify passlib.pbkdf2_sha256]. rewrite Hp.
  cbn [passlib.hverify passlib.pbkdf2_sha256]. unfold passlib.validate_secret.
  destruct (Nat.ltb_spec passlib.MAX_PASSWORD_SIZE (length plain)); [lia |].
  cbn [bind]. rewrite Hf. reflexivity.
Qed.

(** C3, the code at the inputs where it departs from the claim.  The
    claim, like the docstring of verify_password (True on a match, False
    otherwise), is false for a malformed hash.  The string not-a-hash is
    not a hash of the configured scheme: verify raises UnknownHashError,
    whatever the digest.  A string that carries the scheme's prefix and
    nothing that parses makes it raise ValueError.  The double that
    conftest.py puts in place of verify returns False on the same input. *)
Theorem verify_password_raises_on_malformed_hash :
  (forall checksum to_string from_string,
     crud.verify_password (passlib.pbkdf2_context checksum to_string from_string)
       (py "secret123") (py "not-a-hash") = Raise UnknownHashError)
  /\ crud.verify_password examples.toy_context (py "secret123") (py "$pbkdf2-sha256$garbage")
     = Raise ValueError
  /\ conftest.mock_verify_password (py "secret123") (py "not-a-hash") = false.
Proof.
  split; [| split].
  - intros checksum to_string from_string. apply verify_password_unknown_hash.
    reflexivity.
  - apply verify_password_malformed_hash; [reflexivity | reflexivity |].
    cbn. unfold passlib.MAX_PASSWORD_SIZE. lia.
  - reflexivity.
Qed.

(** Under the test doubles of conftest.py verify never raises. *)
Lemma mock_verify_password_total plain hashed :
  crud.verify_password conftest.mock_context plain hashed
  = Return (conftest.mock_verify_password plain hashed).
Proof. reflexivity. Qed.

(* ===================================================================== *)
(** ** C4: the expiry boundary of a token *)
(* ===================================================================== *)

Lemma create_access_token_expiry key sign data expires_delta issued :
  main.create_access_token key sign data expires_delta issued
  = jose.encode sign (jose.sub data) (issued + lifetime expires_delta) key.
Proof.
  unfold main.create_access_token, lifetime, main.truthy_int.
  destruct expires_delta as [d |]; [| reflexivity].
  destruct (d =? 0); reflexivity.
Qed.

(** C4, as amended (token expiry boundary).  A token issued for a stored
    user resolves to that user at every verification time whose whole
    second is at most the embedded expiry, the expiry second included, and
    is rejected with 401 at every later time. *)
Theorem token_expiry_boundary key sign db user expires_delta issued now :
  crud.get_user_by_username db (User.username user) = Some user ->
  (timegm now <= timegm (issued + lifetime expires_delta) ->
   main.get_current_user key sign
     (main.create_access_token key sign
        {| jose.sub := Some (User.username user); jose.exp := None |} expires_delta issued)
     db now = Return user)
  /\ (timegm (issued + lifetime expires_delta) < timegm now ->
      main.get_current_user key sign
        (main.create_access_token key sign
           {| jose.sub := Some (User.username user); jose.exp := None |} expires_delta issued)
        db now = Raise (HTTPException 401 CouldNotValidateCredentials)).
Proof.
  intros Hu. rewrite create_access_token_expiry.
  unfold main.get_current_user, jose.encode, jose.decode, jose.validate_exp.
  rewrite str_eqb_refl. cbn [jose.exp jose.sub].
  split; intros H.
  - destruct (Z.ltb_spec (timegm (issued + lifetime expires_delta)) (timegm now)); [lia |].
    cbn [bind jose.sub]. rewrite Hu. reflexivity.
  - destruct (Z.ltb_spec (timegm (issued + lifetime expires_delta)) (timegm now)); [| lia].
    reflexivity.
Qed.

Lemma token_expiry_boundary_witness :
  main.get_current_user examples.KEY examples.tag_sign
    (main.create_access_token examples.KEY examples.tag_sign
       {| jose.sub := Some (py "alice"); jose.exp := None |} None 1500000)
    examples.db0 604801999999 = Return examples.alice
  /\ main.get_current_user examples.KEY examples.tag_sign
       (main.create_access_token examples.KEY examples.tag_sign
          {| jose.sub := Some (py "alice"); jose.exp := None |} None 1500000)
       examples.db0 604802000000
     = Raise (HTTPException 401 CouldNotValidateCredentials).
Proof.
  split.
  - apply (token_expiry_boundary examples.KEY examples.tag_sign examples.db0
             examples.alice None 1500000 604801999999 eq_refl).
    vm_compute. discriminate.
  - apply (token_expiry_boundary examples.KEY examples.tag_sign examples.db0
             examples.alice None 1500000 604802000000 eq_refl).
    vm_compute. reflexivity.
Defined.

(** The claim as stated fails at the boundary: verified exactly at the
    embedded expiry timestamp, the token is still accepted. *)
Lemma token_valid_at_expiry :
  timegm (0 + minutes main.ACCESS_TOKEN_EXPIRE_MINUTES) = 604800
  /\ timegm 604800000000 = 604800
  /\ main.get_current_user examples.KEY examples.tag_sign
       (main.create_access_token examples.KEY examples.tag_sign
          {| jose.sub := Some (py "alice"); jose.exp := None |} None 0)
       examples.db0 604800000000 = Return examples.alice.
Proof. repeat split. Qed.

(* ===================================================================== *)
(** ** C5: the frame of a partial update *)
(* ===================================================================== *)

Lemma find_map_update {A} (f : A -> bool) (g : A -> A) l :
  (forall x, f (g x) = f x) ->
  find f (map (fun x => if f x then g x else x) l) = option_map g (find f l).
Proof.
  intros Hg. induction l as [| x l IH]; [reflexivity |].
  cbn [map find]. destruct (f x) eqn:E.
  - rewrite Hg, E. reflexivity.
  - rewrite E. exact IH.
Qed.

Lemma flush_id p u now : Problem.id (crud.flush p u now) = Problem.id p.
Proof. unfold crud.flush. destruct (Problem_eqb p (crud.assign p u)); reflexivity. Qed.

Lemma flush_untouched p u now : untouched u p (crud.flush p u now).
Proof.
  unfold crud.flush, untouched.
  destruct (Problem_eqb p (crud.assign p u)).
  - repeat split; intros; reflexivity.
  - cbn. repeat split; intros H; rewrite H; reflexivity.
Qed.

Lemma flush_subject_only p X now :
  same_but_subject p (crud.flush p (subject_only X) now).
Proof.
  unfold crud.flush, same_but_subject.
  destruct (Problem_eqb p (crud.assign p (subject_only X))); cbn; repeat split.
Qed.

Lemma opt_eqb_str_eq a b : opt_eqb str_eqb a b = true -> a = b.
Proof.
  destruct a, b; cbn; intros H; try discriminate; [| reflexivity].
  apply str_eqb_eq in H. congruence.
Qed.

Lemma flush_subject p X now : Problem.subject (crud.flush p (subject_only X) now) = Some X.
Proof.
  unfold crud.flush.
  destruct (Problem_eqb p (crud.assign p (subject_only X))) eqn:E; [| reflexivity].
  unfold Problem_eqb in E. repeat (apply andb_true_iff in E; destruct E as [E ?]).
  match goal with
  | H : opt_eqb str_eqb (Problem.subject p) _ = true |- _ => apply opt_eqb_str_eq in H; exact H
  end.
Qed.

(** What update_problem returns is the flushed row, and it is the row
    the id finds afterwards. *)
Lemma update_problem_returns_flushed db problem_id p u now :
  crud.get_problem db problem_id = Some p ->
  crud.update_problem db problem_id u now
  = (fst (crud.update_problem db problem_id u now), Some (crud.flush p u now))
  /\ crud.get_problem (fst (crud.update_problem db problem_id u now)) problem_id
     = Some (crud.flush p u now).
Proof.
  intros Hget. unfold crud.update_problem, crud.get_problem in *.
  rewrite Hget. cbn [fst problems]. split; [reflexivity |].
  rewrite (find_map_update (fun q => Problem.id q =? problem_id)
             (fun q => crud.flush q u now)).
  - rewrite Hget. reflexivity.
  - intros x. rewrite flush_id. reflexivity.
Qed.

(** Rows with another id are not written. *)
Lemma update_problem_other db problem_id u now other :
  other <> problem_id ->
  crud.get_problem (fst (crud.update_problem db problem_id u now)) other
  = crud.get_problem db other.
Proof.
  intros Hne. unfold crud.update_problem.
  destruct (find (fun p => Problem.id p =? problem_id) (problems db)); [| reflexivity].
  unfold crud.get_problem. cbn [fst problems].
  induction (problems db) as [| q l IH]; [reflexivity |].
  cbn [map find]. destruct (Z.eqb_spec (Problem.id q) problem_id) as [Eq | Eq].
  - rewrite flush_id. destruct (Z.eqb_spec (Problem.id q) other); [lia | exact IH].
  - destruct (Problem.id q =? other); [reflexivity | exact IH].
Qed.

(** C5 (partial-update frame law).  For a stored problem, the update
    {subject: X} sets subject to X and changes nothing else except
    possibly updated_at; for any payload, the columns no payload names and
    the columns whose payload field is absent keep their values; users and
    the other problems are not written. *)
Theorem update_problem_frame db problem_id p problem_in X now :
  crud.get_problem db problem_id = Some p ->
  (exists q,
      crud.update_problem db problem_id (subject_only X) now
      = (fst (crud.update_problem db problem_id (subject_only X) now), Some q)
      /\ crud.get_problem (fst (crud.update_problem db problem_id (subject_only X) now))
                          problem_id = Some q
      /\ Problem.subject q = Some X
      /\ same_but_subject p q)
  /\ (exists q,
      crud.update_problem db problem_id problem_in now
      = (fst (crud.update_problem db problem_id problem_in now), Some q)
      /\ crud.get_problem (fst (crud.update_problem db problem_id problem_in now))
                          problem_id = Some q
      /\ untouched problem_in p q)
  /\ users (fst (crud.update_problem db problem_id problem_in now)) = users db
  /\ (forall other, other <> problem_id ->
      crud.get_problem (fst (crud.update_problem db problem_id problem_in now)) other
      = crud.get_problem db other).
Proof.
  intros Hget.
  split; [| split; [| split]].
  - exists (crud.flush p (subject_only X) now).
    destruct (update_problem_returns_flushed db problem_id p (subject_only X) now Hget)
      as [H1 H2].
    split; [exact H1 | split; [exact H2 | split]].
    + apply flush_subject.
    + apply flush_subject_only.
  - exists (crud.flush p problem_in now).
    destruct (update_problem_returns_flushed db problem_id p problem_in now Hget)
      as [H1 H2].
    split; [exact H1 | split; [exact H2 | apply flush_untouched]].
  - unfold crud.update_problem. unfold crud.get_problem in Hget. rewrite Hget. reflexivity.
  - intros other Hne. apply update_problem_other. exact Hne.
Qed.

Lemma update_problem_frame_witness :
  exists q,
    crud.get_problem (fst (crud.update_problem examples.db0 1 (subject_only (py "X")) 9)) 1
    = Some q
    /\ Problem.subject q = Some (py "X")
    /\ same_but_subject examples.problem1 q.
Proof.
  destruct (update_problem_frame examples.db0 1 examples.problem1
              (subject_only (py "X")) (py "X") 9 eq_refl) as [(q & _ & H1 & H2 & H3) _].
  exists q. auto.
Defined.

(* ===================================================================== *)
(** ** C6: authenticate *)
(* ===================================================================== *)

Lemma find_map_preserved {A} (f : A -> bool) (g : A -> A) l :
  (forall x, f (g x) = f x) -> find f (map g l) = option_map g (find f l).
Proof.
  intros Hg. induction l as [| x l IH]; [reflexivity |].
  cbn [map find]. rewrite Hg. destruct (f x); [reflexivity | exact IH].
Qed.

(** Banning or unbanning changes the looked-up row in its flag only. *)
Lemma get_user_by_username_set_active db user_id active username :
  crud.get_user_by_username (fst (crud.set_user_active db user_id active)) username
  = option_map (fun u => if User.id u =? user_id then User.set_is_active u active else u)
      (crud.get_user_by_username db username).
Proof.
  unfold crud.set_user_active, crud.get_user_by_username.
  destruct (find (fun u => User.id u =? user_id) (users db)) as [found |] eqn:E;
    cbn [fst users].
  - apply find_map_preserved. intros u. destruct (User.id u =? user_id); reflexivity.
  - destruct (find (fun u => str_eqb (User.username u) username) (users db))
      as [u |] eqn:F; [| reflexivity].
    cbn [option_map]. apply find_some in F. destruct F as [Hin _].
    pose proof (find_none _ _ E u Hin) as Hn. cbn beta in Hn. rewrite Hn. reflexivity.
Qed.

Lemma authenticate_user_unfold pwd_context db username password :
  crud.authenticate_user pwd_context db username password =
  match crud.get_user_by_username db username with
  | None => Return None
  | Some user =>
      match crud.verify_password pwd_context password (User.hashed_password user) with
      | Return true => Return (Some user)
      | Return false => Return None
      | Raise e => Raise e
      end
  end.
Proof.
  unfold crud.authenticate_user.
  destruct (crud.get_user_by_username db username) as [user |]; [| reflexivity].
  destruct (crud.verify_password pwd_context password (User.hashed_password user))
    as [[|] | e]; reflexivity.
Qed.

(** The part of the claim that holds.  When verify returns a boolean
    for the stored hash of the named user, authenticate returns the
    matching user exactly when the username exists and the password
    verifies, and absent otherwise; toggling any user's active flag changes
    nothing in the outcome but that flag, so an inactive user with the
    right password still authenticates. *)
Lemma authenticate_user_correct pwd_context db username password :
  (forall user, crud.get_user_by_username db username = Some user ->
     exists ok, crud.verify_password pwd_context password (User.hashed_password user)
                = Return ok) ->
  crud.authenticate_user pwd_context db username password
  = Return (authenticate_spec pwd_context db username password)
  /\ (forall user,
      crud.authenticate_user pwd_context db username password = Return (Some user)
      <-> crud.get_user_by_username db username = Some user
          /\ crud.verify_password pwd_context password (User.hashed_password user)
             = Return true)
  /\ (forall user_id active,
      forget_active (crud.authenticate_user pwd_context
                       (fst (crud.set_user_active db user_id active)) username password)
      = forget_active (crud.authenticate_user pwd_context db username password)).
Proof.
  intros Hok. split; [| split].
  - rewrite authenticate_user_unfold. unfold authenticate_spec.
    destruct (crud.get_user_by_username db username) as [user |]; [| reflexivity].
    destruct (Hok user eq_refl) as [ok ->]. destruct ok; reflexivity.
  - intros user. rewrite authenticate_user_unfold.
    destruct (crud.get_user_by_username db username) as [found |].
    + destruct (crud.verify_password pwd_context password (User.hashed_password found))
        as [[|] | e] eqn:E; split.
      * intros H. injection H as <-. auto.
      * intros [H _]. injection H as <-. reflexivity.
      * discriminate.
      * intros [H V]. injection H as <-. congruence.
      * discriminate.
      * intros [H V]. injection H as <-. congruence.
    + split; [discriminate | intros [H _]; discriminate].
  - intros user_id active. rewrite !authenticate_user_unfold.
    rewrite get_user_by_username_set_active.
    destruct (crud.get_user_by_username db username) as [user |]; [| reflexivity].
    cbn [option_map].
    destruct (User.id user =? user_id); [| reflexivity].
    change (User.hashed_password (User.set_is_active user active))
      with (User.hashed_password user).
    destruct (crud.verify_password pwd_context password (User.hashed_password user))
      as [[|] | e]; reflexivity.
Qed.

Lemma authenticate_user_correct_witness :
  crud.authenticate_user conftest.mock_context examples.db0 (py "bob") (py "hunter2")
  = Return (Some examples.bob)
  /\ User.is_active examples.bob = false
  /\ crud.authenticate_user conftest.mock_context examples.db0 (py "bob") (py "wrong")
     = Return None
  /\ crud.authenticate_user conftest.mock_context examples.db0 (py "carol") (py "hunter2")
     = Return None.
Proof.
  assert (H : forall name password user,
             crud.get_user_by_username examples.db0 name = Some user ->
             exists ok, crud.verify_password conftest.mock_context password
                          (User.hashed_password user) = Return ok).
  { intros name password user _. eexists. apply mock_verify_password_total. }
  split; [| split; [reflexivity | split]].
  - destruct (authenticate_user_correct conftest.mock_context examples.db0
                (py "bob") (py "hunter2") (H _ _)) as [E _].
    rewrite E. reflexivity.
  - destruct (authenticate_user_correct conftest.mock_context examples.db0
                (py "bob") (py "wrong") (H _ _)) as [E _].
    rewrite E. reflexivity.
  - destruct (authenticate_user_correct conftest.mock_context examples.db0
                (py "carol") (py "hunter2") (H _ _)) as [E _].
    rewrite E. reflexivity.
Defined.

(** A password over passlib's size limit makes verify raise before any
    digest is compared, whenever the stored hash is one of the scheme. *)
Lemma authenticate_user_long_password checksum to_string from_string db username password u :
  sqlite3.encodable username = true ->
  crud.get_user_by_username db username = Some u ->
  passlib.has_prefix passlib.pbkdf2_sha256_ident (User.hashed_password u) = true ->
  (passlib.MAX_PASSWORD_SIZE < length password)%nat ->
  crud_db.authenticate_user (passlib.pbkdf2_context checksum to_string from_string)
    db username password = Raise PasswordSizeError.
Proof.
  intros He Hu Hp Hl.
  unfold crud_db.authenticate_user, crud_db.get_user_by_username, sqlite3.bind_text.
  rewrite He. cbn [bind]. rewrite Hu.
  unfold crud.verify_password, passlib.verify, passlib.pbkdf2_context.
  cbn [find passlib.identify passlib.pbkdf2_sha256]. rewrite Hp.
  cbn [passlib.hverify passlib.pbkdf2_sha256]. unfold passlib.validate_secret.
  apply Nat.ltb_lt in Hl. rewrite Hl. reflexivity.
Qed.

Lemma authenticate_user_unknown pwd_context db username password :
  sqlite3.encodable username = true ->
  crud.get_user_by_username db username = None ->
  crud_db.authenticate_user pwd_context db username password = Return None.
Proof.
  intros He Hu.
  unfold crud_db.authenticate_user, crud_db.get_user_by_username, sqlite3.bind_text.
  rewrite He. cbn [bind]. rewrite Hu. reflexivity.
Qed.

Lemma long_password_length :
  (passlib.MAX_PASSWORD_SIZE < length examples.long_password)%nat.
Proof. apply Nat.ltb_lt. vm_compute. reflexivity. Qed.

(** C6, the code at the input where it departs from the claim.  The claim,
    like the docstring of authenticate_user (the user on success, None on
    failure), has one answer for an unknown username and for a wrong
    password.  With a wrong password of 4097 characters they differ, under
    every digest: for the stored user dave verify raises PasswordSizeError
    and authenticate with it, for an unknown name authenticate returns
    None; login answers 500 for the one and 400 for the other.  A wrong
    password of ordinary length and the right one behave as claimed. *)
Theorem authenticate_user_raises_on_long_password :
  (forall checksum to_string from_string,
     crud_db.authenticate_user (passlib.pbkdf2_context checksum to_string from_string)
       examples.db2 (py "dave") examples.long_password = Raise PasswordSizeError
     /\ crud_db.authenticate_user (passlib.pbkdf2_context checksum to_string from_string)
          examples.db2 (py "nobody") examples.long_password = Return None)
  /\ crud_db.authenticate_user examples.toy_context examples.db2 (py "dave") (py "wrong")
     = Return None
  /\ crud_db.authenticate_user examples.toy_context examples.db2 (py "dave")
       (py "opensesame") = Return (Some examples.dave)
  /\ status_of (main_db.login examples.KEY examples.tag_sign examples.toy_context
                  (py "dave") examples.long_password examples.db2 0) = 500
  /\ status_of (main_db.login examples.KEY examples.tag_sign examples.toy_context
                  (py "nobody") examples.long_password examples.db2 0) = 400.
Proof.
  split; [| split; [| split; [| split]]].
  - intros checksum to_string from_string. split.
    + apply (authenticate_user_long_password checksum to_string from_string
               examples.db2 (py "dave") examples.long_password examples.dave);
        [reflexivity | reflexivity | reflexivity | exact long_password_length].
    + apply authenticate_user_unknown; reflexivity.
  - vm_compute. reflexivity.
  - vm_compute. reflexivity.
  - unfold main_db.login, examples.toy_context.
    rewrite (authenticate_user_long_password examples.toy_checksum examples.toy_to_string
               examples.toy_from_string examples.db2 (py "dave") examples.long_password
               examples.dave eq_refl eq_refl eq_refl long_password_length).
    reflexivity.
  - unfold main_db.login.
    rewrite (authenticate_user_unknown examples.toy_context examples.db2 (py "nobody")
               examples.long_password eq_refl eq_refl).
    reflexivity.
Qed.

(* ===================================================================== *)
(** ** C7: what an upload rejects *)
(* ===================================================================== *)

Lemma upload_requires_content
    raw source_type subject course problem_type knowledge_tags difficulty tags notes
    db current_user now :
  truthy_str raw = false ->
  main.upload_problem raw None source_type subject course problem_type
    knowledge_tags difficulty tags notes db current_user now
  = (db, Raise (HTTPException 400 MissingContent)).
Proof. intros H. unfold main.upload_problem. rewrite H. reflexivity. Qed.

Lemma parse_tag_field_undecodable s d :
  s <> [] -> json.loads s = Raise JSONDecodeError ->
  main.parse_tag_field (Some s) d = Raise (HTTPException 400 d).
Proof.
  intros Hne H. unfold main.parse_tag_field. rewrite H.
  destruct s; [congruence | reflexivity].
Qed.

(** Text that is not JSON at all in knowledge_tags gives 400. *)
Lemma upload_rejects_undecodable_knowledge_tags
    raw_text source_type subject course problem_type s difficulty tags notes
    db current_user now :
  raw_text <> [] -> s <> [] -> json.loads s = Raise JSONDecodeError ->
  main.upload_problem (Some raw_text) None source_type subject course problem_type
    (Some s) difficulty tags notes db current_user now
  = (db, Raise (HTTPException 400 KnowledgeTagsNotJSON)).
Proof.
  intros Hraw Hs H. unfold main.upload_problem.
  destruct raw_text; [congruence |]. cbn [truthy_str negb andb main.stored_content bind].
  rewrite parse_tag_field_undecodable by assumption. reflexivity.
Qed.

(** The same for tags, once knowledge_tags is absent. *)
Lemma upload_rejects_undecodable_tags
    raw_text source_type subject course problem_type s difficulty notes
    db current_user now :
  raw_text <> [] -> s <> [] -> json.loads s = Raise JSONDecodeError ->
  main.upload_problem (Some raw_text) None source_type subject course problem_type
    None difficulty (Some s) notes db current_user now
  = (db, Raise (HTTPException 400 TagsNotJSON)).
Proof.
  intros Hraw Hs H. unfold main.upload_problem.
  destruct raw_text; [congruence |]. cbn [truthy_str negb andb main.stored_content bind].
  change (main.parse_tag_field None KnowledgeTagsNotJSON) with (Return json.PyNone).
  cbn [bind].
  rewrite parse_tag_field_undecodable by assumption. reflexivity.
Qed.

(** C7, the code at the inputs where it departs from the claim: a
    knowledge_tags field holding JSON that is not an array is not answered
    with 400.  The number 123 passes json.loads and fails the validation of
    ProblemCreate, an uncaught error (500); null passes as an absent list
    (200).  Text that is not JSON is answered with 400 as claimed. *)
Theorem upload_non_array_tags_not_rejected :
  snd (main.upload_problem (Some (py "2+2=?")) None (py "text") None None None
         (Some (py "123")) None None None examples.db0 examples.alice 9)
  = Raise ValidationError
  /\ status_of (snd (main.upload_problem (Some (py "2+2=?")) None (py "text") None None None
                       (Some (py "123")) None None None examples.db0 examples.alice 9))
     = 500
  /\ status_of (snd (main.upload_problem (Some (py "2+2=?")) None (py "text") None None None
                       (Some (py "null")) None None None examples.db0 examples.alice 9))
     = 200
  /\ status_of (snd (main.upload_problem (Some (py "2+2=?")) None (py "text") None None None
                       (Some (py "not json")) None None None examples.db0 examples.alice 9))
     = 400.
Proof. repeat split. Qed.

(* ===================================================================== *)
(** ** C8: who may update a problem *)
(* ===================================================================== *)

Lemma ne_int_false a b : main.ne_int a b = false <-> a = Some b.
Proof.
  unfold main.ne_int. destruct a as [n |]; split; intros H; try discriminate.
  - apply negb_false_iff, Z.eqb_eq in H. congruence.
  - injection H as ->. rewrite Z.eqb_refl. reflexivity.
Qed.

(** The handler over [crud]: 404 for an id the query does not find, 403
    whenever the problem's owner is not the caller (an ownerless problem
    included), the store as it was in both cases, and success only on a
    problem whose owner is the caller. *)
Lemma update_problem_strict_ownership problem_id problem_in db current_user now :
  (crud.get_problem db problem_id = None ->
   main.update_problem problem_id problem_in db current_user now
   = (db, Raise (HTTPException 404 ProblemNotFound)))
  /\ (forall p, crud.get_problem db problem_id = Some p ->
      Problem.owner_id p <> Some (User.id current_user) ->
      main.update_problem problem_id problem_in db current_user now
      = (db, Raise (HTTPException 403 NoWriteAccess)))
  /\ (forall db' out,
      main.update_problem problem_id problem_in db current_user now = (db', Return out) ->
      exists p, crud.get_problem db problem_id = Some p
                /\ Problem.owner_id p = Some (User.id current_user)).
Proof.
  unfold main.update_problem. repeat split.
  - intros ->. reflexivity.
  - intros p -> Hne.
    destruct (main.ne_int (Problem.owner_id p) (User.id current_user)) eqn:E;
      [reflexivity |].
    apply ne_int_false in E. contradiction.
  - intros db' out.
    destruct (crud.get_problem db problem_id) as [p |]; [| discriminate].
    destruct (main.ne_int (Problem.owner_id p) (User.id current_user)) eqn:E;
      [discriminate |].
    apply ne_int_false in E. intros _. exists p. split; [reflexivity | exact E].
Qed.

(** The same of the handler as it runs, for an id the driver binds. *)
Lemma patch_strict_ownership problem_id problem_in db current_user now :
  sqlite3.in_int64 problem_id = true ->
  (crud.get_problem db problem_id = None ->
   main_db.update_problem problem_id problem_in db current_user now
   = (db, Raise (HTTPException 404 ProblemNotFound)))
  /\ (forall p, crud.get_problem db problem_id = Some p ->
      Problem.owner_id p <> Some (User.id current_user) ->
      main_db.update_problem problem_id problem_in db current_user now
      = (db, Raise (HTTPException 403 NoWriteAccess)))
  /\ (forall db' out,
      main_db.update_problem problem_id problem_in db current_user now = (db', Return out) ->
      exists p, crud.get_problem db problem_id = Some p
                /\ Problem.owner_id p = Some (User.id current_user)).
Proof.
  intros Hid. unfold main_db.update_problem, crud_db.get_problem, sqlite3.bind_int.
  rewrite Hid. cbn [bind]. split; [| split].
  - intros ->. reflexivity.
  - intros p -> Hne.
    destruct (main.ne_int (Problem.owner_id p) (User.id current_user)) eqn:E;
      [reflexivity |].
    apply ne_int_false in E. contradiction.
  - intros db' out.
    destruct (crud.get_problem db problem_id) as [p |]; [| discriminate].
    destruct (main.ne_int (Problem.owner_id p) (User.id current_user)) eqn:E;
      [discriminate |].
    apply ne_int_false in E. intros _. exists p. split; [reflexivity | exact E].
Qed.

(** An id the driver does not bind never reaches the lookup: the query
    raises, whatever the store holds. *)
Lemma patch_out_of_range problem_id problem_in db current_user now :
  sqlite3.in_int64 problem_id = false ->
  main_db.update_problem problem_id problem_in db current_user now
  = (db, Raise OverflowError).
Proof.
  intros Hid. unfold main_db.update_problem, crud_db.get_problem, sqlite3.bind_int.
  rewrite Hid. reflexivity.
Qed.

(** C8, the code at the input where it departs from the claim.  The claim
    is 404 for an unknown id.  The id 2^63 is unknown to the example
    store, yet PATCH on it is not answered 404: the lookup raises
    OverflowError while binding the id, nothing catches it, and the client
    sees 500.  An unknown id the driver binds is answered 404, and the
    ownership part of the claim holds as stated ([patch_strict_ownership]). *)
Theorem patch_unknown_id_not_404 :
  crud.get_problem examples.db0 (2 ^ 63) = None
  /\ main_db.update_problem (2 ^ 63) (subject_only (py "X")) examples.db0 examples.alice 9
     = (examples.db0, Raise OverflowError)
  /\ status_of (snd (main_db.update_problem (2 ^ 63) (subject_only (py "X"))
                       examples.db0 examples.alice 9)) = 500
  /\ main_db.update_problem 7 (subject_only (py "X")) examples.db0 examples.alice 9
     = (examples.db0, Raise (HTTPException 404 ProblemNotFound)).
Proof.
  assert (H : main_db.update_problem (2 ^ 63) (subject_only (py "X"))
                examples.db0 examples.alice 9 = (examples.db0, Raise OverflowError)).
  { apply patch_out_of_range. reflexivity. }
  split; [reflexivity |]. split; [exact H |]. split.
  - rewrite H. reflexivity.
  - apply (patch_strict_ownership 7 (subject_only (py "X")) examples.db0
             examples.alice 9 eq_refl).
    reflexivity.
Qed.

(* ===================================================================== *)
(** ** C9: registering a taken username *)
(* ===================================================================== *)

(** C9 (duplicate registration).  When the username is already in the
    store, register fails with 400 (username already registered) and the
    store, hence the stored record, is exactly what it was. *)
Theorem register_duplicate pwd_context user_in db uuid salt now existing :
  crud.get_user_by_username db (UserCreate.username user_in) = Some existing ->
  main.register pwd_context user_in db uuid salt now
  = (db, Raise (HTTPException 400 UsernameAlreadyRegistered))
  /\ crud.get_user_by_username
       (fst (main.register pwd_context user_in db uuid salt now))
       (UserCreate.username user_in) = Some existing.
Proof.
  intros H. unfold main.register. rewrite H. cbn [fst]. auto.
Qed.

Lemma register_duplicate_witness :
  main.register conftest.mock_context
    (UserCreate.mk (py "alice") (py "other-password") None) examples.db0
    (py "uuid-new") (py "salt") 77
  = (examples.db0, Raise (HTTPException 400 UsernameAlreadyRegistered))
  /\ crud.get_user_by_username
       (fst (main.register conftest.mock_context
               (UserCreate.mk (py "alice") (py "other-password") None) examples.db0
               (py "uuid-new") (py "salt") 77))
       (py "alice") = Some examples.alice.
Proof.
  apply (register_duplicate conftest.mock_context
           (UserCreate.mk (py "alice") (py "other-password") None) examples.db0
           (py "uuid-new") (py "salt") 77 examples.alice).
  reflexivity.
Defined.

(* ===================================================================== *)
(** ** C10: empty form fields *)
(* ===================================================================== *)

(** C10 (empty form fields are absent).  With raw empty and no file the
    upload is rejected as missing content; an empty knowledge_tags or tags
    field behaves exactly as one that was not sent, and what such an upload
    stores in that column is NULL. *)
Theorem upload_empty_fields_absent
    raw file source_type subject course problem_type knowledge_tags difficulty tags notes
    db current_user now :
  main.upload_problem (Some []) None source_type subject course problem_type
    knowledge_tags difficulty tags notes db current_user now
  = (db, Raise (HTTPException 400 MissingContent))
  /\ main.upload_problem raw file source_type subject course problem_type
       (Some []) difficulty tags notes db current_user now
     = main.upload_problem raw file source_type subject course problem_type
         None difficulty tags notes db current_user now
  /\ main.upload_problem raw file source_type subject course problem_type
       knowledge_tags difficulty (Some []) notes db current_user now
     = main.upload_problem raw file source_type subject course problem_type
         knowledge_tags difficulty None notes db current_user now
  /\ (forall db' out,
      main.upload_problem raw file source_type subject course problem_type
        (Some []) difficulty (Some []) notes db current_user now = (db', Return out) ->
      exists p, crud.get_problem db' (ProblemOut.id out) = Some p
                /\ Problem.knowledge_tags p = None /\ Problem.tags p = None
                /\ ProblemOut.knowledge_tags out = None /\ ProblemOut.tags out = None).
Proof.
  split; [reflexivity | split; [reflexivity | split; [reflexivity |]]].
  intros db' out. unfold main.upload_problem.
  destruct (negb (truthy_str raw) && negb (main.truthy_file file)); [discriminate |].
  destruct (main.stored_content raw file) as [[raw_store fc] | e]; cbn; [| discriminate].
  destruct raw_store as [raw_text |]; cbn; [| discriminate].
  intros H. injection H as <- <-.
  eexists. split.
  - exact (get_problem_after_create db (User.id current_user)
             (ProblemCreate.mk source_type raw_text fc subject course problem_type
                None difficulty None notes) now).
  - cbn. repeat split.
Qed.

Lemma upload_empty_fields_absent_witness :
  exists p,
    crud.get_problem
      (fst (main.upload_problem (Some (py "2+2=?")) None (py "text") None None None
              (Some []) None (Some []) None examples.db0 examples.alice 9)) 3 = Some p
    /\ Problem.knowledge_tags p = None /\ Problem.tags p = None.
Proof.
  destruct (upload_empty_fields_absent (Some (py "2+2=?")) None (py "text") None None None
              None None None None examples.db0 examples.alice 9)
    as (_ & _ & _ & H).
  destruct (H _ _ eq_refl) as (p & H1 & H2 & H3 & _).
  exists p. auto.
Defined.

(* ===================================================================== *)
(** ** Further facts about the handlers *)
(* ===================================================================== *)

(** Over [crud]: an upload whose content is there and whose tag fields
    decode to lists of strings (or are absent) succeeds, and answers with
    the lists as they read back. *)
Lemma upload_valid_succeeds raw file source_type subject course problem_type
    knowledge_tags difficulty tags notes db current_user now raw_store fc vk lk vt lt :
  negb (truthy_str raw) && negb (main.truthy_file file) = false ->
  main.stored_content raw file = Return (Some raw_store, fc) ->
  text_field knowledge_tags -> text_field tags ->
  main.parse_tag_field knowledge_tags KnowledgeTagsNotJSON = Return vk ->
  validate_optional_list_str vk = Return lk ->
  main.parse_tag_field tags TagsNotJSON = Return vt ->
  validate_optional_list_str vt = Return lt ->
  exists out,
    snd (main.upload_problem raw file source_type subject course problem_type
           knowledge_tags difficulty tags notes db current_user now) = Return out
    /\ ProblemOut.knowledge_tags out = read_back lk
    /\ ProblemOut.tags out = read_back lt.
Proof.
  intros Hc Hs Tk Tt Pk Vk Pt Vt. unfold main.upload_problem.
  rewrite Hc, Hs. cbn [bind]. rewrite Pk. cbn [bind]. rewrite Pt. cbn [bind].
  unfold ProblemCreate.init. rewrite Vk. cbn [bind]. rewrite Vt. cbn [bind snd].
  pose proof (validate_optional_list_str_ok _ _ (parse_tag_field_ok _ _ _ Tk Pk) Vk) as Wk.
  pose proof (validate_optional_list_str_ok _ _ (parse_tag_field_ok _ _ _ Tt Pt) Vt) as Wt.
  eexists. split.
  - apply from_orm_columns; cbn [crud.create_problem snd Problem.knowledge_tags
      Problem.tags ProblemCreate.knowledge_tags ProblemCreate.tags];
      apply decode_column_created; assumption.
  - cbn. auto.
Qed.

(** Over [crud]: the owner's PATCH succeeds on a well-formed store, and
    answers with the problem of the id that was asked for. *)
Lemma update_problem_by_owner_succeeds problem_id problem_in db current_user now p :
  wf_db db -> wf_update problem_in ->
  crud.get_problem db problem_id = Some p ->
  Problem.owner_id p = Some (User.id current_user) ->
  exists out,
    snd (main.update_problem problem_id problem_in db current_user now) = Return out
    /\ ProblemOut.id out = problem_id.
Proof.
  intros Hdb Hu Hget Hown. unfold main.update_problem. rewrite Hget.
  apply ne_int_false in Hown. rewrite Hown.
  destruct (update_problem_returns_flushed db problem_id p problem_in now Hget) as [E Hq].
  rewrite E. cbn [snd].
  pose proof (get_problem_wf _ _ _ (update_problem_wf db problem_id problem_in now Hdb Hu) Hq)
    as Hwf.
  destruct (from_orm_wf _ Hwf) as (out & Hout & Hid & _).
  exists out. split; [exact Hout |].
  rewrite Hid. exact (get_problem_id _ _ _ Hq).
Qed.

(** Where the codec does not preserve a string: a high surrogate followed
    by a low one is written as two escapes and read back as one code
    point. *)
Example surrogate_pair_joined :
  json.loads (json.dumps [[55357%N; 56832%N]])
  = Return (json.PyList [json.PyStr [128512%N]]).
Proof. reflexivity. Qed.

(** The update path, unlike create, stores an empty list as the text of an
    empty array, which reads back as the empty list. *)
Example update_keeps_empty_list :
  exists q out,
    crud.update_problem examples.db0 1
      (ProblemUpdate.mk None None None (Some []) None None None None) 9
    = (fst (crud.update_problem examples.db0 1
              (ProblemUpdate.mk None None None (Some []) None None None None) 9), Some q)
    /\ Problem.knowledge_tags q = Some (py "[]")
    /\ ProblemOut.from_orm q = Return out
    /\ ProblemOut.knowledge_tags out = Some [].
Proof. do 2 eexists. repeat split. Qed.

(** Register, log in, present the token: the caller is resolved to the
    registered user (run with the conftest doubles). *)
Example register_login_me :
  let user_in := UserCreate.mk (py "alice") (py "secret123") None in
  let db := fst (main.register conftest.mock_context user_in examples.empty_db
                   (py "uuid-alice") (py "salt") 0) in
  exists token user,
    main.login examples.KEY examples.tag_sign conftest.mock_context
      (py "alice") (py "secret123") db 10 = Return token
    /\ main.get_current_user examples.KEY examples.tag_sign token db 20 = Return user
    /\ User.username user = py "alice"
    /\ main.login examples.KEY examples.tag_sign conftest.mock_context
         (py "alice") (py "wrong") db 10
       = Raise (HTTPException 400 IncorrectUsernameOrPassword).
Proof. do 2 eexists. repeat split. Qed.

(* ===================================================================== *)
(** ** Users, tokens and bans *)
(* ===================================================================== *)

(** *** Users and tokens *)

Lemma find_app {A} (f : A -> bool) l1 l2 :
  find f (l1 ++ l2) = match find f l1 with
                      | Some x => Some x
                      | None => find f l2
                      end.
Proof.
  induction l1 as [| x l1 IH]; [reflexivity |].
  cbn [app find]. destruct (f x); [reflexivity | exact IH].
Qed.

Lemma existsb_false {A} (f : A -> bool) l :
  (forall x, In x l -> f x = false) -> existsb f l = false.
Proof.
  intros H. induction l as [| x l IH]; [reflexivity |].
  cbn [existsb]. rewrite (H x (or_introl eq_refl)). apply IH.
  intros y Hy. apply H. right. exact Hy.
Qed.

Lemma str_eqb_neq a b : a <> b -> str_eqb a b = false.
Proof.
  intros H. destruct (str_eqb a b) eqn:E; [| reflexivity].
  apply str_eqb_eq in E. contradiction.
Qed.

Lemma get_user_by_username_some db username u :
  crud.get_user_by_username db username = Some u ->
  In u (users db) /\ User.username u = username.
Proof.
  unfold crud.get_user_by_username. intros H. apply find_some in H.
  destruct H as [Hin H]. apply str_eqb_eq in H. auto.
Qed.

Lemma get_user_by_username_none db username u :
  crud.get_user_by_username db username = None ->
  In u (users db) -> User.username u <> username.
Proof.
  unfold crud.get_user_by_username. intros H Hin E.
  pose proof (find_none _ _ H u Hin) as Hn. cbn beta in Hn.
  rewrite E, str_eqb_refl in Hn. discriminate.
Qed.

(** A registration under a fresh username and uuid appends the user. *)
Lemma register_fresh pwd_context user_in db uuid salt now hashed :
  crud.get_user_by_username db (UserCreate.username user_in) = None ->
  (forall u, In u (users db) -> User.uuid u <> uuid) ->
  crud.get_password_hash pwd_context (UserCreate.password user_in) salt = Return hashed ->
  main.register pwd_context user_in db uuid salt now
  = ({| users := users db
                 ++ [User.mk (next_id (map User.id (users db))) uuid
                       (UserCreate.username user_in) hashed
                       (UserCreate.nickname user_in) true false now];
        problems := problems db |},
     Return (User.mk (next_id (map User.id (users db))) uuid
               (UserCreate.username user_in) hashed
               (UserCreate.nickname user_in) true false now)).
Proof.
  intros Hnone Huuid Hhash.
  unfold main.register. rewrite Hnone. unfold crud.create_user. rewrite Hhash.
  rewrite existsb_false; [reflexivity |].
  intros u Hin. cbn [User.username]. apply orb_false_iff. split.
  - apply str_eqb_neq. eapply get_user_by_username_none; eassumption.
  - apply str_eqb_neq. apply Huuid. exact Hin.
Qed.

Lemma get_user_by_username_appended db user :
  crud.get_user_by_username db (User.username user) = None ->
  crud.get_user_by_username {| users := users db ++ [user]; problems := problems db |}
    (User.username user) = Some user.
Proof.
  intros Hnone. unfold crud.get_user_by_username in *. cbn [users].
  rewrite find_app, Hnone. cbn [find]. rewrite str_eqb_refl. reflexivity.
Qed.

(** Over [crud]: a registration under a username and a uuid the store
    does not hold yet appends the user, with the given name and the
    computed hash, active and not an administrator, under an id larger
    than every stored one; the new name then finds the new user and every
    other name finds what it found before. *)
Lemma register_creates_user pwd_context user_in db uuid salt now hashed :
  crud.get_user_by_username db (UserCreate.username user_in) = None ->
  (forall u, In u (users db) -> User.uuid u <> uuid) ->
  crud.get_password_hash pwd_context (UserCreate.password user_in) salt = Return hashed ->
  exists user,
    main.register pwd_context user_in db uuid salt now
    = ({| users := users db ++ [user]; problems := problems db |}, Return user)
    /\ User.username user = UserCreate.username user_in
    /\ User.hashed_password user = hashed
    /\ User.nickname user = UserCreate.nickname user_in
    /\ User.is_active user = true
    /\ User.is_admin user = false
    /\ (forall u, In u (users db) -> User.id u < User.id user)
    /\ crud.get_user_by_username
         (fst (main.register pwd_context user_in db uuid salt now))
         (UserCreate.username user_in) = Some user
    /\ (forall name, name <> UserCreate.username user_in ->
        crud.get_user_by_username
          (fst (main.register pwd_context user_in db uuid salt now)) name
        = crud.get_user_by_username db name).
Proof.
  intros Hnone Huuid Hhash.
  pose proof (register_fresh pwd_context user_in db uuid salt now hashed Hnone Huuid Hhash)
    as Hreg.
  eexists. split; [exact Hreg |]. rewrite Hreg. cbn [fst].
  split; [reflexivity |]. split; [reflexivity |]. split; [reflexivity |].
  split; [reflexivity |]. split; [reflexivity |]. split; [| split].
  - intros u Hin. cbn [User.id]. apply next_id_fresh. apply in_map. exact Hin.
  - apply (get_user_by_username_appended db
             (User.mk (next_id (map User.id (users db))) uuid
                (UserCreate.username user_in) hashed
                (UserCreate.nickname user_in) true false now)).
    exact Hnone.
  - intros name Hne. unfold crud.get_user_by_username. cbn [users]. rewrite find_app.
    destruct (find _ (users db)); [reflexivity |].
    cbn [find User.username]. rewrite str_eqb_neq by congruence. reflexivity.
Qed.

(** *** Login and the token *)

Lemma login_inv KEY sign pwd_context username password db utcnow token :
  main.login KEY sign pwd_context username password db utcnow = Return token ->
  exists u,
    crud.get_user_by_username db username = Some u
    /\ crud.verify_password pwd_context password (User.hashed_password u) = Return true
    /\ token = main.create_access_token KEY sign
                 {| jose.sub := Some (User.username u); jose.exp := None |} None utcnow.
Proof.
  unfold main.login. rewrite authenticate_user_unfold.
  destruct (crud.get_user_by_username db username) as [u |]; [| discriminate].
  destruct (crud.verify_password pwd_context password (User.hashed_password u))
    as [[|] | e] eqn:Hv; cbn [bind]; try discriminate.
  intros H. injection H as <-. exists u. auto.
Qed.

Lemma login_success KEY sign pwd_context username password db utcnow u :
  crud.get_user_by_username db username = Some u ->
  crud.verify_password pwd_context password (User.hashed_password u) = Return true ->
  main.login KEY sign pwd_context username password db utcnow
  = Return (main.create_access_token KEY sign
              {| jose.sub := Some (User.username u); jose.exp := None |} None utcnow).
Proof.
  intros Hu Hv. unfold main.login. rewrite authenticate_user_unfold, Hu, Hv.
  reflexivity.
Qed.

Lemma fresh_token_resolves KEY sign db u issued utcnow :
  crud.get_user_by_username db (User.username u) = Some u ->
  timegm utcnow <= timegm (issued + minutes main.ACCESS_TOKEN_EXPIRE_MINUTES) ->
  main.get_current_user KEY sign
    (main.create_access_token KEY sign
       {| jose.sub := Some (User.username u); jose.exp := None |} None issued)
    db utcnow = Return u.
Proof.
  intros Hu Ht.
  unfold main.get_current_user, main.create_access_token, jose.encode, jose.decode,
    jose.validate_exp.
  cbn [main.truthy_int jose.sub jose.exp]. rewrite str_eqb_refl.
  destruct (Z.ltb_spec (timegm (issued + minutes main.ACCESS_TOKEN_EXPIRE_MINUTES))
              (timegm utcnow)); [lia |].
  cbn [bind jose.sub]. rewrite Hu. reflexivity.
Qed.

(** X7.  The token a successful login returns, presented until its expiry
    second (seven days after issue), resolves to the stored user of that
    username, the one whose password was verified. *)
Theorem login_token_resolves KEY sign pwd_context username password db issued token utcnow :
  main.login KEY sign pwd_context username password db issued = Return token ->
  timegm utcnow <= timegm (issued + minutes main.ACCESS_TOKEN_EXPIRE_MINUTES) ->
  exists user,
    main.get_current_user KEY sign token db utcnow = Return user
    /\ User.username user = username
    /\ In user (users db)
    /\ crud.authenticate_user pwd_context db username password = Return (Some user).
Proof.
  intros Hlogin Ht. destruct (login_inv _ _ _ _ _ _ _ _ Hlogin) as (u & Hu & Hv & ->).
  destruct (get_user_by_username_some _ _ _ Hu) as [Hin Hname].
  exists u. split; [| split; [exact Hname | split; [exact Hin |]]].
  - apply fresh_token_resolves; [| exact Ht]. rewrite Hname. exact Hu.
  - rewrite authenticate_user_unfold, Hu, Hv. reflexivity.
Qed.

Lemma login_token_resolves_witness :
  exists user,
    main.get_current_user examples.KEY examples.tag_sign
      (main.create_access_token examples.KEY examples.tag_sign
         {| jose.sub := Some (py "alice"); jose.exp := None |} None 10)
      examples.db0 20 = Return user
    /\ User.username user = py "alice".
Proof.
  destruct (login_token_resolves examples.KEY examples.tag_sign conftest.mock_context
              (py "alice") (py "secret123") examples.db0 10
              (main.create_access_token examples.KEY examples.tag_sign
                 {| jose.sub := Some (py "alice"); jose.exp := None |} None 10)
              20 eq_refl)
    as (user & H & Hn & _).
  - vm_compute. discriminate.
  - exists user. split; assumption.
Defined.


(** *** Banning *)

Lemma admin_ban_user_fst user_id db current_user :
  fst (main.admin_ban_user user_id db current_user)
  = if User.is_admin current_user then fst (crud.set_user_active db user_id false) else db.
Proof.
  unfold main.admin_ban_user. destruct (User.is_admin current_user); [| reflexivity].
  cbn [negb]. destruct (crud.set_user_active db user_id false) as [db' [u |]]; reflexivity.
Qed.

Lemma get_user_by_username_ban user_id db current_user username :
  crud.get_user_by_username (fst (main.admin_ban_user user_id db current_user)) username
  = option_map (fun u => if User.is_admin current_user && (User.id u =? user_id)
                         then User.set_is_active u false else u)
      (crud.get_user_by_username db username).
Proof.
  rewrite admin_ban_user_fst. destruct (User.is_admin current_user); cbn [andb].
  - apply get_user_by_username_set_active.
  - destruct (crud.get_user_by_username db username); reflexivity.
Qed.

(** X9.  A ban closes no door.  Whatever ban request was made, login
    answers exactly as before it, the banned user's included, and a token
    resolves to the same row as before, only with its active flag cleared
    when it is the banned one. *)
Theorem ban_keeps_access KEY sign pwd_context user_id db current_user :
  (forall username password utcnow,
     main.login KEY sign pwd_context username password
       (fst (main.admin_ban_user user_id db current_user)) utcnow
     = main.login KEY sign pwd_context username password db utcnow)
  /\ (forall token utcnow,
        main.get_current_user KEY sign token
          (fst (main.admin_ban_user user_id db current_user)) utcnow
        = match main.get_current_user KEY sign token db utcnow with
          | Return u =>
              Return (if User.is_admin current_user && (User.id u =? user_id)
                      then User.set_is_active u false else u)
          | Raise e => Raise e
          end).
Proof.
  split.
  - intros username password utcnow. unfold main.login.
    rewrite !authenticate_user_unfold, get_user_by_username_ban.
    destruct (crud.get_user_by_username db username) as [u |]; [| reflexivity].
    cbn [option_map].
    destruct (User.is_admin current_user && (User.id u =? user_id)); [| reflexivity].
    cbn [User.set_is_active User.hashed_password].
    destruct (crud.verify_password pwd_context password (User.hashed_password u))
      as [[|] | e]; reflexivity.
  - intros token utcnow. unfold main.get_current_user.
    destruct (jose.decode sign token KEY utcnow) as [payload | e];
      [| destruct e; reflexivity].
    destruct (jose.sub payload) as [username |]; [| reflexivity].
    rewrite get_user_by_username_ban.
    destruct (crud.get_user_by_username db username); reflexivity.
Qed.

(** X10.  What a ban by an administrator does to a stored user: the
    answer is that user's row with the active flag cleared; afterwards
    every row of that id is inactive, every row of another id is as it
    was, no problem has changed, and the same ban again gives the same
    answer and the same store. *)
Theorem admin_ban_user_effect user_id db current_user target :
  User.is_admin current_user = true ->
  find (fun u => User.id u =? user_id) (users db) = Some target ->
  exists db',
    main.admin_ban_user user_id db current_user
    = (db', Return (User.set_is_active target false))
    /\ problems db' = problems db
    /\ (forall u, In u (users db') -> User.id u = user_id -> User.is_active u = false)
    /\ (forall u, User.id u <> user_id -> (In u (users db') <-> In u (users db)))
    /\ map User.id (users db') = map User.id (users db)
    /\ main.admin_ban_user user_id db' current_user
       = (db', Return (User.set_is_active target false)).
Proof.
  intros Hadmin Hfind.
  set (g := fun u => if User.id u =? user_id then User.set_is_active u false else u).
  assert (Hg : forall u, User.id (g u) = User.id u).
  { intros u. unfold g. destruct (User.id u =? user_id); reflexivity. }
  assert (Htarget : (User.id target =? user_id) = true).
  { pose proof (find_some _ _ Hfind) as [_ H]. exact H. }
  assert (Hgg : forall u, g (g u) = g u).
  { intros u. unfold g. destruct (User.id u =? user_id) eqn:E; [| rewrite E; reflexivity].
    cbn [User.set_is_active User.id]. rewrite E. reflexivity. }
  exists {| users := map g (users db); problems := problems db |}.
  split; [| split; [reflexivity | split; [| split; [| split]]]].
  - unfold main.admin_ban_user, crud.set_user_active. rewrite Hadmin, Hfind. reflexivity.
  - cbn [users]. intros u Hin Hid. apply in_map_iff in Hin. destruct Hin as (u0 & <- & _).
    rewrite Hg in Hid. unfold g. apply Z.eqb_eq in Hid. rewrite Hid. reflexivity.
  - cbn [users]. intros u Hne. split; intros Hin.
    + apply in_map_iff in Hin. destruct Hin as (u0 & <- & Hin).
      rewrite Hg in Hne. unfold g. apply Z.eqb_neq in Hne. rewrite Hne. exact Hin.
    + apply in_map_iff. exists u. split; [| exact Hin].
      unfold g. apply Z.eqb_neq in Hne. rewrite Hne. reflexivity.
  - cbn [users]. rewrite map_map. apply map_ext. exact Hg.
  - unfold main.admin_ban_user, crud.set_user_active. rewrite Hadmin. cbn [negb users].
    assert (Hf : find (fun u => User.id u =? user_id) (map g (users db)) = Some (g target)).
    { unfold g at 1.
      rewrite (find_map_update (fun u => User.id u =? user_id)
                 (fun u => User.set_is_active u false)).
      - rewrite Hfind. cbn [option_map]. unfold g. rewrite Htarget. reflexivity.
      - intros u. reflexivity. }
    rewrite Hf. cbn [problems]. fold g. rewrite map_map.
    rewrite (map_ext _ _ (fun u => Hgg u)).
    unfold g. rewrite Htarget. reflexivity.
Qed.

Lemma admin_ban_user_effect_witness :
  exists db',
    main.admin_ban_user 1 examples.db1 examples.root
    = (db', Return (User.set_is_active examples.alice false))
    /\ problems db' = problems examples.db1.
Proof.
  destruct (admin_ban_user_effect 1 examples.db1 examples.root examples.alice
              eq_refl eq_refl) as (db' & H1 & H2 & _).
  exists db'. split; assumption.
Defined.

(** *** The keys of the tables *)

Lemma NoDup_snoc {A} (l : list A) x : NoDup l -> ~ In x l -> NoDup (l ++ [x]).
Proof.
  induction 1 as [| y l Hy Hl IH]; intros Hx.
  - cbn. constructor; [intros [] | constructor].
  - cbn [app]. constructor.
    + intros Hin. apply in_app_or in Hin. destruct Hin as [Hin | [-> | []]].
      * contradiction.
      * apply Hx. left. reflexivity.
    + apply IH. intros Hin. apply Hx. right. exact Hin.
Qed.

Lemma existsb_false_inv {A} (f : A -> bool) l x :
  existsb f l = false -> In x l -> f x = false.
Proof.
  intros H Hin. destruct (f x) eqn:E; [| reflexivity].
  assert (existsb f l = true) by (apply existsb_exists; eauto). congruence.
Qed.

Lemma create_user_unique pwd_context db user_in uuid salt now :
  unique_keys db ->
  unique_keys (fst (crud.create_user pwd_context db user_in uuid salt now)).
Proof.
  intros (Hn & Hu & Hi & Hp). unfold crud.create_user.
  destruct (crud.get_password_hash pwd_context _ salt) as [hashed | e];
    [| repeat split; assumption].
  cbn [User.username].
  destruct (existsb _ (users db)) eqn:E; [repeat split; assumption |].
  unfold unique_keys. cbn [fst users problems]. rewrite !map_app. cbn [map].
  cbn [User.username User.uuid User.id].
  split; [| split; [| split; [| exact Hp]]]; apply NoDup_snoc; try assumption.
  - intros Hin. apply in_map_iff in Hin. destruct Hin as (u & Hname & Hin).
    pose proof (existsb_false_inv _ _ u E Hin) as Hf. cbn beta in Hf.
    apply orb_false_iff in Hf. destruct Hf as [Hf _].
    rewrite Hname, str_eqb_refl in Hf. discriminate.
  - intros Hin. apply in_map_iff in Hin. destruct Hin as (u & Huuid & Hin).
    pose proof (existsb_false_inv _ _ u E Hin) as Hf. cbn beta in Hf.
    apply orb_false_iff in Hf. destruct Hf as [_ Hf].
    rewrite Huuid, str_eqb_refl in Hf. discriminate.
  - intros Hin. pose proof (next_id_fresh _ _ Hin). lia.
Qed.

Lemma set_user_active_unique db user_id active :
  unique_keys db -> unique_keys (fst (crud.set_user_active db user_id active)).
Proof.
  intros (Hn & Hu & Hi & Hp). unfold crud.set_user_active.
  destruct (find _ (users db)); [| repeat split; assumption].
  unfold unique_keys. cbn [fst users problems]. rewrite !map_map.
  split; [| split; [| split; [| exact Hp]]].
  - erewrite map_ext; [exact Hn |].
    intros u. destruct (User.id u =? user_id); reflexivity.
  - erewrite map_ext; [exact Hu |].
    intros u. destruct (User.id u =? user_id); reflexivity.
  - erewrite map_ext; [exact Hi |].
    intros u. destruct (User.id u =? user_id); reflexivity.
Qed.

Lemma create_problem_unique db owner problem_in now :
  unique_keys db -> unique_keys (fst (crud.create_problem db owner problem_in now)).
Proof.
  intros (Hn & Hu & Hi & Hp). unfold unique_keys, crud.create_problem.
  cbn [fst users problems]. rewrite map_app. cbn [map Problem.id].
  split; [exact Hn | split; [exact Hu | split; [exact Hi |]]].
  apply NoDup_snoc; [exact Hp |].
  intros Hin. pose proof (next_id_fresh _ _ Hin). lia.
Qed.

Lemma update_problem_unique db problem_id u now :
  unique_keys db -> unique_keys (fst (crud.update_problem db problem_id u now)).
Proof.
  intros (Hn & Hu & Hi & Hp). unfold crud.update_problem.
  destruct (find _ (problems db)); [| repeat split; assumption].
  unfold unique_keys. cbn [fst users problems]. rewrite map_map.
  split; [exact Hn | split; [exact Hu | split; [exact Hi |]]].
  erewrite map_ext; [exact Hp |].
  intros q. destruct (Problem.id q =? problem_id); [apply flush_id | reflexivity].
Qed.

Lemma upload_problem_fst raw file source_type subject course problem_type knowledge_tags
    difficulty tags notes db current_user now :
  fst (main.upload_problem raw file source_type subject course problem_type
         knowledge_tags difficulty tags notes db current_user now) = db
  \/ exists problem_in,
       main.upload_problem raw file source_type subject course problem_type
         knowledge_tags difficulty tags notes db current_user now
       = (fst (crud.create_problem db (User.id current_user) problem_in now),
          ProblemOut.from_orm
            (snd (crud.create_problem db (User.id current_user) problem_in now))).
Proof.
  unfold main.upload_problem.
  destruct (negb (truthy_str raw) && negb (main.truthy_file file)); [left; reflexivity |].
  match goal with
  | |- context [match ?x with Return _ => _ | Raise _ => _ end] =>
      destruct x as [problem_in | e]
  end; [| left; reflexivity].
  right. exists problem_in. reflexivity.
Qed.

(** X2.  In every store the handlers build from one whose keys do not
    repeat, usernames, uuids, user ids and problem ids do not repeat. *)
Theorem reachable_unique_keys start db :
  unique_keys start -> reachable start db -> unique_keys db.
Proof.
  intros Hstart Hr. induction Hr as [| ctx user_in db uuid salt now Hr IH
    | raw file source_type subject course problem_type knowledge_tags difficulty tags
        notes db current_user now Hr IH Hin Hk Ht
    | problem_id problem_in db current_user now Hr IH Hin Hu
    | user_id db current_user Hr IH].
  - exact Hstart.
  - unfold main.register.
    destruct (crud.get_user_by_username db (UserCreate.username user_in));
      [exact IH | apply create_user_unique; exact IH].
  - destruct (upload_problem_fst raw file source_type subject course problem_type
                knowledge_tags difficulty tags notes db current_user now)
      as [-> | (problem_in & ->)]; [exact IH |].
    apply create_problem_unique. exact IH.
  - unfold main.update_problem.
    destruct (crud.get_problem db problem_id) as [p |]; [| exact IH].
    destruct (main.ne_int (Problem.owner_id p) (User.id current_user)); [exact IH |].
    pose proof (update_problem_unique db problem_id problem_in now IH) as H.
    destruct (crud.update_problem db problem_id problem_in now) as [db' [p' |]]; exact H.
  - rewrite admin_ban_user_fst. destruct (User.is_admin current_user); [| exact IH].
    apply set_user_active_unique. exact IH.
Qed.

Lemma unique_keys_db0 : unique_keys examples.db0.
Proof.
  unfold unique_keys. cbn.
  repeat split;
    repeat (constructor; [intros H; cbn in H; repeat destruct H as [H | H];
                          try discriminate; try contradiction |]);
    constructor.
Qed.

Lemma reachable_unique_keys_witness :
  unique_keys
    (fst (main.register conftest.mock_context
            (UserCreate.mk (py "carol") (py "pw123456") None)
            examples.db0 (py "uuid-carol") (py "salt") 7)).
Proof.
  apply (reachable_unique_keys examples.db0 _ unique_keys_db0).
  apply reach_register. apply reach_start.
Defined.

Lemma find_unique {A K} (key : A -> K) (f : A -> bool) l x :
  NoDup (map key l) -> In x l ->
  (forall y, In y l -> f y = true -> key y = key x) -> f x = true ->
  find f l = Some x.
Proof.
  intros Hnd Hin Hf Hx. induction l as [| y l IH]; [destruct Hin |].
  cbn [map] in Hnd. inversion Hnd as [| k ks Hnotin Hnd']; subst.
  cbn [find]. destruct Hin as [-> | Hin].
  - rewrite Hx. reflexivity.
  - destruct (f y) eqn:E.
    + exfalso. apply Hnotin.
      rewrite (Hf y (or_introl eq_refl) E). apply in_map. exact Hin.
    + apply IH; [exact Hnd' | exact Hin |].
      intros z Hz. apply Hf. right. exact Hz.
Qed.

(** X3.  When keys do not repeat, the queries by key find every stored
    row: a user by its username, a problem by its id. *)
Theorem stored_rows_found_by_key db :
  unique_keys db ->
  (forall u, In u (users db) -> crud.get_user_by_username db (User.username u) = Some u)
  /\ (forall p, In p (problems db) -> crud.get_problem db (Problem.id p) = Some p).
Proof.
  intros (Hn & _ & _ & Hp). split.
  - intros u Hin. unfold crud.get_user_by_username.
    apply (find_unique User.username); [exact Hn | exact Hin | | apply str_eqb_refl].
    intros y _ Hy. apply str_eqb_eq in Hy. exact Hy.
  - intros p Hin. unfold crud.get_problem.
    apply (find_unique Problem.id); [exact Hp | exact Hin | | apply Z.eqb_refl].
    intros y _ Hy. apply Z.eqb_eq in Hy. exact Hy.
Qed.

Lemma stored_rows_found_by_key_witness :
  crud.get_user_by_username examples.db0 (py "bob") = Some examples.bob
  /\ crud.get_problem examples.db0 2 = Some examples.seeded.
Proof.
  destruct (stored_rows_found_by_key examples.db0 unique_keys_db0) as [Hu Hp].
  split.
  - apply (Hu examples.bob). right. left. reflexivity.
  - apply (Hp examples.seeded). right. left. reflexivity.
Defined.

(* ===================================================================== *)
(** ** Problems: uploads, updates and listings *)
(* ===================================================================== *)

(** *** Problems: write, then read *)

(** What a successful from_orm returns: the columns of the row, the two
    tag columns decoded. *)
Lemma from_orm_inv p out :
  ProblemOut.from_orm p = Return out ->
  decode_column (Problem.knowledge_tags p) = Return (ProblemOut.knowledge_tags out)
  /\ decode_column (Problem.tags p) = Return (ProblemOut.tags out)
  /\ out = ProblemOut.mk (Problem.id p) (Problem.owner_id p) (Problem.source_type p)
             (Problem.file_content p) (Problem.subject p) (Problem.course p)
             (Problem.problem_type p) (ProblemOut.knowledge_tags out)
             (Problem.difficulty p) (Problem.is_bookmarked p) (ProblemOut.tags out)
             (Problem.notes p) (Problem.created_at p) (Problem.updated_at p).
Proof.
  unfold ProblemOut.from_orm, decode_column.
  change (ProblemOut.parse_tags (Problem.tags p))
    with (ProblemOut.parse_knowledge_tags (Problem.tags p)).
  destruct (ProblemOut.parse_knowledge_tags (Problem.knowledge_tags p)) as [v1 | e1];
    cbn [bind]; [| discriminate].
  destruct (validate_optional_list_str v1) as [kt | e2]; cbn [bind]; [| discriminate].
  destruct (ProblemOut.parse_knowledge_tags (Problem.tags p)) as [v2 | e3];
    cbn [bind]; [| discriminate].
  destruct (validate_optional_list_str v2) as [tg | e4]; cbn [bind]; [| discriminate].
  intros H. injection H as <-. cbn. auto.
Qed.

Lemma from_orm_id p out :
  ProblemOut.from_orm p = Return out ->
  ProblemOut.id out = Problem.id p /\ ProblemOut.owner_id out = Problem.owner_id p.
Proof.
  intros H. destruct (from_orm_inv _ _ H) as (_ & _ & ->). split; reflexivity.
Qed.

(** A created row always serializes when its tag lists are well formed. *)
Lemma from_orm_created db owner problem_in now :
  wf_create problem_in ->
  exists out,
    ProblemOut.from_orm (snd (crud.create_problem db owner problem_in now)) = Return out.
Proof.
  intros [Hk Ht]. eexists. apply from_orm_columns;
    cbn [crud.create_problem snd Problem.knowledge_tags Problem.tags];
    apply decode_column_created; assumption.
Qed.

(** A successful upload is a create_problem of a validated payload. *)
Lemma upload_return_inv raw file source_type subject course problem_type knowledge_tags
    difficulty tags notes db current_user now out :
  snd (main.upload_problem raw file source_type subject course problem_type
         knowledge_tags difficulty tags notes db current_user now) = Return out ->
  exists problem_in,
    main.upload_problem raw file source_type subject course problem_type
      knowledge_tags difficulty tags notes db current_user now
    = (fst (crud.create_problem db (User.id current_user) problem_in now), Return out)
    /\ ProblemOut.from_orm
         (snd (crud.create_problem db (User.id current_user) problem_in now)) = Return out
    /\ main.stored_content raw file
       = Return (Some (ProblemCreate.raw problem_in), ProblemCreate.file_content problem_in).
Proof.
  unfold main.upload_problem.
  destruct (negb (truthy_str raw) && negb (main.truthy_file file)); [discriminate |].
  destruct (main.stored_content raw file) as [[raw_store fc] | e]; cbn [bind];
    [| discriminate].
  destruct (main.parse_tag_field knowledge_tags KnowledgeTagsNotJSON) as [kt | e];
    cbn [bind]; [| discriminate].
  destruct (main.parse_tag_field tags TagsNotJSON) as [tg | e]; cbn [bind];
    [| discriminate].
  unfold ProblemCreate.init. destruct raw_store as [raw_text |]; [| discriminate].
  destruct (validate_optional_list_str kt) as [lk | e]; cbn [bind]; [| discriminate].
  destruct (validate_optional_list_str tg) as [lt | e]; cbn [bind]; [| discriminate].
  cbn [snd fst crud.create_problem]. intros H. eexists. split; [| split].
  - rewrite H. reflexivity.
  - exact H.
  - reflexivity.
Qed.

Lemma create_problem_other db owner problem_in now problem_id :
  problem_id <> Problem.id (snd (crud.create_problem db owner problem_in now)) ->
  crud.get_problem (fst (crud.create_problem db owner problem_in now)) problem_id
  = crud.get_problem db problem_id.
Proof.
  intros Hne. unfold crud.get_problem. cbn [crud.create_problem fst problems].
  rewrite find_app. destruct (find _ (problems db)); [reflexivity |].
  cbn [find]. cbn [crud.create_problem snd] in Hne.
  destruct (Z.eqb_spec
              (Problem.id
                 (Problem.mk (next_id (map Problem.id (problems db))) (Some owner)
                    (ProblemCreate.source_type problem_in)
                    (Some (ProblemCreate.raw problem_in))
                    (ProblemCreate.file_content problem_in) None
                    (ProblemCreate.subject problem_in) (ProblemCreate.course problem_in)
                    (ProblemCreate.problem_type problem_in)
                    (if crud.truthy_list (ProblemCreate.knowledge_tags problem_in)
                     then option_map json.dumps (ProblemCreate.knowledge_tags problem_in)
                     else None)
                    (ProblemCreate.difficulty problem_in) false
                    (if crud.truthy_list (ProblemCreate.tags problem_in)
                     then option_map json.dumps (ProblemCreate.tags problem_in)
                     else None)
                    (ProblemCreate.notes problem_in) now now)) problem_id) as [E | E];
    [| reflexivity].
  exfalso. apply Hne. symmetry. exact E.
Qed.

Lemma read_by_owner db problem_id p current_user :
  crud.get_problem db problem_id = Some p ->
  Problem.owner_id p = Some (User.id current_user) ->
  main.get_problem problem_id db current_user = ProblemOut.from_orm p.
Proof.
  intros Hget Hown. unfold main.get_problem. rewrite Hget, Hown.
  cbn [main.ne_int]. rewrite Z.eqb_refl. cbn [negb]. rewrite andb_false_r. reflexivity.
Qed.

Lemma read_by_other db problem_id p owner other :
  crud.get_problem db problem_id = Some p ->
  Problem.owner_id p = Some owner -> owner <> 0 -> User.id other <> owner ->
  main.get_problem problem_id db other = Raise (HTTPException 403 NoReadAccess).
Proof.
  intros Hget Hown H0 Hne. unfold main.get_problem. rewrite Hget, Hown.
  cbn [main.truthy_int main.ne_int].
  destruct (Z.eqb_spec owner 0); [contradiction |].
  destruct (Z.eqb_spec owner (User.id other)); [congruence |]. reflexivity.
Qed.

(** X11.  Read your own write.  After a successful upload the answer
    names the caller as owner and carries an id above every stored one;
    GET of that id by the caller returns the very answer of the upload,
    GET by any other user is refused with 403 (the caller's id not being
    0); every other id finds what it found before and no user row has
    changed. *)
Theorem upload_then_get raw file source_type subject course problem_type knowledge_tags
    difficulty tags notes db current_user now out :
  snd (main.upload_problem raw file source_type subject course problem_type
         knowledge_tags difficulty tags notes db current_user now) = Return out ->
  ProblemOut.owner_id out = Some (User.id current_user)
  /\ (forall p, In p (problems db) -> Problem.id p < ProblemOut.id out)
  /\ main.get_problem (ProblemOut.id out)
       (fst (main.upload_problem raw file source_type subject course problem_type
               knowledge_tags difficulty tags notes db current_user now))
       current_user = Return out
  /\ (forall other,
        User.id current_user <> 0 -> User.id other <> User.id current_user ->
        main.get_problem (ProblemOut.id out)
          (fst (main.upload_problem raw file source_type subject course problem_type
                  knowledge_tags difficulty tags notes db current_user now))
          other = Raise (HTTPException 403 NoReadAccess))
  /\ (forall problem_id,
        problem_id <> ProblemOut.id out ->
        crud.get_problem
          (fst (main.upload_problem raw file source_type subject course problem_type
                  knowledge_tags difficulty tags notes db current_user now))
          problem_id = crud.get_problem db problem_id)
  /\ users (fst (main.upload_problem raw file source_type subject course problem_type
                   knowledge_tags difficulty tags notes db current_user now))
     = users db.
Proof.
  intros H. destruct (upload_return_inv _ _ _ _ _ _ _ _ _ _ _ _ _ _ H)
    as (problem_in & -> & Hfrom & _).
  cbn [fst]. destruct (from_orm_id _ _ Hfrom) as [Hid Hown]. rewrite Hid, Hown.
  pose proof (get_problem_after_create db (User.id current_user) problem_in now) as Hget.
  split; [reflexivity |]. split; [| split; [| split; [| split]]].
  - intros p Hin. cbn [crud.create_problem snd Problem.id].
    apply next_id_fresh. apply in_map. exact Hin.
  - rewrite (read_by_owner _ _ _ _ Hget); [exact Hfrom | reflexivity].
  - intros other H0 Hne. eapply read_by_other; [exact Hget | reflexivity | exact H0 | exact Hne].
  - intros problem_id Hne. apply create_problem_other. exact Hne.
  - reflexivity.
Qed.

Lemma upload_then_get_witness :
  exists out,
    snd (main.upload_problem (Some (py "1+1=?")) None (py "text") None None None
           (Some (json.dumps [py "sums"])) None None None examples.db0 examples.alice 9)
    = Return out
    /\ main.get_problem (ProblemOut.id out)
         (fst (main.upload_problem (Some (py "1+1=?")) None (py "text") None None None
                 (Some (json.dumps [py "sums"])) None None None examples.db0 examples.alice 9))
         examples.alice = Return out.
Proof.
  eexists. split; [reflexivity |].
  exact (proj1 (proj2 (proj2
           (upload_then_get (Some (py "1+1=?")) None (py "text") None None None
              (Some (json.dumps [py "sums"])) None None None examples.db0 examples.alice 9
              _ eq_refl)))).
Defined.

(** *** What an update writes *)

Lemma opt_eqb_Z_eq a b : opt_eqb Z.eqb a b = true -> a = b.
Proof.
  destruct a, b; cbn; intros H; try discriminate; [| reflexivity].
  apply Z.eqb_eq in H. congruence.
Qed.

Lemma Problem_eqb_eq p q : Problem_eqb p q = true -> p = q.
Proof.
  intros H. unfold Problem_eqb in H.
  repeat (apply andb_true_iff in H; destruct H as [H ?]).
  destruct p, q.
  cbn [Problem.id Problem.owner_id Problem.source_type Problem.raw Problem.file_content
       Problem.parsed Problem.subject Problem.course Problem.problem_type
       Problem.knowledge_tags Problem.difficulty Problem.is_bookmarked Problem.tags
       Problem.notes Problem.created_at Problem.updated_at] in *.
  repeat match goal with
         | E : Z.eqb _ _ = true |- _ => apply Z.eqb_eq in E
         | E : str_eqb _ _ = true |- _ => apply str_eqb_eq in E
         | E : opt_eqb str_eqb _ _ = true |- _ => apply opt_eqb_str_eq in E
         | E : opt_eqb Z.eqb _ _ = true |- _ => apply opt_eqb_Z_eq in E
         | E : Bool.eqb _ _ = true |- _ => apply Bool.eqb_prop in E
         end.
  subst. reflexivity.
Qed.

(** The flushed row is the assigned one, up to updated_at. *)
Lemma flush_cases p u now :
  crud.flush p u now = crud.assign p u
  \/ crud.flush p u now = Problem.set_updated_at (crud.assign p u) now.
Proof.
  unfold crud.flush. destruct (Problem_eqb p (crud.assign p u)) eqn:E.
  - left. apply Problem_eqb_eq. exact E.
  - right. reflexivity.
Qed.

Lemma update_return_inv problem_id problem_in db current_user now out :
  snd (main.update_problem problem_id problem_in db current_user now) = Return out ->
  exists p,
    crud.get_problem db problem_id = Some p
    /\ Problem.owner_id p = Some (User.id current_user)
    /\ main.update_problem problem_id problem_in db current_user now
       = (fst (crud.update_problem db problem_id problem_in now), Return out)
    /\ ProblemOut.from_orm (crud.flush p problem_in now) = Return out.
Proof.
  unfold main.update_problem.
  destruct (crud.get_problem db problem_id) as [p |] eqn:Hget; [| discriminate].
  destruct (main.ne_int (Problem.owner_id p) (User.id current_user)) eqn:Hne;
    [discriminate |].
  apply ne_int_false in Hne.
  destruct (update_problem_returns_flushed db problem_id p problem_in now Hget) as [E _].
  rewrite E. cbn [snd fst]. intros H. exists p. rewrite H. auto.
Qed.

(** X12.  The answer of a successful PATCH is what GET of that id returns
    to the caller afterwards; it is the caller's problem of that id, and
    every field the payload provides shows the provided value (a tag list
    of well-formed strings included, the empty one too). *)
Theorem update_then_get problem_id problem_in db current_user now out :
  snd (main.update_problem problem_id problem_in db current_user now) = Return out ->
  main.get_problem problem_id
    (fst (main.update_problem problem_id problem_in db current_user now)) current_user
  = Return out
  /\ ProblemOut.id out = problem_id
  /\ ProblemOut.owner_id out = Some (User.id current_user)
  /\ (forall X, ProblemUpdate.subject problem_in = Some X ->
                ProblemOut.subject out = Some X)
  /\ (forall X, ProblemUpdate.course problem_in = Some X ->
                ProblemOut.course out = Some X)
  /\ (forall X, ProblemUpdate.problem_type problem_in = Some X ->
                ProblemOut.problem_type out = Some X)
  /\ (forall n, ProblemUpdate.difficulty problem_in = Some n ->
                ProblemOut.difficulty out = Some n)
  /\ (forall b, ProblemUpdate.is_bookmarked problem_in = Some b ->
                ProblemOut.is_bookmarked out = b)
  /\ (forall X, ProblemUpdate.notes problem_in = Some X ->
                ProblemOut.notes out = Some X)
  /\ (forall L, ProblemUpdate.knowledge_tags problem_in = Some L -> Forall wf_str L ->
                ProblemOut.knowledge_tags out = Some L)
  /\ (forall L, ProblemUpdate.tags problem_in = Some L -> Forall wf_str L ->
                ProblemOut.tags out = Some L).
Proof.
  intros H. destruct (update_return_inv _ _ _ _ _ _ H) as (p & Hget & Hown & -> & Hfrom).
  cbn [fst].
  destruct (update_problem_returns_flushed db problem_id p problem_in now Hget) as [_ Hq].
  destruct (from_orm_inv _ _ Hfrom) as (Hk & Ht & Hout).
  assert (Hcols : forall (A : Type) (col : Problem.t -> A),
             (forall q t, col (Problem.set_updated_at q t) = col q) ->
             col (crud.flush p problem_in now) = col (crud.assign p problem_in)).
  { intros A col Hcol. destruct (flush_cases p problem_in now) as [-> | ->];
      [reflexivity | apply Hcol]. }
  split; [| split; [| split]].
  - rewrite (read_by_owner _ _ _ _ Hq); [exact Hfrom |].
    rewrite (Hcols _ Problem.owner_id) by reflexivity. exact Hown.
  - rewrite Hout. cbn [ProblemOut.id]. rewrite flush_id. eapply get_problem_id. exact Hget.
  - rewrite Hout. cbn [ProblemOut.owner_id].
    rewrite (Hcols _ Problem.owner_id) by reflexivity. exact Hown.
  - rewrite (Hcols _ Problem.knowledge_tags) in Hk by reflexivity.
    rewrite (Hcols _ Problem.tags) in Ht by reflexivity.
    rewrite Hout.
    cbn [ProblemOut.subject ProblemOut.course ProblemOut.problem_type
         ProblemOut.difficulty ProblemOut.is_bookmarked ProblemOut.notes
         ProblemOut.knowledge_tags ProblemOut.tags].
    rewrite (Hcols _ Problem.subject), (Hcols _ Problem.course),
      (Hcols _ Problem.problem_type), (Hcols _ Problem.difficulty),
      (Hcols _ Problem.is_bookmarked), (Hcols _ Problem.notes) by reflexivity.
    cbn [crud.assign Problem.subject Problem.course Problem.problem_type
         Problem.difficulty Problem.is_bookmarked Problem.notes
         Problem.knowledge_tags Problem.tags] in *.
    repeat split; try (intros X HX; rewrite HX; reflexivity).
    + intros L HL Hwf. rewrite HL in Hk. cbn [option_map crud.or_keep_opt] in Hk.
      rewrite decode_column_dumps in Hk by exact Hwf. congruence.
    + intros L HL Hwf. rewrite HL in Ht. cbn [option_map crud.or_keep_opt] in Ht.
      rewrite decode_column_dumps in Ht by exact Hwf. congruence.
Qed.

Lemma update_then_get_witness :
  exists out,
    snd (main.update_problem 1
           (ProblemUpdate.mk None None None (Some []) None (Some true) None None)
           examples.db0 examples.alice 9) = Return out
    /\ main.get_problem 1
         (fst (main.update_problem 1
                 (ProblemUpdate.mk None None None (Some []) None (Some true) None None)
                 examples.db0 examples.alice 9)) examples.alice = Return out.
Proof.
  eexists. split; [reflexivity |].
  exact (proj1 (update_then_get 1
                  (ProblemUpdate.mk None None None (Some []) None (Some true) None None)
                  examples.db0 examples.alice 9 _ eq_refl)).
Defined.

(** *** A request that fails writes nothing *)

(** X4.  A write request that ends in an error leaves the store as it
    was: a registration, a ban, an upload whose tag fields are Unicode
    text, and, on a well-formed store, an update with well-formed tag
    lists. *)
Theorem failed_write_changes_nothing db :
  wf_db db ->
  (forall pwd_context user_in uuid salt now e,
     snd (main.register pwd_context user_in db uuid salt now) = Raise e ->
     fst (main.register pwd_context user_in db uuid salt now) = db)
  /\ (forall user_id current_user e,
        snd (main.admin_ban_user user_id db current_user) = Raise e ->
        fst (main.admin_ban_user user_id db current_user) = db)
  /\ (forall raw file source_type subject course problem_type knowledge_tags difficulty
             tags notes current_user now e,
        text_field knowledge_tags -> text_field tags ->
        snd (main.upload_problem raw file source_type subject course problem_type
               knowledge_tags difficulty tags notes db current_user now) = Raise e ->
        fst (main.upload_problem raw file source_type subject course problem_type
               knowledge_tags difficulty tags notes db current_user now) = db)
  /\ (forall problem_id problem_in current_user now e,
        wf_update problem_in ->
        snd (main.update_problem problem_id problem_in db current_user now) = Raise e ->
        fst (main.update_problem problem_id problem_in db current_user now) = db).
Proof.
  intros Hdb. split; [| split; [| split]].
  - intros pwd_context user_in uuid salt now e. unfold main.register, crud.create_user.
    destruct (crud.get_user_by_username db (UserCreate.username user_in));
      [reflexivity |].
    destruct (crud.get_password_hash pwd_context _ salt); [| reflexivity].
    destruct (existsb _ (users db)); [reflexivity | discriminate].
  - intros user_id current_user e. unfold main.admin_ban_user, crud.set_user_active.
    destruct (negb (User.is_admin current_user)); [reflexivity |].
    destruct (find _ (users db)); [discriminate | reflexivity].
  - intros raw file source_type subject course problem_type knowledge_tags difficulty
      tags notes current_user now e Hk Ht.
    unfold main.upload_problem.
    destruct (negb (truthy_str raw) && negb (main.truthy_file file)); [reflexivity |].
    destruct (main.stored_content raw file) as [[raw_store fc] | e1]; cbn [bind];
      [| reflexivity].
    destruct (main.parse_tag_field knowledge_tags KnowledgeTagsNotJSON) as [kt | e1] eqn:Ek;
      cbn [bind]; [| reflexivity].
    destruct (main.parse_tag_field tags TagsNotJSON) as [tg | e1] eqn:Et;
      cbn [bind]; [| reflexivity].
    destruct (ProblemCreate.init source_type raw_store fc subject course problem_type
                kt difficulty tg notes) as [problem_in | e1] eqn:Ei; [| reflexivity].
    assert (Hwf : wf_create problem_in).
    { eapply ProblemCreate_init_wf; [| | exact Ei].
      - exact (parse_tag_field_ok _ _ _ Hk Ek).
      - exact (parse_tag_field_ok _ _ _ Ht Et). }
    destruct (from_orm_created db (User.id current_user) problem_in now Hwf) as [out Hout].
    destruct (crud.create_problem db (User.id current_user) problem_in now) as [db' p].
    cbn [snd] in *. rewrite Hout. discriminate.
  - intros problem_id problem_in current_user now e Hu. unfold main.update_problem.
    destruct (crud.get_problem db problem_id) as [p |] eqn:Hget; [| reflexivity].
    destruct (main.ne_int (Problem.owner_id p) (User.id current_user)); [reflexivity |].
    destruct (update_problem_returns_flushed db problem_id p problem_in now Hget)
      as [E Hq].
    rewrite E. cbn [snd fst].
    pose proof (get_problem_wf _ _ _
                  (update_problem_wf db problem_id problem_in now Hdb Hu) Hq) as Hwf.
    destruct (from_orm_wf _ Hwf) as (out & Hout & _). rewrite Hout. discriminate.
Qed.

Lemma failed_write_changes_nothing_witness :
  fst (main.update_problem 2 (subject_only (py "X")) examples.db0 examples.alice 9)
  = examples.db0
  /\ fst (main.upload_problem (Some (py "1+1=?")) None (py "text") None None None
            (Some (py "123")) None None None examples.db0 examples.alice 9)
     = examples.db0.
Proof.
  destruct (failed_write_changes_nothing examples.db0 wf_db0) as (_ & _ & Hup & Hpatch).
  split.
  - apply (Hpatch 2 (subject_only (py "X")) examples.alice 9
             (HTTPException 403 NoWriteAccess)).
    + split; exact I.
    + reflexivity.
  - apply (Hup (Some (py "1+1=?")) None (py "text") None None None
             (Some (py "123")) None None None examples.alice 9 ValidationError).
    + repeat constructor.
    + exact I.
    + reflexivity.
Defined.

(** *** The upload form *)

(** X14.  An upload with a file.  The raw form field is ignored; a file
    that cannot be read is refused with 400 before any tag field is looked
    at; a file that is read is stored as its base64 text, the raw column
    holding the marker FILE: followed by the file name. *)
Theorem upload_file_handling raw f source_type subject course problem_type knowledge_tags
    difficulty tags notes db current_user now :
  (forall raw',
     main.upload_problem raw (Some f) source_type subject course problem_type
       knowledge_tags difficulty tags notes db current_user now
     = main.upload_problem raw' (Some f) source_type subject course problem_type
         knowledge_tags difficulty tags notes db current_user now)
  /\ (forall e,
        main.read f = Raise e ->
        main.upload_problem raw (Some f) source_type subject course problem_type
          knowledge_tags difficulty tags notes db current_user now
        = (db, Raise (HTTPException 400 CannotReadFile)))
  /\ (forall file_bytes out,
        main.read f = Return file_bytes ->
        snd (main.upload_problem raw (Some f) source_type subject course problem_type
               knowledge_tags difficulty tags notes db current_user now) = Return out ->
        ProblemOut.file_content out = Some (base64.b64encode file_bytes)
        /\ exists p,
             crud.get_problem
               (fst (main.upload_problem raw (Some f) source_type subject course
                       problem_type knowledge_tags difficulty tags notes db
                       current_user now))
               (ProblemOut.id out) = Some p
             /\ Problem.raw p = Some (py "FILE:" ++ main.format_opt (main.filename f))
             /\ Problem.file_content p = Some (base64.b64encode file_bytes)).
Proof.
  split; [| split].
  - intros raw'. unfold main.upload_problem. cbn [main.truthy_file negb].
    rewrite !andb_false_r. reflexivity.
  - intros e He. unfold main.upload_problem, main.stored_content.
    cbn [main.truthy_file negb]. rewrite andb_false_r, He. reflexivity.
  - intros file_bytes out Hread H.
    destruct (upload_return_inv _ _ _ _ _ _ _ _ _ _ _ _ _ _ H)
      as (problem_in & -> & Hfrom & Hstored).
    cbn [fst]. unfold main.stored_content in Hstored. rewrite Hread in Hstored.
    injection Hstored as Hraw Hfc.
    destruct (from_orm_inv _ _ Hfrom) as (_ & _ & Hout).
    split.
    + rewrite Hout. cbn [ProblemOut.file_content crud.create_problem snd
                         Problem.file_content]. symmetry. exact Hfc.
    + exists (snd (crud.create_problem db (User.id current_user) problem_in now)).
      split; [| split].
      * rewrite Hout. cbn [ProblemOut.id]. apply get_problem_after_create.
      * cbn [crud.create_problem snd Problem.raw]. rewrite <- Hraw. reflexivity.
      * cbn [crud.create_problem snd Problem.file_content]. symmetry. exact Hfc.
Qed.

(** *** GET /problems *)

Lemma from_orm_all_wf ps :
  Forall wf_problem ps ->
  exists outs,
    main.from_orm_all ps = Return outs
    /\ Forall2 (fun p o => ProblemOut.from_orm p = Return o) ps outs.
Proof.
  induction 1 as [| p ps Hp Hps (outs & E & F)].
  - exists []. split; [reflexivity | constructor].
  - destruct (from_orm_wf _ Hp) as (out & Hout & _).
    exists (out :: outs). cbn [main.from_orm_all]. rewrite Hout. cbn [bind].
    rewrite E. cbn [bind]. split; [reflexivity | constructor; assumption].
Qed.

Lemma from_orm_all_app ps qs :
  main.from_orm_all (ps ++ qs)
  = (a <- main.from_orm_all ps ;; b <- main.from_orm_all qs ;; Return (a ++ b)).
Proof.
  induction ps as [| p ps IH]; cbn [app main.from_orm_all bind].
  - destruct (main.from_orm_all qs); reflexivity.
  - destruct (ProblemOut.from_orm p) as [o | e]; cbn [bind]; [| reflexivity].
    rewrite IH. destruct (main.from_orm_all ps) as [a | e]; cbn [bind]; [| reflexivity].
    destruct (main.from_orm_all qs); reflexivity.
Qed.

Lemma Forall2_In_r {A B} (R : A -> B -> Prop) l l' y :
  Forall2 R l l' -> In y l' -> exists x, In x l /\ R x y.
Proof.
  induction 1 as [| a b l l' Hab _ IH]; intros Hin; [destruct Hin |].
  destruct Hin as [<- | Hin].
  - exists a. split; [left; reflexivity | exact Hab].
  - destruct (IH Hin) as (x & Hx & Hr). exists x. split; [right; exact Hx | exact Hr].
Qed.

Lemma Forall2_In_l {A B} (R : A -> B -> Prop) l l' x :
  Forall2 R l l' -> In x l -> exists y, In y l' /\ R x y.
Proof.
  induction 1 as [| a b l l' Hab _ IH]; intros Hin; [destruct Hin |].
  destruct Hin as [<- | Hin].
  - exists b. split; [left; reflexivity | exact Hab].
  - destruct (IH Hin) as (y & Hy & Hr). exists y. split; [right; exact Hy | exact Hr].
Qed.

Lemma In_filter_if {A} (c : bool) (f : A -> bool) l x :
  In x (if c then filter f l else l) <-> In x l /\ (c = true -> f x = true).
Proof.
  destruct c.
  - rewrite filter_In. split; intros [H1 H2]; auto.
  - split; [intros H; split; [exact H | discriminate] | intros [H _]; exact H].
Qed.

Lemma opt_eqb_str_refl a : opt_eqb str_eqb a a = true.
Proof. destruct a; [apply str_eqb_refl | reflexivity]. Qed.

(** X15.  GET /problems on a well-formed store succeeds.  Every problem
    it lists is owned by the caller and passes each filter that is set (a
    filter left out or given as the empty string is not set), and every
    stored problem of the caller that passes the set filters is listed,
    as its from_orm image. *)
Theorem list_problems_sound_complete subject course bookmarked_only db current_user :
  wf_db db ->
  exists outs,
    main.list_problems subject course bookmarked_only db current_user = Return outs
    /\ (forall o, In o outs ->
          ProblemOut.owner_id o = Some (User.id current_user)
          /\ (truthy_str subject = true -> ProblemOut.subject o = subject)
          /\ (truthy_str course = true -> ProblemOut.course o = course)
          /\ (bookmarked_only = true -> ProblemOut.is_bookmarked o = true))
    /\ (forall p, In p (problems db) ->
          Problem.owner_id p = Some (User.id current_user) ->
          (truthy_str subject = true -> Problem.subject p = subject) ->
          (truthy_str course = true -> Problem.course p = course) ->
          (bookmarked_only = true -> Problem.is_bookmarked p = true) ->
          exists o, In o outs /\ ProblemOut.from_orm p = Return o).
Proof.
  intros [_ Hp]. unfold main.list_problems.
  set (q0 := filter _ (problems db)).
  set (q1 := if truthy_str subject then filter _ q0 else q0).
  set (q2 := if truthy_str course then filter _ q1 else q1).
  set (q3 := if bookmarked_only then filter _ q2 else q2).
  assert (Hin : forall p, In p q3 <->
            In p (problems db)
            /\ opt_eqb Z.eqb (Problem.owner_id p) (Some (User.id current_user)) = true
            /\ (truthy_str subject = true ->
                opt_eqb str_eqb (Problem.subject p) subject = true)
            /\ (truthy_str course = true ->
                opt_eqb str_eqb (Problem.course p) course = true)
            /\ (bookmarked_only = true -> Problem.is_bookmarked p = true)).
  { intros p. unfold q3, q2, q1, q0. rewrite !In_filter_if, filter_In. tauto. }
  assert (Hwf : Forall wf_problem q3).
  { rewrite Forall_forall in *. intros p H. apply Hp. apply Hin in H. tauto. }
  destruct (from_orm_all_wf _ Hwf) as (outs & E & F).
  exists outs. split; [exact E |]. split.
  - intros o Ho. destruct (Forall2_In_r _ _ _ _ F Ho) as (p & Hpin & Hfrom).
    apply Hin in Hpin. destruct Hpin as (_ & Hown & Hs & Hc & Hb).
    destruct (from_orm_inv _ _ Hfrom) as (_ & _ & ->).
    cbn [ProblemOut.owner_id ProblemOut.subject ProblemOut.course ProblemOut.is_bookmarked].
    split; [apply opt_eqb_Z_eq; exact Hown |].
    split; [intros H; apply opt_eqb_str_eq; auto |].
    split; [intros H; apply opt_eqb_str_eq; auto | exact Hb].
  - intros p Hpin Hown Hs Hc Hb. apply (Forall2_In_l _ _ _ _ F). apply Hin.
    split; [exact Hpin |]. split; [rewrite Hown; cbn; apply Z.eqb_refl |].
    split; [intros H; rewrite (Hs H); apply opt_eqb_str_refl |].
    split; [intros H; rewrite (Hc H); apply opt_eqb_str_refl | exact Hb].
Qed.

Lemma list_problems_sound_complete_witness :
  exists outs,
    main.list_problems (Some (py "math")) (Some []) false examples.db0 examples.alice
    = Return outs
    /\ exists o, In o outs /\ ProblemOut.from_orm examples.problem1 = Return o.
Proof.
  destruct (list_problems_sound_complete (Some (py "math")) (Some []) false
              examples.db0 examples.alice wf_db0) as (outs & E & _ & Hc).
  exists outs. split; [exact E |].
  apply Hc.
  - left. reflexivity.
  - reflexivity.
  - reflexivity.
  - discriminate.
  - discriminate.
Defined.

(** X16.  After a successful upload the caller's unfiltered listing is
    the one before with the answer of the upload appended, and every
    other user's listing, under any filters, is as before. *)
Theorem upload_then_listed raw file source_type subject course problem_type knowledge_tags
    difficulty tags notes db current_user now out :
  snd (main.upload_problem raw file source_type subject course problem_type
         knowledge_tags difficulty tags notes db current_user now) = Return out ->
  (forall outs,
     main.list_problems None None false db current_user = Return outs ->
     main.list_problems None None false
       (fst (main.upload_problem raw file source_type subject course problem_type
               knowledge_tags difficulty tags notes db current_user now))
       current_user = Return (outs ++ [out]))
  /\ (forall s c b other,
        User.id other <> User.id current_user ->
        main.list_problems s c b
          (fst (main.upload_problem raw file source_type subject course problem_type
                  knowledge_tags difficulty tags notes db current_user now))
          other = main.list_problems s c b db other).
Proof.
  intros H. destruct (upload_return_inv _ _ _ _ _ _ _ _ _ _ _ _ _ _ H)
    as (problem_in & -> & Hfrom & _).
  cbn [fst].
  set (p := snd (crud.create_problem db (User.id current_user) problem_in now)) in *.
  assert (Hps : problems (fst (crud.create_problem db (User.id current_user) problem_in now))
                = problems db ++ [p]) by reflexivity.
  assert (Hown : Problem.owner_id p = Some (User.id current_user)) by reflexivity.
  split.
  - intros outs Houts. unfold main.list_problems in *. cbn [truthy_str] in *.
    rewrite Hps, filter_app, from_orm_all_app, Houts. cbn [bind filter].
    rewrite Hown. cbn [opt_eqb]. rewrite Z.eqb_refl.
    cbn [main.from_orm_all]. rewrite Hfrom. reflexivity.
  - intros s c b other Hne. unfold main.list_problems.
    rewrite Hps, filter_app. cbn [filter]. rewrite Hown. cbn [opt_eqb].
    destruct (Z.eqb_spec (User.id current_user) (User.id other)); [congruence |].
    rewrite app_nil_r. reflexivity.
Qed.

Lemma upload_then_listed_witness :
  exists out,
    main.list_problems None None false
      (fst (main.upload_problem (Some (py "1+1=?")) None (py "text") None None None
              None None None None examples.db0 examples.alice 9))
      examples.bob = main.list_problems None None false examples.db0 examples.bob
    /\ snd (main.upload_problem (Some (py "1+1=?")) None (py "text") None None None
              None None None None examples.db0 examples.alice 9) = Return out.
Proof.
  eexists. split; [| reflexivity].
  apply (proj2 (upload_then_listed (Some (py "1+1=?")) None (py "text") None None None
                  None None None None examples.db0 examples.alice 9 _ eq_refl)).
  discriminate.
Defined.

(** *** Runs of the laws above on the example store *)

Lemma reachable_wf_witness :
  wf_db (fst (main.admin_ban_user 1
                (fst (main.register conftest.mock_context
                        (UserCreate.mk (py "carol") (py "pw123456") None)
                        examples.db0 (py "uuid-carol") (py "salt") 7))
                examples.root)).
Proof.
  apply (reachable_wf examples.db0 _ wf_db0).
  apply reach_ban. apply reach_register. apply reach_start.
Defined.

(* ===================================================================== *)
(** ** Registration, the test doubles, user listings and the learning profile *)
(* ===================================================================== *)

(** *** Register, then log in *)

(** Over [crud]: register, then log in. *)
Lemma register_then_login KEY sign pwd_context user_in db uuid salt now hashed :
  crud.get_user_by_username db (UserCreate.username user_in) = None ->
  (forall u, In u (users db) -> User.uuid u <> uuid) ->
  crud.get_password_hash pwd_context (UserCreate.password user_in) salt = Return hashed ->
  exists user,
    snd (main.register pwd_context user_in db uuid salt now) = Return user
    /\ (crud.verify_password pwd_context (UserCreate.password user_in) hashed
        = Return true ->
        forall issued utcnow,
          timegm utcnow <= timegm (issued + minutes main.ACCESS_TOKEN_EXPIRE_MINUTES) ->
          exists token,
            main.login KEY sign pwd_context (UserCreate.username user_in)
              (UserCreate.password user_in)
              (fst (main.register pwd_context user_in db uuid salt now)) issued
            = Return token
            /\ main.get_current_user KEY sign token
                 (fst (main.register pwd_context user_in db uuid salt now)) utcnow
               = Return user)
    /\ (forall wrong issued,
          crud.verify_password pwd_context wrong hashed = Return false ->
          main.login KEY sign pwd_context (UserCreate.username user_in) wrong
            (fst (main.register pwd_context user_in db uuid salt now)) issued
          = Raise (HTTPException 400 IncorrectUsernameOrPassword)).
Proof.
  intros Hnone Huuid Hhash.
  rewrite (register_fresh pwd_context user_in db uuid salt now hashed Hnone Huuid Hhash).
  cbn [fst snd].
  set (user := User.mk (next_id (map User.id (users db))) uuid
                 (UserCreate.username user_in) hashed
                 (UserCreate.nickname user_in) true false now).
  assert (Hfound : crud.get_user_by_username
                     {| users := users db ++ [user]; problems := problems db |}
                     (UserCreate.username user_in) = Some user).
  { apply (get_user_by_username_appended db user). exact Hnone. }
  exists user. split; [reflexivity |]. split.
  - intros Hv issued utcnow Ht. eexists. split.
    + apply (login_success KEY sign pwd_context _ _ _ issued user Hfound). exact Hv.
    + apply fresh_token_resolves; [exact Hfound | exact Ht].
  - intros wrong issued Hv. unfold main.login.
    rewrite authenticate_user_unfold, Hfound. cbn [User.hashed_password user].
    unfold user. cbn [User.hashed_password]. rewrite Hv. reflexivity.
Qed.

(** *** The test doubles *)

(** X18.  The password doubles of conftest.py: the mock verification
    accepts a plaintext against a mock hash exactly when it is the
    password that was hashed, and distinct passwords have distinct mock
    hashes. *)
Theorem mock_verify_iff plain password :
  (conftest.mock_verify_password plain (conftest.mock_password_hash password) = true
   <-> plain = password)
  /\ (conftest.mock_password_hash plain = conftest.mock_password_hash password
      -> plain = password).
Proof.
  assert (Hinj : conftest.mock_password_hash plain = conftest.mock_password_hash password
                 -> plain = password).
  { unfold conftest.mock_password_hash. intros H.
    apply app_inv_head in H. apply app_inv_tail in H. exact H. }
  split; [| exact Hinj].
  unfold conftest.mock_verify_password. rewrite str_eqb_eq. split.
  - exact Hinj.
  - intros ->. reflexivity.
Qed.

(** *** Listing users *)

Lemma nth_error_skipn_add {A} n : forall (l : list A) i,
  nth_error (skipn n l) i = nth_error l (n + i).
Proof.
  induction n as [| n IH]; intros l i; [reflexivity |].
  destruct l as [| x l]; [destruct i; reflexivity |].
  cbn [skipn Nat.add nth_error]. apply IH.
Qed.

Lemma nth_error_firstn_lt {A} n : forall (l : list A) i,
  nth_error (firstn n l) i = if (i <? n)%nat then nth_error l i else None.
Proof.
  induction n as [| n IH]; intros l i.
  - cbn [firstn]. destruct i; reflexivity.
  - destruct l as [| x l].
    + cbn [firstn]. destruct i; cbn [nth_error]; destruct (_ <? _)%nat; reflexivity.
    + destruct i as [| i]; [reflexivity |].
      cbn [firstn nth_error]. rewrite IH. reflexivity.
Qed.

Lemma firstn_pages {A} a b : forall (l : list A),
  firstn a l ++ firstn b (skipn a l) = firstn (a + b) l.
Proof.
  induction a as [| a IH]; intros l; [reflexivity |].
  destruct l as [| x l].
  - cbn [firstn skipn Nat.add app]. destruct b; reflexivity.
  - cbn [firstn skipn Nat.add app]. rewrite IH. reflexivity.
Qed.

Lemma skipn_pages {A} a b : forall (l : list A),
  skipn b (skipn a l) = skipn (a + b) l.
Proof.
  induction a as [| a IH]; intros l; [reflexivity |].
  destruct l as [| x l].
  - cbn [skipn Nat.add]. destruct b; reflexivity.
  - cbn [skipn Nat.add]. apply IH.
Qed.

Lemma length_firstn_le {A} n : forall (l : list A), (length (firstn n l) <= n)%nat.
Proof.
  induction n as [| n IH]; intros l; [cbn; lia |].
  destruct l as [| x l]; cbn [firstn length]; [lia |].
  specialize (IH l). lia.
Qed.

(** X19.  list_users with an offset and a limit that are not negative
    returns the window of the table that starts after [skip] rows and is
    at most [limit] rows long, in table order; two adjacent pages put
    together are the one page of both sizes. *)
Theorem list_users_window db skip limit :
  0 <= skip -> 0 <= limit ->
  (forall i,
     nth_error (crud.list_users db skip limit) i
     = if (i <? Z.to_nat limit)%nat
       then nth_error (users db) (Z.to_nat skip + i) else None)
  /\ Z.of_nat (length (crud.list_users db skip limit)) <= limit
  /\ (forall a b,
        0 <= a -> 0 <= b -> limit = a + b ->
        crud.list_users db skip a ++ crud.list_users db (skip + a) b
        = crud.list_users db skip limit).
Proof.
  intros Hs Hl. unfold crud.list_users, crud.limit_rows, crud.offset_rows.
  destruct (Z.ltb_spec limit 0); [lia |]. split; [| split].
  - intros i. rewrite nth_error_firstn_lt, nth_error_skipn_add. reflexivity.
  - pose proof (length_firstn_le (Z.to_nat limit) (skipn (Z.to_nat skip) (users db))).
    lia.
  - intros a b Ha Hb ->.
    destruct (Z.ltb_spec a 0); [lia |]. destruct (Z.ltb_spec b 0); [lia |].
    rewrite !Z2Nat.inj_add by lia. rewrite <- skipn_pages. apply firstn_pages.
Qed.

Lemma list_users_window_witness :
  crud.list_users examples.db1 1 1 ++ crud.list_users examples.db1 (1 + 1) 1
  = crud.list_users examples.db1 1 2.
Proof.
  apply (proj2 (proj2 (list_users_window examples.db1 1 2 ltac:(lia) ltac:(lia))) 1 1);
    lia.
Defined.

(** X20.  GET /admin/users.  A caller who is not an administrator gets
    403.  An administrator gets the first hundred rows of the users
    table: never more than a hundred, all of them when the table holds no
    more, and the rows past the hundredth are left out. *)
Theorem admin_list_users_cap db current_user :
  (User.is_admin current_user = false ->
   main.admin_list_users db current_user = Raise (HTTPException 403 RequiresAdmin))
  /\ (User.is_admin current_user = true ->
      exists listed,
        main.admin_list_users db current_user = Return listed
        /\ users db = listed ++ skipn 100 (users db)
        /\ (length listed <= 100)%nat
        /\ ((length (users db) <= 100)%nat -> listed = users db)).
Proof.
  unfold main.admin_list_users, crud.list_users, crud.limit_rows, crud.offset_rows.
  split; intros ->; [reflexivity |].
  cbn [negb]. change (100 <? 0) with false. change (Z.to_nat 0) with 0%nat.
  cbn [skipn]. change (Z.to_nat 100) with 100%nat.
  exists (firstn 100 (users db)). split; [reflexivity |]. split; [| split].
  - symmetry. apply firstn_skipn.
  - apply length_firstn_le.
  - intros H. apply firstn_all2. exact H.
Qed.

(** *** The learning profile *)

Lemma opt_eqb_str_true_iff a b : opt_eqb str_eqb a b = true <-> a = b.
Proof.
  split; [apply opt_eqb_str_eq | intros ->; apply opt_eqb_str_refl].
Qed.

Lemma dict_get_set (score : Type) (k k' : option str) (v : score) d :
  crud.dict_get k (crud.dict_set k' v d)
  = if opt_eqb str_eqb k' k then Some v else crud.dict_get k d.
Proof.
  unfold crud.dict_get. induction d as [| [k0 v0] d IH]; cbn [crud.dict_set find fst].
  - destruct (opt_eqb str_eqb k' k); reflexivity.
  - destruct (opt_eqb str_eqb k0 k') eqn:E; cbn [find fst].
    + apply opt_eqb_str_eq in E. subst k0.
      destruct (opt_eqb str_eqb k' k); reflexivity.
    + destruct (opt_eqb str_eqb k0 k) eqn:E0.
      * destruct (opt_eqb str_eqb k' k) eqn:E1; [| reflexivity].
        apply opt_eqb_str_eq in E0, E1. subst.
        rewrite opt_eqb_str_refl in E. discriminate.
      * exact IH.
Qed.

Lemma dict_set_keys (score : Type) (k : option str) (v : score) d x :
  In x (map fst (crud.dict_set k v d)) -> x = k \/ In x (map fst d).
Proof.
  induction d as [| [k0 v0] d IH]; cbn [crud.dict_set map fst In].
  - intros [<- | []]. left. reflexivity.
  - destruct (opt_eqb str_eqb k0 k); cbn [map fst In]; [tauto |].
    intros [<- | H]; [tauto |]. destruct (IH H); tauto.
Qed.

Lemma dict_set_NoDup (score : Type) (k : option str) (v : score) d :
  NoDup (map fst d) -> NoDup (map fst (crud.dict_set k v d)).
Proof.
  induction d as [| [k0 v0] d IH]; cbn [crud.dict_set map fst]; intros H.
  - constructor; [intros [] | constructor].
  - inversion H as [| x l Hnotin Hnd]; subst.
    destruct (opt_eqb str_eqb k0 k) eqn:E; cbn [map fst].
    + constructor; assumption.
    + constructor; [| apply IH; exact Hnd].
      intros Hin. apply dict_set_keys in Hin. destruct Hin as [-> | Hin].
      * rewrite opt_eqb_str_refl in E. discriminate.
      * contradiction.
Qed.

Lemma dict_comprehension_get (score : Type) (rows : list (TopicMastery.t score)) k :
  forall d,
    crud.dict_get k
      (fold_left (fun d r => crud.dict_set (TopicMastery.topic r) (TopicMastery.mastery r) d)
         rows d)
    = match find (fun r => opt_eqb str_eqb (TopicMastery.topic r) k) (rev rows) with
      | Some r => Some (TopicMastery.mastery r)
      | None => crud.dict_get k d
      end.
Proof.
  induction rows as [| r rows IH]; intros d; [reflexivity |].
  cbn [fold_left rev]. rewrite IH, find_app.
  destruct (find _ (rev rows)); [reflexivity |].
  cbn [find]. rewrite dict_get_set.
  destruct (opt_eqb str_eqb (TopicMastery.topic r) k); reflexivity.
Qed.

Lemma dict_comprehension_NoDup (score : Type) (rows : list (TopicMastery.t score)) :
  forall d,
    NoDup (map fst d) ->
    NoDup (map fst
             (fold_left
                (fun d r => crud.dict_set (TopicMastery.topic r) (TopicMastery.mastery r) d)
                rows d)).
Proof.
  induction rows as [| r rows IH]; intros d H; [exact H |].
  cbn [fold_left]. apply IH. apply dict_set_NoDup. exact H.
Qed.

(** X21.  The learning profile of a user.  Looking a topic up in the
    mastery dict gives the score of the last row of topic_mastery that
    belongs to the user and names that topic, and nothing when there is
    none: rows of other users never show, and of several rows on one
    topic the latest wins.  No topic is listed twice, the trend is empty
    and the user id is the one asked for. *)
Theorem learning_profile_lookup (score : Type) (rows : list (TopicMastery.t score))
    (user_id : Z) :
  (forall topic,
     crud.dict_get topic (crud.Profile.mastery (crud.get_learning_profile rows user_id))
     = option_map (fun r => TopicMastery.mastery r)
         (find (fun r => opt_eqb str_eqb (TopicMastery.topic r) topic)
            (rev (filter (fun r => opt_eqb Z.eqb (TopicMastery.user_id r) (Some user_id))
                    rows))))
  /\ NoDup (map fst (crud.Profile.mastery (crud.get_learning_profile rows user_id)))
  /\ crud.Profile.trend (crud.get_learning_profile rows user_id) = []
  /\ crud.Profile.user_id (crud.get_learning_profile rows user_id) = user_id.
Proof.
  unfold crud.get_learning_profile.
  cbn [crud.Profile.mastery crud.Profile.trend crud.Profile.user_id].
  split; [| split; [| split; reflexivity]].
  - intros topic. rewrite dict_comprehension_get.
    destruct (find _ (rev _)); reflexivity.
  - apply dict_comprehension_NoDup. constructor.
Qed.

(* ===================================================================== *)
(** ** Repeated writes and the owners of problems *)
(* ===================================================================== *)

(** *** Writing twice *)

Lemma opt_eqb_Z_refl a : opt_eqb Z.eqb a a = true.
Proof. destruct a; [apply Z.eqb_refl | reflexivity]. Qed.

Lemma Problem_eqb_refl p : Problem_eqb p p = true.
Proof.
  unfold Problem_eqb.
  rewrite !Z.eqb_refl, !opt_eqb_Z_refl, !opt_eqb_str_refl, str_eqb_refl, Bool.eqb_reflx.
  reflexivity.
Qed.

Lemma or_keep_opt_idem {A} (new old : option A) :
  crud.or_keep_opt new (crud.or_keep_opt new old) = crud.or_keep_opt new old.
Proof. destruct new; reflexivity. Qed.

Lemma or_keep_idem {A} (new : option A) (old : A) :
  crud.or_keep new (crud.or_keep new old) = crud.or_keep new old.
Proof. destruct new; reflexivity. Qed.

Lemma assign_idem p u : crud.assign (crud.assign p u) u = crud.assign p u.
Proof.
  unfold crud.assign.
  cbn [Problem.id Problem.owner_id Problem.source_type Problem.raw Problem.file_content
       Problem.parsed Problem.subject Problem.course Problem.problem_type
       Problem.knowledge_tags Problem.difficulty Problem.is_bookmarked Problem.tags
       Problem.notes Problem.created_at Problem.updated_at].
  rewrite !or_keep_opt_idem, or_keep_idem. reflexivity.
Qed.

(** A flushed row takes nothing more from the same payload. *)
Lemma flush_idem p u now now' :
  crud.flush (crud.flush p u now) u now' = crud.flush p u now.
Proof.
  assert (H : crud.assign (crud.flush p u now) u = crud.flush p u now).
  { destruct (flush_cases p u now) as [-> | ->].
    - apply assign_idem.
    - transitivity (Problem.set_updated_at (crud.assign (crud.assign p u) u) now);
        [reflexivity | rewrite assign_idem; reflexivity]. }
  unfold crud.flush at 1. rewrite H, Problem_eqb_refl. reflexivity.
Qed.

(** X23.  A PATCH repeated writes nothing.  After an update of a stored
    problem, the same payload again, at any later time, returns the same
    row and leaves the store, updated_at included, as the first update
    left it. *)
Theorem update_problem_idempotent db problem_id p problem_in now now' :
  crud.get_problem db problem_id = Some p ->
  crud.update_problem (fst (crud.update_problem db problem_id problem_in now))
    problem_id problem_in now'
  = (fst (crud.update_problem db problem_id problem_in now),
     Some (crud.flush p problem_in now)).
Proof.
  intros Hget.
  destruct (update_problem_returns_flushed db problem_id p problem_in now Hget) as [E Hq].
  unfold crud.update_problem at 1. unfold crud.get_problem in Hq. rewrite Hq.
  rewrite flush_idem. f_equal.
  unfold crud.update_problem. unfold crud.get_problem in Hget. rewrite Hget.
  cbn [fst users problems]. f_equal. rewrite map_map. apply map_ext. intros q.
  destruct (Problem.id q =? problem_id) eqn:Eq; [| rewrite Eq; reflexivity].
  rewrite flush_id, Eq. apply flush_idem.
Qed.

Lemma update_problem_idempotent_witness :
  crud.update_problem
    (fst (crud.update_problem examples.db0 1 (subject_only (py "X")) 9))
    1 (subject_only (py "X")) 10
  = (fst (crud.update_problem examples.db0 1 (subject_only (py "X")) 9),
     Some (crud.flush examples.problem1 (subject_only (py "X")) 9)).
Proof.
  apply (update_problem_idempotent examples.db0 1 examples.problem1
           (subject_only (py "X")) 9 10).
  reflexivity.
Defined.

(** *** The owner of a problem is a user *)

Lemma owners_exist_more_users db db' :
  problems db' = problems db ->
  (forall x, In x (map User.id (users db)) -> In x (map User.id (users db'))) ->
  owners_exist db -> owners_exist db'.
Proof.
  intros Hp Hu H p o Hin Ho. rewrite Hp in Hin. apply Hu. exact (H p o Hin Ho).
Qed.

Lemma create_user_owners pwd_context db user_in uuid salt now :
  owners_exist db ->
  owners_exist (fst (crud.create_user pwd_context db user_in uuid salt now)).
Proof.
  intros H. unfold crud.create_user.
  destruct (crud.get_password_hash pwd_context _ salt); [| exact H].
  destruct (existsb _ (users db)); [exact H |].
  apply (owners_exist_more_users db); [reflexivity | | exact H].
  intros x Hx. cbn [fst users]. rewrite map_app. apply in_or_app. left. exact Hx.
Qed.

Lemma set_user_active_owners db user_id active :
  owners_exist db -> owners_exist (fst (crud.set_user_active db user_id active)).
Proof.
  intros H. unfold crud.set_user_active.
  destruct (find _ (users db)); [| exact H].
  apply (owners_exist_more_users db); [reflexivity | | exact H].
  intros x Hx. cbn [fst users]. rewrite map_map.
  erewrite map_ext; [exact Hx |].
  intros u. destruct (User.id u =? user_id); reflexivity.
Qed.

Lemma create_problem_owners db current_user problem_in now :
  In current_user (users db) -> owners_exist db ->
  owners_exist (fst (crud.create_problem db (User.id current_user) problem_in now)).
Proof.
  intros Hin H p o Hp Ho. cbn [crud.create_problem fst problems users] in *.
  apply in_app_or in Hp. destruct Hp as [Hp | [<- | []]].
  - exact (H p o Hp Ho).
  - cbn [Problem.owner_id] in Ho. injection Ho as <-. apply in_map. exact Hin.
Qed.

Lemma update_problem_owners db problem_id u now :
  owners_exist db -> owners_exist (fst (crud.update_problem db problem_id u now)).
Proof.
  intros H. unfold crud.update_problem.
  destruct (find _ (problems db)); [| exact H].
  intros p o Hp Ho. cbn [fst problems users] in *.
  apply in_map_iff in Hp. destruct Hp as (q & <- & Hq).
  apply (H q o Hq). rewrite <- Ho.
  destruct (Problem.id q =? problem_id); [| reflexivity].
  symmetry. destruct (flush_untouched q u now) as (_ & Hown & _). exact Hown.
Qed.

(** X24.  In every store the handlers build from one where each owner is
    a stored user, the owner of every problem is the id of a stored user:
    the code keeps the foreign key of problems by itself. *)
Theorem reachable_owners_exist start db :
  owners_exist start -> reachable start db -> owners_exist db.
Proof.
  intros Hstart Hr. induction Hr as [| ctx user_in db uuid salt now Hr IH
    | raw file source_type subject course problem_type knowledge_tags difficulty tags
        notes db current_user now Hr IH Hin Hk Ht
    | problem_id problem_in db current_user now Hr IH Hin Hu
    | user_id db current_user Hr IH].
  - exact Hstart.
  - unfold main.register.
    destruct (crud.get_user_by_username db (UserCreate.username user_in));
      [exact IH | apply create_user_owners; exact IH].
  - destruct (upload_problem_fst raw file source_type subject course problem_type
                knowledge_tags difficulty tags notes db current_user now)
      as [-> | (problem_in & ->)]; [exact IH |].
    apply create_problem_owners; assumption.
  - unfold main.update_problem.
    destruct (crud.get_problem db problem_id) as [p |]; [| exact IH].
    destruct (main.ne_int (Problem.owner_id p) (User.id current_user)); [exact IH |].
    pose proof (update_problem_owners db problem_id problem_in now IH) as H.
    destruct (crud.update_problem db problem_id problem_in now) as [db' [p' |]]; exact H.
  - rewrite admin_ban_user_fst. destruct (User.is_admin current_user); [| exact IH].
    apply set_user_active_owners. exact IH.
Qed.

Lemma owners_exist_db0 : owners_exist examples.db0.
Proof.
  intros p o [<- | [<- | []]] Ho; cbn in Ho; [| discriminate].
  injection Ho as <-. left. reflexivity.
Qed.

Lemma reachable_owners_exist_witness :
  owners_exist
    (fst (main.upload_problem (Some (py "1+1=?")) None (py "text") None None None
            None None None None examples.db0 examples.bob 9)).
Proof.
  apply (reachable_owners_exist examples.db0 _ owners_exist_db0).
  apply reach_upload; [apply reach_start | right; left; reflexivity | exact I | exact I].
Defined.

(** *** A run of the learning profile *)

(** Of two rows of user 1 on one topic the later one shows; the row of
    user 2 does not. *)
Example learning_profile_latest_wins :
  crud.Profile.mastery (crud.get_learning_profile examples.mastery_rows 1)
  = [(Some (py "algebra"), 750)]
  /\ crud.Profile.mastery (crud.get_learning_profile examples.mastery_rows 3) = [].
Proof. split; reflexivity. Qed.

(* ===================================================================== *)
(** ** The driver: what binds, and where the two layers agree *)
(* ===================================================================== *)

(** *** Text the driver binds *)

Lemma encodable_ascii s : Forall (fun c => (c < 128)%N) s -> sqlite3.encodable s = true.
Proof.
  intros H. unfold sqlite3.encodable. apply forallb_forall. intros c Hc.
  rewrite Forall_forall in H. specialize (H c Hc). unfold is_scalar.
  apply orb_true_iff. left. apply N.ltb_lt. lia.
Qed.

Lemma encodable_app a b :
  sqlite3.encodable a = true -> sqlite3.encodable b = true ->
  sqlite3.encodable (a ++ b) = true.
Proof.
  unfold sqlite3.encodable. intros Ha Hb. rewrite forallb_app, Ha, Hb. reflexivity.
Qed.

Lemma bind_text_ok s : sqlite3.encodable s = true -> sqlite3.bind_text s = Return tt.
Proof. intros H. unfold sqlite3.bind_text. rewrite H. reflexivity. Qed.

Lemma bind_opt_text_ok v : binds_text v -> sqlite3.bind_opt sqlite3.bind_text v = Return tt.
Proof. destruct v as [s |]; cbn; [apply bind_text_ok | reflexivity]. Qed.

Lemma bind_opt_int_ok v : binds_int v -> sqlite3.bind_opt sqlite3.bind_int v = Return tt.
Proof.
  destruct v as [n |]; cbn; [| reflexivity].
  intros H. unfold sqlite3.bind_int. rewrite H. reflexivity.
Qed.

(** What the encoder writes is ASCII. *)
Lemma hex_digit_ascii d : (d < 16 -> json.hex_digit d < 128)%N.
Proof.
  intros H. unfold json.hex_digit. destruct (N.ltb_spec d 10); lia.
Qed.

Lemma u_escape_ascii n :
  (n < 65536)%N -> Forall (fun c => (c < 128)%N) (json.u_escape n).
Proof.
  intros H. unfold json.u_escape, json.BACKSLASH, json.LETTER_u.
  repeat constructor; try lia; apply hex_digit_ascii.
  - apply N.Div0.div_lt_upper_bound. exact H.
  - apply N.mod_lt. discriminate.
  - apply N.mod_lt. discriminate.
  - apply N.mod_lt. discriminate.
Qed.

Lemma ESCAPE_DCT_ascii c e :
  json.ESCAPE_DCT c = Some e -> Forall (fun c => (c < 128)%N) e.
Proof.
  unfold json.ESCAPE_DCT, json.BACKSLASH, json.QUOTE.
  repeat match goal with
         | |- context [if (?a =? ?b)%N then _ else _] => destruct (a =? b)%N
         end;
    try (intros H; injection H as <-; repeat constructor; lia).
  destruct (N.ltb_spec c 32); [| discriminate].
  intros H'. injection H' as <-. apply u_escape_ascii. lia.
Qed.

Lemma replace_ascii c : Forall (fun c => (c < 128)%N) (json.replace c).
Proof.
  unfold json.replace. destruct (json.ESCAPE_DCT c) as [e |] eqn:E.
  - eapply ESCAPE_DCT_ascii. exact E.
  - destruct (N.ltb_spec c 65536); [apply u_escape_ascii; assumption |].
    cbv zeta. apply Forall_app. split; apply u_escape_ascii.
    + rewrite land_1023, lor_55296 by (apply N.mod_lt; discriminate).
      pose proof (N.mod_lt (N.shiftr (c - 65536) 10) 1024). lia.
    + rewrite land_1023, lor_56320 by (apply N.mod_lt; discriminate).
      pose proof (N.mod_lt (c - 65536) 1024). lia.
Qed.

Lemma escape_char_ascii c : Forall (fun c => (c < 128)%N) (json.escape_char c).
Proof.
  unfold json.escape_char. destruct (json.ESCAPE_ASCII c) eqn:E; [apply replace_ascii |].
  unfold json.ESCAPE_ASCII in E.
  apply orb_false_iff in E. destruct E as [_ E]. apply negb_false_iff in E.
  apply andb_true_iff in E. destruct E as [_ E]. apply N.leb_le in E.
  constructor; [lia | constructor].
Qed.

Lemma encode_basestring_ascii s :
  Forall (fun c => (c < 128)%N) (json.py_encode_basestring_ascii s).
Proof.
  unfold json.py_encode_basestring_ascii, json.QUOTE.
  constructor; [lia |]. apply Forall_app. split.
  - induction s as [| c s IH]; cbn [flat_map]; [constructor |].
    apply Forall_app. split; [apply escape_char_ascii | exact IH].
  - constructor; [lia | constructor].
Qed.

Lemma join_items_ascii items :
  Forall (Forall (fun c => (c < 128)%N)) items ->
  Forall (fun c => (c < 128)%N) (json.join_items items).
Proof.
  induction 1 as [| x items Hx Hitems IH]; [constructor |].
  cbn [json.join_items]. destruct items as [| y items]; [exact Hx |].
  apply Forall_app. split; [exact Hx |].
  apply Forall_app. split; [| exact IH].
  repeat constructor.
Qed.

Lemma dumps_ascii l : Forall (fun c => (c < 128)%N) (json.dumps l).
Proof.
  unfold json.dumps. apply Forall_app. split; [repeat constructor |].
  apply Forall_app. split; [| repeat constructor].
  apply join_items_ascii. apply Forall_forall. intros x Hx.
  apply in_map_iff in Hx. destruct Hx as (s & <- & _). apply encode_basestring_ascii.
Qed.

Lemma binds_dumps (l : option (list str)) : binds_text (option_map json.dumps l).
Proof.
  destruct l as [L |]; cbn [option_map binds_text]; [| exact I].
  apply encodable_ascii. apply dumps_ascii.
Qed.

(** So is base64 text. *)
Lemma alphabet_ascii i : (base64.alphabet i < 128)%N.
Proof.
  unfold base64.alphabet.
  destruct (N.ltb_spec i 26); [lia |].
  destruct (N.ltb_spec i 52); [lia |].
  destruct (N.ltb_spec i 62); [lia |].
  destruct (i =? 62)%N; lia.
Qed.

Lemma b64encode_ascii bs : Forall (fun c => (c < 128)%N) (base64.b64encode bs).
Proof.
  assert (H : forall n bs, (length bs <= n)%nat ->
                           Forall (fun c => (c < 128)%N) (base64.b64encode bs)).
  { induction n as [| n IH]; intros l Hl.
    - destruct l; [constructor | cbn in Hl; lia].
    - destruct l as [| a [| b [| c rest]]]; cbn [base64.b64encode];
        unfold base64.sextet, base64.PAD.
      + constructor.
      + repeat constructor; try apply alphabet_ascii; lia.
      + repeat constructor; try apply alphabet_ascii; lia.
      + repeat (constructor; [apply alphabet_ascii |]).
        apply IH. cbn [length] in Hl. lia. }
  apply (H (length bs)). lia.
Qed.

(** *** The handlers behind the driver agree with the handlers *)

Lemma get_user_by_username_db_agrees db username :
  sqlite3.encodable username = true ->
  crud_db.get_user_by_username db username
  = Return (crud.get_user_by_username db username).
Proof.
  intros H. unfold crud_db.get_user_by_username. rewrite (bind_text_ok _ H). reflexivity.
Qed.

Lemma register_db_agrees pwd_context user_in db uuid salt now hashed :
  sqlite3.encodable (UserCreate.username user_in) = true ->
  sqlite3.encodable uuid = true ->
  binds_text (UserCreate.nickname user_in) ->
  crud.get_password_hash pwd_context (UserCreate.password user_in) salt = Return hashed ->
  sqlite3.encodable hashed = true ->
  main_db.register pwd_context user_in db uuid salt now
  = main.register pwd_context user_in db uuid salt now.
Proof.
  intros Hn Hu Hk Hh He. unfold main_db.register, main.register.
  rewrite (get_user_by_username_db_agrees _ _ Hn).
  destruct (crud.get_user_by_username db (UserCreate.username user_in)); [reflexivity |].
  unfold crud_db.create_user. rewrite Hh.
  rewrite (bind_text_ok _ Hu). cbn [bind]. rewrite (bind_text_ok _ Hn). cbn [bind].
  rewrite (bind_text_ok _ He). cbn [bind]. rewrite (bind_opt_text_ok _ Hk). reflexivity.
Qed.

Lemma login_db_agrees KEY sign pwd_context username password db utcnow :
  sqlite3.encodable username = true ->
  main_db.login KEY sign pwd_context username password db utcnow
  = main.login KEY sign pwd_context username password db utcnow.
Proof.
  intros Hn. unfold main_db.login, main.login, crud_db.authenticate_user,
    crud.authenticate_user.
  rewrite (get_user_by_username_db_agrees _ _ Hn). cbn [bind].
  destruct (crud.get_user_by_username db username); reflexivity.
Qed.

Lemma get_current_user_db_agrees KEY sign payload signature db utcnow :
  binds_text (jose.sub payload) ->
  main_db.get_current_user KEY sign (jose.JWS payload signature) db utcnow
  = main.get_current_user KEY sign (jose.JWS payload signature) db utcnow.
Proof.
  intros Hs. unfold main_db.get_current_user, main.get_current_user.
  destruct (jose.decode sign (jose.JWS payload signature) KEY utcnow) as [c | e] eqn:E;
    [| reflexivity].
  assert (c = payload) as ->.
  { unfold jose.decode in E. destruct (str_eqb signature (sign KEY payload));
      [| discriminate].
    destruct (jose.validate_exp payload utcnow); cbn [bind] in E; [| discriminate].
    injection E as <-. reflexivity. }
  destruct (jose.sub payload) as [username |]; [| reflexivity].
  rewrite (get_user_by_username_db_agrees _ _ Hs). cbn [bind].
  destruct (crud.get_user_by_username db username); reflexivity.
Qed.

Lemma bind_changed_kept {A} (eqb : A -> A -> bool) bind (old : A) :
  eqb old old = true -> sqlite3.bind_changed eqb bind old old = Return tt.
Proof. intros H. unfold sqlite3.bind_changed. rewrite H. reflexivity. Qed.

Lemma bind_changed_text old new :
  binds_text new ->
  sqlite3.bind_changed (opt_eqb str_eqb) (sqlite3.bind_opt sqlite3.bind_text)
    old (crud.or_keep_opt new old) = Return tt.
Proof.
  intros H. destruct new as [x |]; cbn [crud.or_keep_opt].
  - unfold sqlite3.bind_changed. destruct (opt_eqb str_eqb old (Some x)); [reflexivity |].
    apply (bind_opt_text_ok (Some x)). exact H.
  - apply bind_changed_kept. apply opt_eqb_str_refl.
Qed.

Lemma bind_changed_int old new :
  binds_int new ->
  sqlite3.bind_changed (opt_eqb Z.eqb) (sqlite3.bind_opt sqlite3.bind_int)
    old (crud.or_keep_opt new old) = Return tt.
Proof.
  intros H. destruct new as [x |]; cbn [crud.or_keep_opt].
  - unfold sqlite3.bind_changed. destruct (opt_eqb Z.eqb old (Some x)); [reflexivity |].
    apply (bind_opt_int_ok (Some x)). exact H.
  - apply bind_changed_kept. apply opt_eqb_Z_refl.
Qed.

Lemma bind_update_ok p u :
  binds_update u -> crud_db.bind_update p (crud.assign p u) = Return tt.
Proof.
  intros (Hs & Hc & Ht & Hd & Hn). unfold crud_db.bind_update, crud.assign.
  cbn [Problem.subject Problem.course Problem.problem_type Problem.knowledge_tags
       Problem.difficulty Problem.tags Problem.notes].
  rewrite (bind_changed_text _ _ Hs). cbn [bind].
  rewrite (bind_changed_text _ _ Hc). cbn [bind].
  rewrite (bind_changed_text _ _ Ht). cbn [bind].
  rewrite (bind_changed_text _ _ (binds_dumps (ProblemUpdate.knowledge_tags u))).
  cbn [bind].
  rewrite (bind_changed_int _ _ Hd). cbn [bind].
  rewrite (bind_changed_text _ _ (binds_dumps (ProblemUpdate.tags u))). cbn [bind].
  apply bind_changed_text. exact Hn.
Qed.

Lemma update_problem_db_agrees problem_id problem_in db current_user now :
  sqlite3.in_int64 problem_id = true -> binds_update problem_in ->
  main_db.update_problem problem_id problem_in db current_user now
  = main.update_problem problem_id problem_in db current_user now.
Proof.
  intros Hid Hu.
  unfold main_db.update_problem, main.update_problem, crud_db.get_problem,
    crud_db.update_problem, sqlite3.bind_int.
  rewrite Hid. cbn [bind].
  destruct (crud.get_problem db problem_id) as [p |]; [| reflexivity].
  destruct (main.ne_int (Problem.owner_id p) (User.id current_user)); [reflexivity |].
  rewrite (bind_update_ok p problem_in Hu).
  destruct (crud.update_problem db problem_id problem_in now) as [db' [p' |]];
    reflexivity.
Qed.

Lemma stored_content_binds raw file raw_store fc :
  binds_text raw ->
  match file with
  | Some f => binds_text (main.filename f)
  | None => True
  end ->
  main.stored_content raw file = Return (raw_store, fc) ->
  binds_text raw_store /\ binds_text fc.
Proof.
  intros Hr Hf. unfold main.stored_content. destruct file as [f |].
  - destruct (main.read f) as [file_bytes | e]; [| discriminate].
    intros H. injection H as <- <-. split; cbn [binds_text].
    + apply (encodable_app (py "FILE:") (main.format_opt (main.filename f)));
        [reflexivity |].
      destruct (main.filename f) as [name |]; cbn [main.format_opt]; [exact Hf | reflexivity].
    + apply encodable_ascii. apply b64encode_ascii.
  - intros H. injection H as <- <-. split; [exact Hr | exact I].
Qed.

Lemma bind_insert_ok db owner problem_in now :
  sqlite3.in_int64 owner = true ->
  sqlite3.encodable (ProblemCreate.source_type problem_in) = true ->
  sqlite3.encodable (ProblemCreate.raw problem_in) = true ->
  binds_text (ProblemCreate.file_content problem_in) ->
  binds_text (ProblemCreate.subject problem_in) ->
  binds_text (ProblemCreate.course problem_in) ->
  binds_text (ProblemCreate.problem_type problem_in) ->
  binds_int (ProblemCreate.difficulty problem_in) ->
  binds_text (ProblemCreate.notes problem_in) ->
  crud_db.create_problem db owner problem_in now
  = (fst (crud.create_problem db owner problem_in now),
     Return (snd (crud.create_problem db owner problem_in now))).
Proof.
  intros Ho Hs Hr Hf Hsu Hc Hp Hd Hn.
  assert (Hdumps : forall l : option (list str),
             binds_text (if crud.truthy_list l then option_map json.dumps l else None)).
  { intros l. destruct (crud.truthy_list l); [apply binds_dumps | exact I]. }
  unfold crud_db.create_problem, crud.create_problem. cbn [fst snd].
  unfold crud_db.bind_insert.
  cbn [Problem.owner_id Problem.source_type Problem.raw Problem.file_content
       Problem.subject Problem.course Problem.problem_type Problem.knowledge_tags
       Problem.difficulty Problem.tags Problem.notes].
  rewrite (bind_opt_int_ok (Some owner) Ho). cbn [bind].
  rewrite (bind_text_ok _ Hs). cbn [bind].
  rewrite (bind_opt_text_ok (Some (ProblemCreate.raw problem_in)) Hr). cbn [bind].
  rewrite (bind_opt_text_ok _ Hf). cbn [bind].
  rewrite (bind_opt_text_ok _ Hsu). cbn [bind].
  rewrite (bind_opt_text_ok _ Hc). cbn [bind].
  rewrite (bind_opt_text_ok _ Hp). cbn [bind].
  rewrite (bind_opt_text_ok _ (Hdumps (ProblemCreate.knowledge_tags problem_in))).
  cbn [bind].
  rewrite (bind_opt_int_ok _ Hd). cbn [bind].
  rewrite (bind_opt_text_ok _ (Hdumps (ProblemCreate.tags problem_in))). cbn [bind].
  rewrite (bind_opt_text_ok _ Hn). reflexivity.
Qed.

Lemma upload_problem_db_agrees raw file source_type subject course problem_type
    knowledge_tags difficulty tags notes db current_user now :
  sqlite3.in_int64 (User.id current_user) = true ->
  binds_upload raw file source_type subject course problem_type difficulty notes ->
  main_db.upload_problem raw file source_type subject course problem_type
    knowledge_tags difficulty tags notes db current_user now
  = main.upload_problem raw file source_type subject course problem_type
      knowledge_tags difficulty tags notes db current_user now.
Proof.
  intros Ho (Hr & Hf & Hs & Hsu & Hc & Hp & Hd & Hn).
  unfold main_db.upload_problem, main.upload_problem.
  destruct (negb (truthy_str raw) && negb (main.truthy_file file)); [reflexivity |].
  destruct (main.stored_content raw file) as [[raw_store fc] | e] eqn:Es; cbn [bind];
    [| reflexivity].
  destruct (stored_content_binds _ _ _ _ Hr Hf Es) as [Hrs Hfc].
  destruct (main.parse_tag_field knowledge_tags KnowledgeTagsNotJSON) as [kt | e];
    cbn [bind]; [| reflexivity].
  destruct (main.parse_tag_field tags TagsNotJSON) as [tg | e]; cbn [bind];
    [| reflexivity].
  unfold ProblemCreate.init. destruct raw_store as [raw_text |]; [| reflexivity].
  destruct (validate_optional_list_str kt) as [lk | e]; cbn [bind]; [| reflexivity].
  destruct (validate_optional_list_str tg) as [lt | e]; cbn [bind]; [| reflexivity].
  rewrite bind_insert_ok by assumption.
  destruct (crud.create_problem db (User.id current_user) _ now) as [db' p].
  reflexivity.
Qed.

(* ===================================================================== *)
(** ** The handlers behind the driver *)
(* ===================================================================== *)

(** *** Registration behind the driver *)

(** X5.  A registration succeeds when the username and the uuid are not
    in the store yet, the password context returns a hash, and username,
    uuid, hash and nickname are text the driver binds.  The user is
    appended with the given name and the computed hash, active and not an
    administrator, under an id larger than every stored one; the new name
    then finds the new user and every other name finds what it found
    before. *)
Theorem register_stores_user pwd_context user_in db uuid salt now hashed :
  crud.get_user_by_username db (UserCreate.username user_in) = None ->
  (forall u, In u (users db) -> User.uuid u <> uuid) ->
  crud.get_password_hash pwd_context (UserCreate.password user_in) salt = Return hashed ->
  sqlite3.encodable (UserCreate.username user_in) = true ->
  sqlite3.encodable uuid = true ->
  sqlite3.encodable hashed = true ->
  binds_text (UserCreate.nickname user_in) ->
  exists user,
    main_db.register pwd_context user_in db uuid salt now
    = ({| users := users db ++ [user]; problems := problems db |}, Return user)
    /\ User.username user = UserCreate.username user_in
    /\ User.hashed_password user = hashed
    /\ User.nickname user = UserCreate.nickname user_in
    /\ User.is_active user = true
    /\ User.is_admin user = false
    /\ (forall u, In u (users db) -> User.id u < User.id user)
    /\ crud_db.get_user_by_username
         (fst (main_db.register pwd_context user_in db uuid salt now))
         (UserCreate.username user_in) = Return (Some user)
    /\ (forall name, name <> UserCreate.username user_in ->
        crud_db.get_user_by_username
          (fst (main_db.register pwd_context user_in db uuid salt now)) name
        = crud_db.get_user_by_username db name).
Proof.
  intros Hnone Huuid Hhash En Eu Eh Ek.
  rewrite (register_db_agrees pwd_context user_in db uuid salt now hashed En Eu Ek Hhash Eh).
  destruct (register_creates_user pwd_context user_in db uuid salt now hashed
              Hnone Huuid Hhash)
    as (user & Hreg & H1 & H2 & H3 & H4 & H5 & H6 & H7 & H8).
  exists user. split; [exact Hreg |].
  split; [exact H1 |]. split; [exact H2 |]. split; [exact H3 |].
  split; [exact H4 |]. split; [exact H5 |]. split; [exact H6 |]. split.
  - rewrite (get_user_by_username_db_agrees _ _ En), H7. reflexivity.
  - intros name Hne. unfold crud_db.get_user_by_username.
    rewrite (H8 name Hne). reflexivity.
Qed.

Lemma register_stores_user_witness :
  exists user,
    main_db.register examples.toy_context
      (UserCreate.mk (py "carol") (py "pw123456") (Some (py "Carol")))
      examples.db0 (py "uuid-carol") (py "salt") 7
    = ({| users := users examples.db0 ++ [user]; problems := problems examples.db0 |},
       Return user)
    /\ User.username user = py "carol".
Proof.
  destruct (register_stores_user examples.toy_context
              (UserCreate.mk (py "carol") (py "pw123456") (Some (py "Carol")))
              examples.db0 (py "uuid-carol") (py "salt") 7
              (passlib.pbkdf2_sha256_ident
               ++ examples.toy_to_string (py "salt")
                    (examples.toy_checksum (py "pw123456") (py "salt")))
              eq_refl)
    as (user & H & Hn & _).
  - intros u [<- | [<- | []]]; discriminate.
  - reflexivity.
  - reflexivity.
  - reflexivity.
  - reflexivity.
  - reflexivity.
  - exists user. split; assumption.
Defined.

Lemma bind_text_raises s e : sqlite3.bind_text s = Raise e -> e = UnicodeEncodeError.
Proof.
  unfold sqlite3.bind_text. destruct (sqlite3.encodable s); [discriminate |].
  intros H. injection H as <-. reflexivity.
Qed.



(** X17.  Register, then log in, behind the driver.  A registration
    under a fresh username and uuid, with text the driver binds, answers
    with the new user; if the password context verifies the password
    against the hash it just produced, a login with the same credentials
    returns a token that resolves to that user until its expiry second; a
    password the context does not verify against that hash is answered
    with 400. *)
Theorem register_then_login_db KEY sign pwd_context user_in db uuid salt now hashed :
  crud.get_user_by_username db (UserCreate.username user_in) = None ->
  (forall u, In u (users db) -> User.uuid u <> uuid) ->
  crud.get_password_hash pwd_context (UserCreate.password user_in) salt = Return hashed ->
  sqlite3.encodable (UserCreate.username user_in) = true ->
  sqlite3.encodable uuid = true ->
  sqlite3.encodable hashed = true ->
  binds_text (UserCreate.nickname user_in) ->
  exists user,
    snd (main_db.register pwd_context user_in db uuid salt now) = Return user
    /\ (crud.verify_password pwd_context (UserCreate.password user_in) hashed
        = Return true ->
        forall issued utcnow,
          timegm utcnow <= timegm (issued + minutes main.ACCESS_TOKEN_EXPIRE_MINUTES) ->
          exists token,
            main_db.login KEY sign pwd_context (UserCreate.username user_in)
              (UserCreate.password user_in)
              (fst (main_db.register pwd_context user_in db uuid salt now)) issued
            = Return token
            /\ main_db.get_current_user KEY sign token
                 (fst (main_db.register pwd_context user_in db uuid salt now)) utcnow
               = Return user)
    /\ (forall wrong issued,
          crud.verify_password pwd_context wrong hashed = Return false ->
          main_db.login KEY sign pwd_context (UserCreate.username user_in) wrong
            (fst (main_db.register pwd_context user_in db uuid salt now)) issued
          = Raise (HTTPException 400 IncorrectUsernameOrPassword)).
Proof.
  intros Hnone Huuid Hhash En Eu Eh Ek.
  rewrite (register_db_agrees pwd_context user_in db uuid salt now hashed En Eu Ek Hhash Eh).
  destruct (register_then_login KEY sign pwd_context user_in db uuid salt now hashed
              Hnone Huuid Hhash) as (user & Hreg & Hok & Hwrong).
  exists user. split; [exact Hreg |]. split.
  - intros Hv issued utcnow Ht.
    destruct (Hok Hv issued utcnow Ht) as (token & Hlogin & Hme).
    exists token. rewrite (login_db_agrees _ _ _ _ _ _ _ En). split; [exact Hlogin |].
    destruct (login_inv _ _ _ _ _ _ _ _ Hlogin) as (u & Hu & _ & ->).
    destruct (get_user_by_username_some _ _ _ Hu) as [_ Hname].
    unfold main.create_access_token, jose.encode in *.
    rewrite get_current_user_db_agrees; [exact Hme |].
    cbn [jose.sub binds_text]. rewrite Hname. exact En.
  - intros wrong issued Hv. rewrite (login_db_agrees _ _ _ _ _ _ _ En).
    apply Hwrong. exact Hv.
Qed.

Lemma register_then_login_db_witness :
  exists user,
    snd (main_db.register examples.toy_context
           (UserCreate.mk (py "carol") (py "pw123456") None)
           examples.db0 (py "uuid-carol") (py "salt") 7) = Return user
    /\ main_db.login examples.KEY examples.tag_sign examples.toy_context
         (py "carol") (py "wrong")
         (fst (main_db.register examples.toy_context
                 (UserCreate.mk (py "carol") (py "pw123456") None)
                 examples.db0 (py "uuid-carol") (py "salt") 7)) 10
       = Raise (HTTPException 400 IncorrectUsernameOrPassword).
Proof.
  destruct (register_then_login_db examples.KEY examples.tag_sign examples.toy_context
              (UserCreate.mk (py "carol") (py "pw123456") None)
              examples.db0 (py "uuid-carol") (py "salt") 7
              (passlib.pbkdf2_sha256_ident
               ++ examples.toy_to_string (py "salt")
                    (examples.toy_checksum (py "pw123456") (py "salt")))
              eq_refl)
    as (user & Hreg & _ & Hwrong).
  - intros u [<- | [<- | []]]; discriminate.
  - reflexivity.
  - reflexivity.
  - reflexivity.
  - reflexivity.
  - exact I.
  - exists user. split; [exact Hreg |]. apply Hwrong. reflexivity.
Defined.

(** *** Uploads and updates behind the driver *)

(** X13.  An upload that has content and a readable file (if any), whose
    knowledge_tags field is a short non-empty text that json.loads cannot
    decode, is refused with 400 and the detail of that field, whatever
    tags holds; tags that cannot be decoded is refused with 400 and its own
    detail once a short knowledge_tags has decoded.  Short is within the
    length at which the decoder can reach neither its recursion limit nor
    the digit limit of integers.  Nothing is stored. *)
Theorem upload_rejects_undecodable_db raw file source_type subject course problem_type
    difficulty notes db current_user now raw_store fc s :
  negb (truthy_str raw) && negb (main.truthy_file file) = false ->
  main.stored_content raw file = Return (raw_store, fc) ->
  s <> [] -> json.within_limits s -> json.loads s = Raise JSONDecodeError ->
  (forall tags,
     main_db.upload_problem raw file source_type subject course problem_type
       (Some s) difficulty tags notes db current_user now
     = (db, Raise (HTTPException 400 KnowledgeTagsNotJSON)))
  /\ (forall knowledge_tags v,
        text_limits knowledge_tags ->
        main.parse_tag_field knowledge_tags KnowledgeTagsNotJSON = Return v ->
        main_db.upload_problem raw file source_type subject course problem_type
          knowledge_tags difficulty (Some s) notes db current_user now
        = (db, Raise (HTTPException 400 TagsNotJSON))).
Proof.
  intros Hc Hs Hne _ Hl. split.
  - intros tags. unfold main_db.upload_problem. rewrite Hc, Hs. cbn [bind].
    rewrite parse_tag_field_undecodable by assumption. reflexivity.
  - intros knowledge_tags v _ Hv. unfold main_db.upload_problem. rewrite Hc, Hs.
    cbn [bind]. rewrite Hv. cbn [bind].
    rewrite parse_tag_field_undecodable by assumption. reflexivity.
Qed.

Lemma upload_rejects_undecodable_db_witness :
  main_db.upload_problem (Some (py "1+1=?")) None (py "text") None None None
    (Some (py "a,b")) None (Some (py "[]")) None examples.db0 examples.alice 9
  = (examples.db0, Raise (HTTPException 400 KnowledgeTagsNotJSON))
  /\ main_db.upload_problem (Some (py "1+1=?")) None (py "text") None None None
       (Some (py "[]")) None (Some (py "a,b")) None examples.db0 examples.alice 9
     = (examples.db0, Raise (HTTPException 400 TagsNotJSON)).
Proof.
  destruct (upload_rejects_undecodable_db (Some (py "1+1=?")) None (py "text") None None
              None None None examples.db0 examples.alice 9 (Some (py "1+1=?")) None
              (py "a,b") eq_refl eq_refl) as [Hk Ht].
  - discriminate.
  - unfold json.within_limits. cbn. lia.
  - reflexivity.
  - split.
    + apply Hk.
    + apply (Ht (Some (py "[]")) (json.PyList [])).
      * unfold text_limits, json.within_limits. cbn. lia.
      * reflexivity.
Defined.

(** X25.  An upload succeeds whenever its content is there, the file (if
    any) is read, the caller's id and the form fields are values the driver
    binds, and the two tag fields are Unicode text that decodes to lists
    of strings (or are absent); it answers with the lists as they read
    back. *)
Theorem upload_valid_succeeds_db raw file source_type subject course problem_type
    knowledge_tags difficulty tags notes db current_user now raw_store fc vk lk vt lt :
  negb (truthy_str raw) && negb (main.truthy_file file) = false ->
  main.stored_content raw file = Return (Some raw_store, fc) ->
  sqlite3.in_int64 (User.id current_user) = true ->
  binds_upload raw file source_type subject course problem_type difficulty notes ->
  text_field knowledge_tags -> text_field tags ->
  main.parse_tag_field knowledge_tags KnowledgeTagsNotJSON = Return vk ->
  validate_optional_list_str vk = Return lk ->
  main.parse_tag_field tags TagsNotJSON = Return vt ->
  validate_optional_list_str vt = Return lt ->
  exists out,
    snd (main_db.upload_problem raw file source_type subject course problem_type
           knowledge_tags difficulty tags notes db current_user now) = Return out
    /\ ProblemOut.knowledge_tags out = read_back lk
    /\ ProblemOut.tags out = read_back lt.
Proof.
  intros Hc Hs Ho Hb Tk Tt Pk Vk Pt Vt.
  rewrite (upload_problem_db_agrees raw file source_type subject course problem_type
             knowledge_tags difficulty tags notes db current_user now Ho Hb).
  exact (upload_valid_succeeds raw file source_type subject course problem_type
           knowledge_tags difficulty tags notes db current_user now raw_store fc
           vk lk vt lt Hc Hs Tk Tt Pk Vk Pt Vt).
Qed.

Lemma upload_valid_succeeds_db_witness :
  exists out,
    snd (main_db.upload_problem (Some (py "1+1=?")) None (py "text") None None None
           (Some (json.dumps [py "sums"])) (Some 3) (Some (py "[]")) None
           examples.db0 examples.alice 9) = Return out
    /\ ProblemOut.knowledge_tags out = Some [py "sums"]
    /\ ProblemOut.tags out = None.
Proof.
  apply (upload_valid_succeeds_db (Some (py "1+1=?")) None (py "text") None None None
           (Some (json.dumps [py "sums"])) (Some 3) (Some (py "[]")) None
           examples.db0 examples.alice 9 (py "1+1=?") None
           (json.PyList [json.PyStr (py "sums")]) (Some [py "sums"])
           (json.PyList []) (Some [])).
  - reflexivity.
  - reflexivity.
  - reflexivity.
  - repeat split.
  - let s := eval vm_compute in (json.dumps [py "sums"]) in
    change (json.dumps [py "sums"]) with s.
    repeat constructor.
  - repeat constructor.
  - reflexivity.
  - reflexivity.
  - reflexivity.
  - reflexivity.
Defined.

(** X26.  On a well-formed store, a PATCH by the owner of an existing
    problem succeeds when the id and the provided fields are values the
    driver binds and the tag lists are well formed; it answers with the
    problem of the id that was asked for. *)
Theorem patch_by_owner_succeeds problem_id problem_in db current_user now p :
  wf_db db -> wf_update problem_in ->
  sqlite3.in_int64 problem_id = true -> binds_update problem_in ->
  crud.get_problem db problem_id = Some p ->
  Problem.owner_id p = Some (User.id current_user) ->
  exists out,
    snd (main_db.update_problem problem_id problem_in db current_user now) = Return out
    /\ ProblemOut.id out = problem_id.
Proof.
  intros Hdb Hu Hid Hb Hget Hown.
  rewrite (update_problem_db_agrees problem_id problem_in db current_user now Hid Hb).
  exact (update_problem_by_owner_succeeds problem_id problem_in db current_user now p
           Hdb Hu Hget Hown).
Qed.

Lemma patch_by_owner_succeeds_witness :
  exists out,
    snd (main_db.update_problem 1
           (ProblemUpdate.mk (Some (py "X")) None None (Some []) (Some 5) None None None)
           examples.db0 examples.alice 9) = Return out
    /\ ProblemOut.id out = 1.
Proof.
  apply (patch_by_owner_succeeds 1
           (ProblemUpdate.mk (Some (py "X")) None None (Some []) (Some 5) None None None)
           examples.db0 examples.alice 9 examples.problem1 wf_db0).
  - split; [constructor | exact I].
  - reflexivity.
  - repeat split.
  - reflexivity.
  - reflexivity.
Defined.

(** *** Setting the active flag twice *)

(** X22.  set_user_active: the last write wins.  Setting the flag of a
    user to one value and then to another returns the row and leaves the
    store that setting it to the second value alone gives. *)
Theorem set_user_active_last_write_wins db user_id a b :
  crud.set_user_active (fst (crud.set_user_active db user_id a)) user_id b
  = crud.set_user_active db user_id b.
Proof.
  unfold crud.set_user_active.
  destruct (find (fun u => User.id u =? user_id) (users db)) as [target |] eqn:E;
    cbn [fst users problems]; [| rewrite E; reflexivity].
  rewrite (find_map_update (fun u => User.id u =? user_id)
             (fun u => User.set_is_active u a)) by reflexivity.
  rewrite E. cbn [option_map]. rewrite map_map. f_equal. f_equal.
  apply map_ext. intros u.
  destruct (User.id u =? user_id) eqn:Eu; [| rewrite Eu; reflexivity].
  cbn [User.set_is_active User.id]. rewrite Eu. reflexivity.
Qed.

(** *** The two layers *)


(** What the driver refuses is answered with its exception and nothing is
    written: a username or a subject with a lone surrogate, a difficulty
    or an id of 2^63. *)
Example refused_by_driver :
  main_db.register examples.toy_context (UserCreate.mk [55357%N] (py "pw123456") None)
    examples.db0 (py "uuid-new") (py "salt") 7
  = (examples.db0, Raise UnicodeEncodeError)
  /\ main_db.upload_problem (Some (py "1+1=?")) None (py "text") None None None
       None (Some (2 ^ 63)) None None examples.db0 examples.alice 9
     = (examples.db0, Raise OverflowError)
  /\ main_db.update_problem 1 (subject_only [55357%N]) examples.db0 examples.alice 9
     = (examples.db0, Raise UnicodeEncodeError)
  /\ main_db.update_problem 1
       (ProblemUpdate.mk None None None None (Some (2 ^ 63)) None None None)
       examples.db0 examples.alice 9
     = (examples.db0, Raise OverflowError).
Proof. repeat split. Qed.

Lemma create_problem_db_fst db owner problem_in now :
  crud_db.create_problem db owner problem_in now
  = (db, Raise OverflowError)
  \/ crud_db.create_problem db owner problem_in now
     = (db, Raise UnicodeEncodeError)
  \/ crud_db.create_problem db owner problem_in now
     = (fst (crud.create_problem db owner problem_in now),
        Return (snd (crud.create_problem db owner problem_in now))).
Proof.
  unfold crud_db.create_problem.
  destruct (crud.create_problem db owner problem_in now) as [db' p]. cbn [fst snd].
  destruct (crud_db.bind_insert p) as [[] | e] eqn:E; [right; right; reflexivity |].
  assert (He : e = OverflowError \/ e = UnicodeEncodeError).
  { unfold crud_db.bind_insert in E.
    repeat match type of E with
           | bind ?r _ = Raise _ =>
               let B := fresh "B" in
               destruct r as [[] | e'] eqn:B; cbn [bind] in E;
               [| injection E as <-]
           end;
      repeat match goal with
             | B : sqlite3.bind_opt _ ?v = Raise _ |- _ =>
                 destruct v; cbn [sqlite3.bind_opt] in B; [| discriminate]
             | B : sqlite3.bind_text _ = Raise _ |- _ =>
                 apply bind_text_raises in B; subst; right; reflexivity
             | B : sqlite3.bind_int ?n = Raise _ |- _ =>
                 unfold sqlite3.bind_int in B; destruct (sqlite3.in_int64 n);
                 [discriminate | injection B as <-; left; reflexivity]
             end. }
  destruct He as [-> | ->]; [left | right; left]; reflexivity.
Qed.

(** X28.  Behind the driver too, a write request that ends in an error
    leaves the store as it was, the driver's refusals included: a
    registration, an upload whose tag fields are Unicode text, and, on a
    well-formed store, an update with well-formed tag lists. *)
Theorem failed_write_changes_nothing_db db :
  wf_db db ->
  (forall pwd_context user_in uuid salt now e,
     snd (main_db.register pwd_context user_in db uuid salt now) = Raise e ->
     fst (main_db.register pwd_context user_in db uuid salt now) = db)
  /\ (forall raw file source_type subject course problem_type knowledge_tags difficulty
             tags notes current_user now e,
        text_field knowledge_tags -> text_field tags ->
        snd (main_db.upload_problem raw file source_type subject course problem_type
               knowledge_tags difficulty tags notes db current_user now) = Raise e ->
        fst (main_db.upload_problem raw file source_type subject course problem_type
               knowledge_tags difficulty tags notes db current_user now) = db)
  /\ (forall problem_id problem_in current_user now e,
        wf_update problem_in ->
        snd (main_db.update_problem problem_id problem_in db current_user now) = Raise e ->
        fst (main_db.update_problem problem_id problem_in db current_user now) = db).
Proof.
  intros Hdb. split; [| split].
  - intros pwd_context user_in uuid salt now e.
    unfold main_db.register, crud_db.create_user, crud.create_user.
    destruct (crud_db.get_user_by_username db (UserCreate.username user_in))
      as [[existing |] | e1]; try reflexivity.
    destruct (crud.get_password_hash pwd_context _ salt); [| reflexivity].
    match goal with
    | |- context [match ?b with Return _ => _ | Raise _ => _ end] => destruct b
    end; [| reflexivity].
    destruct (existsb _ (users db)); [reflexivity | discriminate].
  - intros raw file source_type subject course problem_type knowledge_tags difficulty
      tags notes current_user now e Hk Ht.
    unfold main_db.upload_problem.
    destruct (negb (truthy_str raw) && negb (main.truthy_file file)); [reflexivity |].
    destruct (main.stored_content raw file) as [[raw_store fc] | e1]; cbn [bind];
      [| reflexivity].
    destruct (main.parse_tag_field knowledge_tags KnowledgeTagsNotJSON) as [kt | e1] eqn:Ek;
      cbn [bind]; [| reflexivity].
    destruct (main.parse_tag_field tags TagsNotJSON) as [tg | e1] eqn:Et;
      cbn [bind]; [| reflexivity].
    destruct (ProblemCreate.init source_type raw_store fc subject course problem_type
                kt difficulty tg notes) as [problem_in | e1] eqn:Ei; [| reflexivity].
    assert (Hwf : wf_create problem_in).
    { eapply ProblemCreate_init_wf; [| | exact Ei].
      - exact (parse_tag_field_ok _ _ _ Hk Ek).
      - exact (parse_tag_field_ok _ _ _ Ht Et). }
    destruct (from_orm_created db (User.id current_user) problem_in now Hwf) as [out Hout].
    destruct (create_problem_db_fst db (User.id current_user) problem_in now)
      as [-> | [-> | ->]]; try reflexivity.
    cbn [snd]. rewrite Hout. discriminate.
  - intros problem_id problem_in current_user now e Hu.
    unfold main_db.update_problem, crud_db.get_problem, crud_db.update_problem.
    destruct (sqlite3.bind_int problem_id) as [[] | e1]; cbn [bind]; [| reflexivity].
    destruct (crud.get_problem db problem_id) as [p |] eqn:Hget; [| reflexivity].
    destruct (main.ne_int (Problem.owner_id p) (User.id current_user)); [reflexivity |].
    destruct (crud_db.bind_update p (crud.assign p problem_in)); [| reflexivity].
    destruct (update_problem_returns_flushed db problem_id p problem_in now Hget)
      as [E Hq].
    rewrite E. cbn [snd fst].
    pose proof (get_problem_wf _ _ _
                  (update_problem_wf db problem_id problem_in now Hdb Hu) Hq) as Hwf.
    destruct (from_orm_wf _ Hwf) as (out & Hout & _). rewrite Hout. discriminate.
Qed.

Lemma failed_write_changes_nothing_db_witness :
  fst (main_db.update_problem 1 (subject_only [55357%N]) examples.db0 examples.alice 9)
  = examples.db0
  /\ fst (main_db.upload_problem (Some (py "1+1=?")) None (py "text") None None None
            None (Some (2 ^ 63)) None None examples.db0 examples.alice 9)
     = examples.db0.
Proof.
  destruct (failed_write_changes_nothing_db examples.db0 wf_db0) as (_ & Hup & Hpatch).
  split.
  - apply (Hpatch 1 (subject_only [55357%N]) examples.alice 9 UnicodeEncodeError).
    + split; exact I.
    + reflexivity.
  - apply (Hup (Some (py "1+1=?")) None (py "text") None None None
             None (Some (2 ^ 63)) None None examples.alice 9 OverflowError).
    + exact I.
    + exact I.
    + reflexivity.
Defined.
